(** * Fragment generation of the 3D scene objects

    A shallow embedding of [veusz/helpers/src/threed/objects.cpp]: every
    scene object decomposes itself, under an accumulated 4x4 transform, into
    a sequence of fragments (triangles, line segments, path markers).

    Conventions of the embedding.
    - [double] is the kernel's binary64 float, so the finiteness filters of
      the source run as written.
    - [v.push_back(f)] only ever appends: each [getFragments] below returns
      the fragments appended by the call, in order ([getFragments_into]
      gives the vector after the call).
    - reading a [std::vector] past its end is undefined in the source; the
      embedding reads through [vget], and a function that may read out of
      range returns [None] when it does.
    - the [int] arithmetic of [DataMesh] and the [unsigned] arithmetic of
      [LineCellTracker] are written with their 32-bit wrap-around; the
      [unsigned] counters of loops that run over a container range over its
      elements. *)

From Stdlib Require Import String Ascii ZArith List Lia Bool.
From Stdlib Require Import Floats.
Import ListNotations.
Local Open Scope Z_scope.

(** ** The error monad of out-of-range reads *)

Definition bind {A B} (m : option A) (k : A -> option B) : option B :=
  match m with
  | Some a => k a
  | None => None
  end.

Notation "x <- m ;; k" := (bind m (fun x => k))
  (at level 61, m at next level, right associativity).

(** [v[i]] for a signed or unsigned index [i]. *)
Definition vget {A} (v : list A) (i : Z) : option A :=
  if i <? 0 then None else nth_error v (Z.to_nat i).

(** A loop over the values [l] of its counter: [body] updates the loop's
    state and returns the fragments it pushed; the loop stops at the first
    failed read. *)
Fixpoint loopM {S A F} (body : A -> S -> option (S * list F)) (l : list A)
  (st : S) : option (S * list F) :=
  match l with
  | [] => Some (st, [])
  | a :: l' =>
      r <- body a st ;;
      r' <- loopM body l' (fst r) ;;
      Some (fst r', snd r ++ snd r')
  end.

(** The values [0, 1, ..., n-1] of a counter [for (i = 0; i < n; ++i)];
    empty when [n <= 0]. *)
Definition upto (n : Z) : list Z := map Z.of_nat (seq 0 (Z.to_nat n)).

(** A container's elements with their positions, for a counter that runs
    over [v.size()]. *)
Definition indexed {A} (l : list A) : list (Z * A) :=
  combine (upto (Z.of_nat (length l))) l.

(** [a[i] = x] on an array, for an index in range. *)
Fixpoint set_nth {A} (l : list A) (i : nat) (x : A) : list A :=
  match l, i with
  | [], _ => []
  | _ :: t, O => x :: t
  | h :: t, S j => h :: set_nth t j x
  end.

(** ** 32-bit machine integers *)

Definition wrap_unsigned (z : Z) : Z := z mod 2 ^ 32.
Definition wrap_int (z : Z) : Z := (z + 2 ^ 31) mod 2 ^ 32 - 2 ^ 31.

(** [int(v.size())] *)
Definition int_of_size (n : nat) : Z := wrap_int (Z.of_nat n).
(** [unsigned(v.size())], also the implicit conversion to an [unsigned]
    constructor argument *)
Definition unsigned_of_size (n : nat) : Z := wrap_unsigned (Z.of_nat n).

Definition INT_MAX : Z := 2 ^ 31 - 1.

(** ** Geometry kernel *)

Module Maths.

(** Modelled from the spec: the vector and matrix kernel ([mmaths.h]: [Vec2],
    [Vec3], [Vec4], [Mat4], [vec3to4], [vec4to3], [vec3to2], [cross],
    [isfinite]) is an external collaborator that is not under src/.  It is
    the usual homogeneous-coordinate algebra on doubles; [isfinite] is the
    spec's componentwise finiteness test. *)
Abbreviation double := float.

Local Open Scope float_scope.

Definition d_isfinite (d : double) : bool := PrimFloat.is_finite d.

Record Vec2 := mkVec2 { v2x : double; v2y : double }.
Record Vec3 := mkVec3 { v3x : double; v3y : double; v3z : double }.
Record Vec4 := mkVec4 { v4x : double; v4y : double; v4z : double; v4w : double }.
Record Mat4 := mkMat4 { row0 : Vec4; row1 : Vec4; row2 : Vec4; row3 : Vec4 }.

(** [Vec3()] is the zero vector; [Vec4(a,b,c)] has [w = 1]. *)
Definition Vec3_zero : Vec3 := mkVec3 0 0 0.
Definition Vec4_xyz (a b c : double) : Vec4 := mkVec4 a b c 1.
Definition Vec4_zero : Vec4 := mkVec4 0 0 0 0.
(** [Vec4(0,0,0,1)] *)
Definition Vec4_origin : Vec4 := mkVec4 0 0 0 1.

(** [v(i) = x] for a run-time component index. *)
Definition Vec4_set (v : Vec4) (i : nat) (x : double) : Vec4 :=
  match i with
  | 0%nat => mkVec4 x (v4y v) (v4z v) (v4w v)
  | 1%nat => mkVec4 (v4x v) x (v4z v) (v4w v)
  | 2%nat => mkVec4 (v4x v) (v4y v) x (v4w v)
  | 3%nat => mkVec4 (v4x v) (v4y v) (v4z v) x
  | _ => v
  end.

Definition Vec3_add (a b : Vec3) : Vec3 :=
  mkVec3 (v3x a + v3x b) (v3y a + v3y b) (v3z a + v3z b).
Definition Vec3_sub (a b : Vec3) : Vec3 :=
  mkVec3 (v3x a - v3x b) (v3y a - v3y b) (v3z a - v3z b).
Definition Vec3_scale (a : Vec3) (k : double) : Vec3 :=
  mkVec3 (v3x a * k) (v3y a * k) (v3z a * k).
Definition cross (a b : Vec3) : Vec3 :=
  mkVec3 (v3y a * v3z b - v3z a * v3y b)
         (v3z a * v3x b - v3x a * v3z b)
         (v3x a * v3y b - v3y a * v3x b).
Definition Vec4_add (a b : Vec4) : Vec4 :=
  mkVec4 (v4x a + v4x b) (v4y a + v4y b) (v4z a + v4z b) (v4w a + v4w b).

Definition Vec3_isfinite (a : Vec3) : bool :=
  d_isfinite (v3x a) && d_isfinite (v3y a) && d_isfinite (v3z a).
Definition Vec4_isfinite (a : Vec4) : bool :=
  d_isfinite (v4x a) && d_isfinite (v4y a) && d_isfinite (v4z a)
  && d_isfinite (v4w a).

Definition vec3to4 (v : Vec3) : Vec4 := mkVec4 (v3x v) (v3y v) (v3z v) 1.
Definition vec4to3 (v : Vec4) : Vec3 :=
  let inv := 1 / v4w v in
  mkVec3 (v4x v * inv) (v4y v * inv) (v4z v * inv).
Definition vec3to2 (v : Vec3) : Vec2 := mkVec2 (v3x v) (v3y v).

Definition dot4 (a b : Vec4) : double :=
  v4x a * v4x b + v4y a * v4y b + v4z a * v4z b + v4w a * v4w b.
Definition Mat4_mul_vec (m : Mat4) (v : Vec4) : Vec4 :=
  mkVec4 (dot4 (row0 m) v) (dot4 (row1 m) v) (dot4 (row2 m) v)
         (dot4 (row3 m) v).

Definition col (m : Mat4) (i : nat) : Vec4 :=
  let pick (r : Vec4) :=
    match i with
    | 0%nat => v4x r | 1%nat => v4y r | 2%nat => v4z r | _ => v4w r
    end in
  mkVec4 (pick (row0 m)) (pick (row1 m)) (pick (row2 m)) (pick (row3 m)).
Definition Mat4_mul (a b : Mat4) : Mat4 :=
  let r (x : Vec4) :=
    mkVec4 (dot4 x (col b 0)) (dot4 x (col b 1)) (dot4 x (col b 2))
           (dot4 x (col b 3)) in
  mkMat4 (r (row0 a)) (r (row1 a)) (r (row2 a)) (r (row3 a)).

Definition identityM4 : Mat4 :=
  mkMat4 (mkVec4 1 0 0 0) (mkVec4 0 1 0 0) (mkVec4 0 0 1 0) (mkVec4 0 0 0 1).

(** [vec4to3(outerM*vec3to4(p))], the projection every object applies. *)
Definition project (outerM : Mat4) (p : Vec3) : Vec3 :=
  vec4to3 (Mat4_mul_vec outerM (vec3to4 p)).

(** The conversion of a small counter to [double] in [tot/ct]. *)
Fixpoint double_of_nat (n : nat) : double :=
  match n with
  | O => 0
  | S k => double_of_nat k + 1
  end.

End Maths.
Import Maths.

Definition ValVector := list double.

(** ** Fragments *)

Inductive FragmentType := FR_NONE | FR_TRIANGLE | FR_LINESEG | FR_PATH.

(** The style objects are externally owned; a fragment borrows a handle,
    and an absent handle is the null pointer of the source. *)
Definition LineProp := nat.
Definition SurfaceProp := nat.

(** Which object's parameter block a path fragment points to. *)
Inductive FragParams := PointsParams | TextParams | TickLabelParams.

(** The fields of [Fragment] the generators write (the back-pointer to the
    producing object is not represented). *)
Record Fragment := mkFragment {
  ftype : FragmentType;
  points0 : Vec3;
  points1 : Vec3;
  points2 : Vec3;
  surfaceprop : option SurfaceProp;
  lineprop : option LineProp;
  params : option FragParams;
  pathsize : double;
  index : Z
}.

Definition FragmentVector := list Fragment.

(** [Fragment f;] zero-initialises every field. *)
Definition Fragment_init : Fragment :=
  mkFragment FR_NONE Vec3_zero Vec3_zero Vec3_zero None None None 0%float 0.

Definition set_points0 (f : Fragment) (p : Vec3) : Fragment :=
  mkFragment (ftype f) p (points1 f) (points2 f) (surfaceprop f) (lineprop f)
             (params f) (pathsize f) (index f).
Definition set_points1 (f : Fragment) (p : Vec3) : Fragment :=
  mkFragment (ftype f) (points0 f) p (points2 f) (surfaceprop f) (lineprop f)
             (params f) (pathsize f) (index f).
Definition set_points2 (f : Fragment) (p : Vec3) : Fragment :=
  mkFragment (ftype f) (points0 f) (points1 f) p (surfaceprop f) (lineprop f)
             (params f) (pathsize f) (index f).
Definition set_pathsize (f : Fragment) (s : double) : Fragment :=
  mkFragment (ftype f) (points0 f) (points1 f) (points2 f) (surfaceprop f)
             (lineprop f) (params f) s (index f).
Definition set_index (f : Fragment) (i : Z) : Fragment :=
  mkFragment (ftype f) (points0 f) (points1 f) (points2 f) (surfaceprop f)
             (lineprop f) (params f) (pathsize f) i.

Definition is_triangle (f : Fragment) : bool :=
  match ftype f with FR_TRIANGLE => true | _ => false end.
Definition is_lineseg (f : Fragment) : bool :=
  match ftype f with FR_LINESEG => true | _ => false end.
Definition is_path (f : Fragment) : bool :=
  match ftype f with FR_PATH => true | _ => false end.

(** What a call leaves behind: the appended fragments and the lines
    written to the diagnostic stream. *)
Record Emitted := mkEmitted {
  frags : FragmentVector;
  stderr : list string
}.

Definition emit (l : FragmentVector) : Emitted := mkEmitted l [].
Definition Emitted_app (a b : Emitted) : Emitted :=
  mkEmitted (frags a ++ frags b) (stderr a ++ stderr b).

(** ** Triangle *)

Record Triangle := mkTriangle {
  tri_p0 : Vec3;
  tri_p1 : Vec3;
  tri_p2 : Vec3;
  tri_surfaceprop : option SurfaceProp
}.

Definition Triangle_getFragments (outerM : Mat4) (t : Triangle)
  : FragmentVector :=
  let f := mkFragment FR_TRIANGLE
             (project outerM (tri_p0 t)) (project outerM (tri_p1 t))
             (project outerM (tri_p2 t))
             (tri_surfaceprop t) None None 0%float 0 in
  [f].

(** ** PolyLine *)

Record PolyLine := mkPolyLine {
  pl_points : list Vec3;
  pl_lineprop : option LineProp
}.

(** Three parallel coordinate arrays, truncated to the shortest. *)
Fixpoint zip3 (x y z : ValVector) : list Vec3 :=
  match x, y, z with
  | a :: x', b :: y', c :: z' => mkVec3 a b c :: zip3 x' y' z'
  | _, _, _ => []
  end.

Definition PolyLine_addPoints (p : PolyLine) (x y z : ValVector) : PolyLine :=
  mkPolyLine (pl_points p ++ zip3 x y z) (pl_lineprop p).

(** The loop of [PolyLine::getFragments] from counter [i] on: [f] carries
    the previous projected point in [points0]. *)
Fixpoint PolyLine_loop (outerM : Mat4) (pts : list Vec3) (i : nat)
  (f : Fragment) : FragmentVector :=
  match pts with
  | [] => []
  | p :: rest =>
      let f := set_points1 f (points0 f) in
      let f := set_points0 f (project outerM p) in
      let f := set_index f (Z.of_nat i) in
      (if (0 <? i)%nat && Vec3_isfinite (Vec3_add (points0 f) (points1 f))
       then [f] else [])
      ++ PolyLine_loop outerM rest (S i) f
  end.

Definition PolyLine_getFragments (outerM : Mat4) (p : PolyLine)
  : FragmentVector :=
  let f := mkFragment FR_LINESEG Vec3_zero Vec3_zero Vec3_zero
             None (pl_lineprop p) None 0%float 0 in
  PolyLine_loop outerM (pl_points p) 0 f.

(** ** LineSegments *)

Record LineSegments := mkLineSegments {
  ls_points : list Vec3;
  ls_lineprop : option LineProp
}.

Fixpoint zip_pairs (a b : list Vec3) : list Vec3 :=
  match a, b with
  | p :: a', q :: b' => p :: q :: zip_pairs a' b'
  | _, _ => []
  end.

(** The constructor from six coordinate arrays. *)
Definition LineSegments_new (x1 y1 z1 x2 y2 z2 : ValVector)
  (prop : option LineProp) : LineSegments :=
  mkLineSegments (zip_pairs (zip3 x1 y1 z1) (zip3 x2 y2 z2)) prop.

(** The loop [for (i = 0; i < size; i += 3)] of the packed-triple
    constructor, from counter [i] on; [fuel] bounds the number of rounds
    ([size] rounds are always enough). *)
Fixpoint packed_loop (fuel : nat) (pts1 pts2 : ValVector) (size i : Z)
  (points : list Vec3) : option (list Vec3) :=
  match fuel with
  | O => Some points
  | S fuel' =>
      if i <? size then
        a0 <- vget pts1 i ;; a1 <- vget pts1 (i + 1) ;;
        a2 <- vget pts1 (i + 2) ;;
        b0 <- vget pts2 i ;; b1 <- vget pts2 (i + 1) ;;
        b2 <- vget pts2 (i + 2) ;;
        packed_loop fuel' pts1 pts2 size (i + 3)
                    (points ++ [mkVec3 a0 a1 a2; mkVec3 b0 b1 b2])
      else Some points
  end.

(** The constructor from two flattened packed-triple arrays; [None] when it
    reads past the end of an array. *)
Definition LineSegments_new_packed (pts1 pts2 : ValVector)
  (prop : option LineProp) : option LineSegments :=
  let size := Nat.min (length pts1) (length pts2) in
  points <- packed_loop (S size) pts1 pts2 (Z.of_nat size) 0 [] ;;
  Some (mkLineSegments points prop).

(** The loop [for (i = 0; i < s; i += 2)] of [LineSegments::getFragments]. *)
Fixpoint LineSegments_loop (outerM : Mat4) (pts : list Vec3) (i : Z)
  (f : Fragment) : option FragmentVector :=
  match pts with
  | [] => Some []
  | [_] => None
  | p :: q :: rest =>
      let f := set_points0 f (project outerM p) in
      let f := set_points1 f (project outerM q) in
      let f := set_index f i in
      out <- LineSegments_loop outerM rest (i + 2) f ;;
      Some (f :: out)
  end.

Definition LineSegments_getFragments (outerM : Mat4) (l : LineSegments)
  : option FragmentVector :=
  let f := mkFragment FR_LINESEG Vec3_zero Vec3_zero Vec3_zero
             None (ls_lineprop l) None 0%float 0 in
  LineSegments_loop outerM (ls_points l) 0 f.

(** ** Mesh *)

Inductive Direction := X_DIRN | Y_DIRN | Z_DIRN.

Record Mesh := mkMesh {
  pos1 : ValVector;
  pos2 : ValVector;
  heights : ValVector;
  dirn : Direction;
  mesh_lineprop : option LineProp;
  mesh_surfaceprop : option SurfaceProp
}.

(** Indices into a vector for the height, pos1 and pos2 directions:
    [(vidx_h, vidx_1, vidx_2)]. *)
Definition getVecIdxs (d : Direction) : nat * nat * nat :=
  match d with
  | X_DIRN => (0, 1, 2)
  | Y_DIRN => (1, 2, 0)
  | Z_DIRN => (2, 0, 1)
  end%nat.

(** The innermost loop of [Mesh::getLineFragments]: one walk along
    [vec_step] at the fixed position [consti].  The state is the running
    point [pt] and the fragment [fl] (previous point, running index). *)
Definition Mesh_line_step (outerM : Mat4) (m : Mesh) (vidx_h vidx_step : nat)
  (stepindex : nat) (n2 consti : Z) (step : Z * double)
  (st : Vec4 * Fragment) : option (Vec4 * Fragment * FragmentVector) :=
  let '(stepi, vstep) := step in
  let '(pt, fl) := st in
  heightsval <- vget (heights m)
                  (if (stepindex =? 0)%nat then stepi * n2 + consti
                   else consti * n2 + stepi) ;;
  let pt := Vec4_set pt vidx_step vstep in
  let pt := Vec4_set pt vidx_h heightsval in
  let fl := set_points1 fl (points0 fl) in
  let fl := set_points0 fl (vec4to3 (Mat4_mul_vec outerM pt)) in
  let pushed :=
    if (0 <? stepi) && Vec3_isfinite (Vec3_add (points0 fl) (points1 fl))
    then [fl] else [] in
  Some (pt, set_index fl (index fl + 1), pushed).

Definition Mesh_line_walk (outerM : Mat4) (m : Mesh) (vidx_h vidx_step : nat)
  (stepindex : nat) (n2 consti : Z) (vec_step : ValVector)
  (st : Vec4 * Fragment) : option (Vec4 * Fragment * FragmentVector) :=
  loopM (Mesh_line_step outerM m vidx_h vidx_step stepindex n2 consti)
        (indexed vec_step) st.

Definition Mesh_getLineFragments (outerM : Mat4) (m : Mesh)
  : option FragmentVector :=
  match mesh_lineprop m with
  | None => Some []
  | Some _ =>
      let '(vidx_h, vidx_1, vidx_2) := getVecIdxs (dirn m) in
      let fl := mkFragment FR_LINESEG Vec3_zero Vec3_zero Vec3_zero
                  None (mesh_lineprop m) None 0%float 0 in
      let n2 := Z.of_nat (length (pos2 m)) in
      let pt := Vec4_origin in
      r <- loopM (fun (stepindex : nat) st =>
             let vec_step := if (stepindex =? 0)%nat then pos1 m else pos2 m in
             let vec_const := if (stepindex =? 0)%nat then pos2 m else pos1 m in
             let vidx_step := if (stepindex =? 0)%nat then vidx_1 else vidx_2 in
             let vidx_const := if (stepindex =? 0)%nat then vidx_2 else vidx_1 in
             loopM (fun (c : Z * double) (st : Vec4 * Fragment) =>
                      let '(consti, vconst) := c in
                      let '(pt, fl) := st in
                      Mesh_line_walk outerM m vidx_h vidx_step stepindex n2
                        consti vec_step (Vec4_set pt vidx_const vconst, fl))
                   (indexed vec_const) st)
           [0; 1]%nat (pt, fl) ;;
      Some (snd r)
  end.

(** The two diagonal splits of a cell: [tidxs[parity][tri]]. *)
Definition tidxs (parity tri : nat) : nat * nat * nat :=
  match parity, tri with
  | 0, 0 => (0, 1, 2)
  | 0, _ => (3, 1, 2)
  | _, 0 => (1, 0, 3)
  | _, _ => (2, 0, 3)
  end%nat.

(** The corner loop [for (i = 0; i < 4; ++i)] of one cell: it rewrites
    [p[i]] in place and projects it. *)
Definition Mesh_corner (outerM : Mat4) (m : Mesh) (vidx : nat * nat * nat)
  (n2 i1 i2 : Z) (i : nat) (st : list Vec4 * list Vec3)
  : option (list Vec4 * list Vec3 * list Fragment) :=
  let '(vidx_h, vidx_1, vidx_2) := vidx in
  let '(p, pproj) := st in
  let j1 := i1 + Z.of_nat (i mod 2) in
  let j2 := i2 + Z.of_nat (i / 2) in
  h <- vget (heights m) (j1 * n2 + j2) ;;
  x1 <- vget (pos1 m) j1 ;;
  x2 <- vget (pos2 m) j2 ;;
  let pi := nth i p Vec4_zero in
  let pi := Vec4_set pi vidx_h h in
  let pi := Vec4_set pi vidx_1 x1 in
  let pi := Vec4_set pi vidx_2 x2 in
  Some (set_nth p i pi, set_nth pproj i (vec4to3 (Mat4_mul_vec outerM pi)), []).

(** The triangle loop [for (tri = 0; tri < 2; ++tri)] of one cell. *)
Definition Mesh_cell_triangle (p : list Vec4) (pproj : list Vec3)
  (i1 i2 : Z) (tri : nat) (fs : Fragment)
  : option (Fragment * FragmentVector) :=
  let '(a, b, c) := tidxs (Z.to_nat ((i1 + i2) mod 2)) tri in
  let P k := nth k p Vec4_zero in
  let Q k := nth k pproj Vec3_zero in
  if Vec4_isfinite (Vec4_add (Vec4_add (P a) (P b)) (P c)) then
    let fs := set_points0 fs (Q a) in
    let fs := set_points1 fs (Q b) in
    let fs := set_points2 fs (Q c) in
    Some (fs, [fs])
  else Some (fs, []).

(** The body of the cell loops of [Mesh::getSurfaceFragments]. *)
Definition Mesh_cell (outerM : Mat4) (m : Mesh) (vidx : nat * nat * nat)
  (n2 i1 i2 : Z) (st : list Vec4 * Fragment)
  : option (list Vec4 * Fragment * FragmentVector) :=
  let '(p, fs) := st in
  r <- loopM (Mesh_corner outerM m vidx n2 i1 i2) [0; 1; 2; 3]%nat
         (p, repeat Vec3_zero 4) ;;
  let '(p, pproj) := fst r in
  r' <- loopM (Mesh_cell_triangle p pproj i1 i2) [0; 1]%nat fs ;;
  let fs := fst r' in
  Some (p, set_index fs (index fs + 1), snd r').

Definition Mesh_getSurfaceFragments (outerM : Mat4) (m : Mesh)
  : option FragmentVector :=
  match mesh_surfaceprop m with
  | None => Some []
  | Some _ =>
      let fs := mkFragment FR_TRIANGLE Vec3_zero Vec3_zero Vec3_zero
                  (mesh_surfaceprop m) None None 0%float 0 in
      let n1 := Z.of_nat (length (pos1 m)) in
      let n2 := Z.of_nat (length (pos2 m)) in
      let p := repeat Vec4_origin 4 in
      r <- loopM (fun i1 st =>
             loopM (fun i2 st =>
                      Mesh_cell outerM m (getVecIdxs (dirn m)) n2 i1 i2 st)
                   (upto (n2 - 1)) st)
           (upto (n1 - 1)) (p, fs) ;;
      Some (snd r)
  end.

Definition Mesh_getFragments (outerM : Mat4) (m : Mesh)
  : option FragmentVector :=
  l <- Mesh_getLineFragments outerM m ;;
  s <- Mesh_getSurfaceFragments outerM m ;;
  Some (l ++ s).

(** ** DataMesh *)

Module DataMeshHelpers.
Local Open Scope float_scope.

(** One step [if (std::isfinite(x)) { tot += x; ++ct; }]. *)
Definition accumulate (x : double) (s : double * nat) : double * nat :=
  if d_isfinite x then (fst s + x, S (snd s)) else s.

(** average ignoring nan values *)
Definition average4 (a b c d : double) : double :=
  let s := accumulate d (accumulate c (accumulate b (accumulate a (0, O)))) in
  fst s / double_of_nat (snd s).

Definition average2 (a b : double) : double :=
  let s := accumulate b (accumulate a (0, O)) in
  fst s / double_of_nat (snd s).

Definition midpoint (a b : double) : double := 0.5 * (a + b).

End DataMeshHelpers.
Import DataMeshHelpers.

Definition int_add (a b : Z) : Z := wrap_int (a + b).
Definition int_sub (a b : Z) : Z := wrap_int (a - b).
Definition int_mul (a b : Z) : Z := wrap_int (a * b).

Definition MAXLINEIDX : Z := 4.

(** Keeps track of which lines are drawn in the grid: a grid point for
    each edge and a line index (0-3).  All its arithmetic is [unsigned]. *)
Record LineCellTracker := mkLineCellTracker {
  lct_n1 : Z;
  lct_n2 : Z;
  lct_data : list bool
}.

Definition LineCellTracker_new (_n1 _n2 : Z) : LineCellTracker :=
  mkLineCellTracker _n1 _n2
    (repeat false (Z.to_nat (wrap_unsigned (_n1 * _n2 * MAXLINEIDX)))).

(** [(i1*n2+i2)*MAXLINEIDX+lineidx]; reduction modulo 2^32 commutes with
    the sums and products, so it is written once. *)
Definition LineCellTracker_index (t : LineCellTracker) (i1 i2 lineidx : Z)
  : Z :=
  wrap_unsigned ((i1 * lct_n2 t + i2) * MAXLINEIDX + lineidx).

Definition setLine (t : LineCellTracker) (i1 i2 lineidx : Z)
  : option LineCellTracker :=
  let k := LineCellTracker_index t i1 i2 lineidx in
  if k <? Z.of_nat (length (lct_data t)) then
    Some (mkLineCellTracker (lct_n1 t) (lct_n2 t)
            (set_nth (lct_data t) (Z.to_nat k) true))
  else None.

Definition isLineSet (t : LineCellTracker) (i1 i2 lineidx : Z)
  : option bool :=
  vget (lct_data t) (LineCellTracker_index t i1 i2 lineidx).

Record DataMesh := mkDataMesh {
  edges1 : ValVector;
  edges2 : ValVector;
  vals : ValVector;
  idxval : nat;
  idxedge1 : nat;
  idxedge2 : nat;
  highres : bool;
  dm_lineprop : option LineProp;
  dm_surfaceprop : option SurfaceProp
}.

Definition nl : string := String (ascii_of_nat 10) EmptyString.
Definition msg_invalid_indices : string := "DataMesh: invalid indices" ++ nl.
Definition msg_invalid_size : string := "DataMesh: invalid size" ++ nl.

(** The check of the role indices: [found[idxs[i]] = 1] for every index
    that is at most 2, then all three entries of [found] must be set. *)
Definition check_indices (idxs : list nat) : bool :=
  let found :=
    fold_left (fun found ix =>
                 if (ix <=? 2)%nat then set_nth found ix true else found)
              idxs [false; false; false] in
  nth 0 found false && nth 1 found false && nth 2 found false.

(** [(int(edges1.size())-1)*(int(edges2.size())-1) == int(vals.size())] *)
Definition check_sizes (dm : DataMesh) : bool :=
  int_mul (int_sub (int_of_size (length (edges1 dm))) 1)
          (int_sub (int_of_size (length (edges2 dm))) 1)
  =? int_of_size (length (vals dm)).

(** The corner indices used for drawing low and high resolution
    surfaces, and the two alternating low resolution lists. *)
Definition trilist_highres : list (nat * nat * nat) :=
  [(8,0,1); (8,1,2); (8,2,3); (8,3,4); (8,4,5); (8,5,6); (8,6,7); (8,7,0)]%nat.
Definition trilist_lowres1 : list (nat * nat * nat) := [(0,2,4); (0,6,4)]%nat.
Definition trilist_lowres2 : list (nat * nat * nat) := [(2,0,6); (2,4,6)]%nat.
Definition linelist_lowres : list (nat * nat) :=
  [(0,2); (0,6); (4,2); (4,6)]%nat.
Definition linelist_highres : list (nat * nat) :=
  [(0,1); (1,2); (2,3); (3,4); (4,5); (5,6); (6,7); (7,0)]%nat.

(** xidx, yidx, lineidx of each line, to avoid double-drawing. *)
Definition linecell_lowres : list (Z * Z * Z) :=
  [(0,0,0); (0,0,1); (0,1,0); (1,0,1)].
Definition linecell_highres : list (Z * Z * Z) :=
  [(0,0,0); (0,0,1); (1,0,2); (1,0,3); (0,1,1); (0,1,0); (0,0,3); (0,0,2)].

Definition lines_of (hr : bool) : list (nat * nat) :=
  if hr then linelist_highres else linelist_lowres.
Definition linecells_of (hr : bool) : list (Z * Z * Z) :=
  if hr then linecell_highres else linecell_lowres.
Definition ntris_of (hr : bool) : nat := if hr then 8%nat else 2%nat.
Definition nlines_of (hr : bool) : nat := if hr then 8%nat else 4%nat.

Definition clip (x hi : Z) : Z := Z.max (Z.min x hi) 0.

Fixpoint mapM {A B} (f : A -> option B) (l : list A) : option (list B) :=
  match l with
  | [] => Some []
  | a :: l' => b <- f a ;; bs <- mapM f l' ;; Some (b :: bs)
  end.

(** Values of the neighbouring cells (clipping at the edges), in the order
    -1,-1 -1,0 -1,1   0,-1 0,0 0,1   1,-1 1,0 1,1. *)
Definition DataMesh_neigh (dm : DataMesh) (n1 n2 i1 i2 : Z)
  : option (list double) :=
  mapM (fun d : Z * Z =>
          let clip1 := clip (int_add i1 (fst d)) (int_sub n1 1) in
          let clip2 := clip (int_add i2 (snd d)) (int_sub n2 1) in
          vget (vals dm) (int_add (int_mul clip1 n2) clip2))
       [(-1,-1); (-1,0); (-1,1); (0,-1); (0,0); (0,1); (1,-1); (1,0); (1,1)].

(** [corners[k](idxs[0]) = h; corners[k](idxs[1]) = c1;
    corners[k](idxs[2]) = c2;] *)
Definition set_corner (idxs : nat * nat * nat) (corners : list Vec4)
  (k : nat) (h c1 c2 : double) : list Vec4 :=
  let '(ix0, ix1, ix2) := idxs in
  let c := nth k corners Vec4_zero in
  set_nth corners k (Vec4_set (Vec4_set (Vec4_set c ix0 h) ix1 c1) ix2 c2).

(** [neigh[k]] *)
Definition neigh_at (neigh : list double) (k : nat) : double :=
  nth k neigh 0%float.

(** The "corners" of a cell: the clockwise corners and edge centres from
    the top left, followed by the cell centre. *)
Definition DataMesh_corners (idxs : nat * nat * nat) (corners : list Vec4)
  (neigh : list double) (e1a e1b e2a e2b : double) : list Vec4 :=
  let c := set_corner idxs corners 0
             (average4 (neigh_at neigh 0) (neigh_at neigh 3)
                       (neigh_at neigh 4) (neigh_at neigh 1))
             e1a e2a in
  let c := set_corner idxs c 1
             (average2 (neigh_at neigh 4) (neigh_at neigh 3))
             (midpoint e1a e1b) e2a in
  let c := set_corner idxs c 2
             (average4 (neigh_at neigh 3) (neigh_at neigh 6)
                       (neigh_at neigh 7) (neigh_at neigh 4))
             e1b e2a in
  let c := set_corner idxs c 3
             (average2 (neigh_at neigh 4) (neigh_at neigh 7))
             e1b (midpoint e2a e2b) in
  let c := set_corner idxs c 4
             (average4 (neigh_at neigh 4) (neigh_at neigh 7)
                       (neigh_at neigh 8) (neigh_at neigh 5))
             e1b e2b in
  let c := set_corner idxs c 5
             (average2 (neigh_at neigh 4) (neigh_at neigh 5))
             (midpoint e1a e1b) e2b in
  let c := set_corner idxs c 6
             (average4 (neigh_at neigh 1) (neigh_at neigh 4)
                       (neigh_at neigh 5) (neigh_at neigh 2))
             e1a e2b in
  let c := set_corner idxs c 7
             (average2 (neigh_at neigh 4) (neigh_at neigh 1))
             e1a (midpoint e2a e2b) in
  set_corner idxs c 8 (neigh_at neigh 4) (midpoint e1a e1b) (midpoint e2a e2b).

Definition DataMesh_triangles (dm : DataMesh) (corners3 : list Vec3)
  (i1 i2 : Z) (ft : Fragment) : FragmentVector :=
  let tris :=
    if highres dm then trilist_highres
    else if (i1 + i2) mod 2 =? 0 then trilist_lowres1 else trilist_lowres2 in
  let C k := nth k corners3 Vec3_zero in
  map (fun t : nat * nat * nat =>
         let '(a, b, c) := t in
         set_points2 (set_points1 (set_points0 ft (C a)) (C b)) (C c))
      (firstn (ntris_of (highres dm)) tris).

(** One round of the line loop of a cell: the line [i] is drawn if it
    has not been drawn before, and marked as drawn. *)
Definition DataMesh_line (dm : DataMesh) (corners3 : list Vec3) (i1 i2 : Z)
  (fl : Fragment) (i : nat) (linetracker : LineCellTracker)
  : option (LineCellTracker * FragmentVector) :=
  let '(xidx, yidx, lineidx) := nth i (linecells_of (highres dm)) (0, 0, 0) in
  let '(a, b) := nth i (lines_of (highres dm)) (0, 0)%nat in
  let k1 := wrap_unsigned (i1 + xidx) in
  let k2 := wrap_unsigned (i2 + yidx) in
  drawn <- isLineSet linetracker k1 k2 lineidx ;;
  if drawn then Some (linetracker, [])
  else
    let fl := set_points0 fl (nth a corners3 Vec3_zero) in
    let fl := set_points1 fl (nth b corners3 Vec3_zero) in
    let pushed :=
      if Vec3_isfinite (points0 fl) && Vec3_isfinite (points1 fl)
      then [fl] else [] in
    linetracker <- setLine linetracker k1 k2 lineidx ;;
    Some (linetracker, pushed).

(** The projected corners of the cell [(i1, i2)], from the corner array
    left by the previous cell. *)
Definition DataMesh_cell_corners (dm : DataMesh) (n1 n2 i1 i2 : Z)
  (corners : list Vec4) : option (list Vec4) :=
  let idxs := (idxval dm, idxedge1 dm, idxedge2 dm) in
  neigh <- DataMesh_neigh dm n1 n2 i1 i2 ;;
  e1a <- vget (edges1 dm) i1 ;;
  e1b <- vget (edges1 dm) (int_add i1 1) ;;
  e2a <- vget (edges2 dm) i2 ;;
  e2b <- vget (edges2 dm) (int_add i2 1) ;;
  Some (DataMesh_corners idxs corners neigh e1a e1b e2a e2b).

(** The body of the loop over the 2d array.  [ft] and [fl] are the two
    fragments set up before the loop; the fields the body writes are
    written again before every push. *)
Definition DataMesh_cell (outerM : Mat4) (dm : DataMesh) (ft fl : Fragment)
  (n1 n2 i1 i2 : Z) (st : list Vec4 * LineCellTracker)
  : option (list Vec4 * LineCellTracker * FragmentVector) :=
  let '(corners, linetracker) := st in
  v <- vget (vals dm) (int_add (int_mul i1 n2) i2) ;;
  if negb (d_isfinite v) then Some (st, [])
  else
    corners <- DataMesh_cell_corners dm n1 n2 i1 i2 corners ;;
    let corners3 := map (fun c => vec4to3 (Mat4_mul_vec outerM c)) corners in
    let cellidx := int_add (int_mul i1 n2) i2 in
    let tris :=
      match surfaceprop ft with
      | Some _ => DataMesh_triangles dm corners3 i1 i2 (set_index ft cellidx)
      | None => []
      end in
    r <- match lineprop fl with
         | Some _ =>
             loopM (DataMesh_line dm corners3 i1 i2 (set_index fl cellidx))
                   (seq 0 (nlines_of (highres dm))) linetracker
         | None => Some (linetracker, [])
         end ;;
    Some (corners, fst r, tris ++ snd r).

Definition DataMesh_getFragments (outerM : Mat4) (dm : DataMesh)
  : option Emitted :=
  if negb (check_indices [idxval dm; idxedge1 dm; idxedge2 dm]) then
    Some (mkEmitted [] [msg_invalid_indices])
  else if negb (check_sizes dm) then
    Some (mkEmitted [] [msg_invalid_size])
  else
    match dm_lineprop dm, dm_surfaceprop dm with
    | None, None => Some (emit [])
    | _, _ =>
        let ft := mkFragment FR_TRIANGLE Vec3_zero Vec3_zero Vec3_zero
                    (dm_surfaceprop dm) None None 0%float 0 in
        let fl := mkFragment FR_LINESEG Vec3_zero Vec3_zero Vec3_zero
                    None (dm_lineprop dm) None 0%float 0 in
        let corners := repeat Vec4_origin 9 in
        let linetracker :=
          LineCellTracker_new (unsigned_of_size (length (edges1 dm)))
                              (unsigned_of_size (length (edges2 dm))) in
        let n1 := int_sub (int_of_size (length (edges1 dm))) 1 in
        let n2 := int_sub (int_of_size (length (edges2 dm))) 1 in
        r <- loopM (fun i1 st =>
               loopM (fun i2 st => DataMesh_cell outerM dm ft fl n1 n2 i1 i2 st)
                     (upto n2) st)
             (upto n1) (corners, linetracker) ;;
        Some (emit (snd r))
    end.

(** ** Points *)

Record Points := mkPoints {
  pts_x : ValVector;
  pts_y : ValVector;
  pts_z : ValVector;
  pts_sizes : ValVector;
  pts_lineedge : option LineProp;
  pts_surfacefill : option SurfaceProp
}.

(** The loop of [Points::getFragments] from counter [i] on; the arrays are
    the parts not yet visited, and the loop ends with the shortest (the
    sizes only count when there are any: [hassizes]). *)
Fixpoint Points_loop (outerM : Mat4) (hassizes : bool)
  (x y z sizes : ValVector) (i : Z) (fp : Fragment) : FragmentVector :=
  match x, y, z with
  | a :: x', b :: y', c :: z' =>
      match hassizes, sizes with
      | true, [] => []
      | _, _ =>
          let fp := set_points0 fp (vec4to3 (Mat4_mul_vec outerM (Vec4_xyz a b c))) in
          let fp := match hassizes, sizes with
                    | true, s :: _ => set_pathsize fp s
                    | _, _ => fp
                    end in
          let fp := set_index fp i in
          (if Vec3_isfinite (points0 fp) then [fp] else [])
          ++ Points_loop outerM hassizes x' y' z' (tl sizes) (i + 1) fp
      end
  | _, _, _ => []
  end.

Definition Points_getFragments (outerM : Mat4) (p : Points) : FragmentVector :=
  let fp := mkFragment FR_PATH Vec3_zero Vec3_zero Vec3_zero
              (pts_surfacefill p) (pts_lineedge p) (Some PointsParams)
              1%float 0 in
  let hassizes := match pts_sizes p with [] => false | _ => true end in
  Points_loop outerM hassizes (pts_x p) (pts_y p) (pts_z p) (pts_sizes p) 0 fp.

(** ** Text *)

Record Text := mkText {
  text_pos1 : ValVector;
  text_pos2 : ValVector
}.

Definition Text_item (outerM : Mat4) (t : Text) (fp : Fragment) (i : Z)
  (st : unit) : option (unit * FragmentVector) :=
  let base := i * 3 in
  a0 <- vget (text_pos1 t) base ;;
  a1 <- vget (text_pos1 t) (base + 1) ;;
  a2 <- vget (text_pos1 t) (base + 2) ;;
  b0 <- vget (text_pos2 t) base ;;
  b1 <- vget (text_pos2 t) (base + 1) ;;
  b2 <- vget (text_pos2 t) (base + 2) ;;
  let fp := set_points0 fp (vec4to3 (Mat4_mul_vec outerM (Vec4_xyz a0 a1 a2))) in
  let fp := set_points1 fp (vec4to3 (Mat4_mul_vec outerM (Vec4_xyz b0 b1 b2))) in
  Some (tt, [set_index fp i]).

Definition Text_getFragments (outerM : Mat4) (t : Text)
  : option FragmentVector :=
  let fp := mkFragment FR_PATH Vec3_zero Vec3_zero Vec3_zero
              None None (Some TextParams) 1%float 0 in
  let numitems :=
    Z.of_nat (Nat.min (length (text_pos1 t)) (length (text_pos2 t))) / 3 in
  r <- loopM (Text_item outerM t fp) (upto numitems) tt ;;
  Some (snd r).

(** ** TriangleFacing *)

(** [a > b] on doubles. *)
Definition d_gt (a b : double) : bool := PrimFloat.ltb b a.
(** [a <= b] on doubles. *)
Definition d_le (a b : double) : bool := PrimFloat.leb a b.

(** The facing test shared by [TriangleFacing] and [FacingContainer]:
    the transformed normal points towards +z. *)
Definition facing (outerM : Mat4) (norm : Vec3) : bool :=
  let origin := vec4to3 (Mat4_mul_vec outerM Vec4_origin) in
  let tnorm := vec4to3 (Mat4_mul_vec outerM (vec3to4 norm)) in
  d_gt (v3z tnorm) (v3z origin).

Definition Triangle_norm (t : Triangle) : Vec3 :=
  cross (Vec3_sub (tri_p1 t) (tri_p0 t)) (Vec3_sub (tri_p2 t) (tri_p0 t)).

Definition TriangleFacing_getFragments (outerM : Mat4) (t : Triangle)
  : FragmentVector :=
  if facing outerM (Triangle_norm t) then Triangle_getFragments outerM t
  else [].

(** ** AxisTickLabels *)

Inductive ISect := LINE_NOOVERLAP | LINE_CROSS | LINE_OVERLAP.

Record AxisTickLabels := mkAxisTickLabels {
  box1 : Vec3;
  box2 : Vec3;
  tickfracs : ValVector;
  starts : list Vec3;
  ends : list Vec3
}.

Definition addAxisChoice (a : AxisTickLabels) (_start _end : Vec3)
  : AxisTickLabels :=
  mkAxisTickLabels (box1 a) (box2 a) (tickfracs a)
                   (starts a ++ [_start]) (ends a ++ [_end]).

(** Point indices for the faces of the cube. *)
Definition faces : list (list nat) :=
  [[0;1;3;2]; [4;5;7;6]; [0;1;5;4]; [2;3;7;6]; [0;4;6;2]; [1;5;7;3]]%nat.

Definition Vec2_zero : Vec2 := mkVec2 0%float 0%float.

(** The score of an axis whose projected ends are [s] and [e], against
    the centre [(centx, centy, centz)]. *)
Definition axis_score (centx centy centz : double) (s e : Vec3) : Z :=
  let avx := (0.5 * (v3x s + v3x e))%float in
  let avy := (0.5 * (v3y s + v3y e))%float in
  let avz := (0.5 * (v3z s + v3z e))%float in
  Z.b2z (d_le avx centx) * 10 + Z.b2z (d_gt avy centy) * 11
  + Z.b2z (d_gt avz centz) * 12.

(** The scan for the best axis: [(bestscore, bestaxis)] after the choices
    [l], a choice replacing the best only on a strictly greater score. *)
Definition best_axis_step (score : nat -> Z) (best : Z * nat) (choice : nat)
  : Z * nat :=
  if fst best <? score choice then (score choice, choice) else best.

Definition best_axis (score : nat -> Z) (axchoices : list nat) : Z * nat :=
  fold_left (best_axis_step score) axchoices (-1, 0%nat).

Section WithLineIntersect.

(** The 2D segment intersection test of [twod.h], an external helper that
    is not under src/: the objects below are read for any such test. *)
Variable twodLineIntersect : Vec2 -> Vec2 -> Vec2 -> Vec2 -> ISect.

(** does the line overlap with the face in 2d? *)
Definition faceOverlap (linepts : Vec2 * Vec2) (facepts : list Vec2) : bool :=
  existsb (fun edge =>
             match twodLineIntersect (fst linepts) (snd linepts)
                     (nth edge facepts Vec2_zero)
                     (nth ((edge + 1) mod 4) facepts Vec2_zero) with
             | LINE_CROSS => true
             | _ => false
             end)
          [0; 1; 2; 3]%nat.

(** Corners of the cube in scene coordinates, in the order
    (0,0,0),(0,0,1),(0,1,0),(0,1,1),(1,0,0),(1,0,1),(1,1,0),(1,1,1). *)
Definition scenecorners_of (outerM : Mat4) (a : AxisTickLabels) : list Vec3 :=
  let boxpts (i : bool) := if i then box2 a else box1 a in
  map (fun c : bool * bool * bool =>
         let '(i0, i1, i2) := c in
         project outerM
           (mkVec3 (v3x (boxpts i0)) (v3y (boxpts i1)) (v3z (boxpts i2))))
      [(false,false,false); (false,false,true); (false,true,false);
       (false,true,true); (true,false,false); (true,false,true);
       (true,true,false); (true,true,true)].

Definition numentries_of (a : AxisTickLabels) : nat :=
  Nat.min (length (starts a)) (length (ends a)).

(** Scene coordinates of the axis ends. *)
Definition pt_starts_of (outerM : Mat4) (a : AxisTickLabels) : list Vec3 :=
  map (project outerM) (firstn (numentries_of a) (starts a)).
Definition pt_ends_of (outerM : Mat4) (a : AxisTickLabels) : list Vec3 :=
  map (project outerM) (firstn (numentries_of a) (ends a)).

(** does this axis overlap with any faces? *)
Definition axis_overlaps (outerM : Mat4) (a : AxisTickLabels) (axis : nat)
  : bool :=
  let scenecorners := scenecorners_of outerM a in
  let linepts := (vec3to2 (nth axis (pt_starts_of outerM a) Vec3_zero),
                  vec3to2 (nth axis (pt_ends_of outerM a) Vec3_zero)) in
  existsb (fun face : list nat =>
             faceOverlap linepts
               (map (fun k => vec3to2 (nth k scenecorners Vec3_zero)) face))
          faces.

(** The axes which don't overlap with faces in 2D. *)
Definition nonoverlapping (outerM : Mat4) (a : AxisTickLabels) : list nat :=
  filter (fun axis => negb (axis_overlaps outerM a axis))
         (seq 0 (numentries_of a)).

(** if none are suitable, prefer all *)
Definition axchoices_of (outerM : Mat4) (a : AxisTickLabels) : list nat :=
  match nonoverlapping outerM a with
  | [] => seq 0 (numentries_of a)
  | l => l
  end.

(** approx centre of cube by averaging corners *)
Definition cube_centre (scenecorners : list Vec3) : double * double * double :=
  let '(cx, cy, cz) :=
    fold_left (fun (c : double * double * double) (p : Vec3) =>
                 let '(cx, cy, cz) := c in
                 (cx + v3x p, cy + v3y p, cz + v3z p)%float)
              scenecorners (0, 0, 0)%float in
  (cx * (1 / 8), cy * (1 / 8), cz * (1 / 8))%float.

Definition axis_score_of (outerM : Mat4) (a : AxisTickLabels) (axis : nat)
  : Z :=
  let '(centx, centy, centz) := cube_centre (scenecorners_of outerM a) in
  axis_score centx centy centz
    (nth axis (pt_starts_of outerM a) Vec3_zero)
    (nth axis (pt_ends_of outerM a) Vec3_zero).

Definition bestaxis_of (outerM : Mat4) (a : AxisTickLabels) : nat :=
  snd (best_axis (axis_score_of outerM a) (axchoices_of outerM a)).

(** The fragment of the tick [i] at fraction [frac] on the axis from
    [axstart] along [delta]. *)
Definition tick_fragment (outerM : Mat4) (axstart delta : Vec3)
  (t : Z * double) : Fragment :=
  let '(i, frac) := t in
  let p1 := Vec3_add axstart (Vec3_scale delta frac) in
  let p2 := Vec3_add axstart
              (Vec3_scale delta (frac + 0x1.0624dd2f1a9fcp-10)%float) in
  mkFragment FR_PATH (project outerM p1) (project outerM p2) Vec3_zero
             None None (Some TickLabelParams) 1%float i.

Definition AxisTickLabels_getFragments (outerM : Mat4) (a : AxisTickLabels)
  : FragmentVector :=
  if (numentries_of a =? 0)%nat then []
  else
    let bestaxis := bestaxis_of outerM a in
    let axstart := nth bestaxis (starts a) Vec3_zero in
    let delta := Vec3_sub (nth bestaxis (ends a) Vec3_zero) axstart in
    map (tick_fragment outerM axstart delta) (indexed (tickfracs a)).

(** ** The object hierarchy *)

#[warnings="-register-all"]
Inductive Object :=
| BaseObject
| TriangleObject (t : Triangle)
| PolyLineObject (p : PolyLine)
| LineSegmentsObject (l : LineSegments)
| MeshObject (m : Mesh)
| DataMeshObject (d : DataMesh)
| PointsObject (p : Points)
| TextObject (t : Text)
| TriangleFacingObject (t : Triangle)
| ObjectContainer (objM : Mat4) (objects : list Object)
| FacingContainer (norm : Vec3) (objM : Mat4) (objects : list Object)
| AxisTickLabelsObject (a : AxisTickLabels).

(** The children of a container, each decomposed by [rec], in order. *)
Definition children_getFragments (rec : Object -> option Emitted)
  : list Object -> option Emitted :=
  fix go (objects : list Object) : option Emitted :=
    match objects with
    | [] => Some (emit [])
    | o :: rest =>
        a <- rec o ;; b <- go rest ;; Some (Emitted_app a b)
    end.

Definition lift (v : option FragmentVector) : option Emitted :=
  option_map emit v.

(** The virtual [getFragments]: what the object appends to the fragment
    vector under the transform [outerM]. *)
Fixpoint getFragments (outerM : Mat4) (o : Object) : option Emitted :=
  match o with
  | BaseObject => Some (emit [])
  | TriangleObject t => Some (emit (Triangle_getFragments outerM t))
  | PolyLineObject p => Some (emit (PolyLine_getFragments outerM p))
  | LineSegmentsObject l => lift (LineSegments_getFragments outerM l)
  | MeshObject m => lift (Mesh_getFragments outerM m)
  | DataMeshObject d => DataMesh_getFragments outerM d
  | PointsObject p => Some (emit (Points_getFragments outerM p))
  | TextObject t => lift (Text_getFragments outerM t)
  | TriangleFacingObject t =>
      Some (emit (TriangleFacing_getFragments outerM t))
  | ObjectContainer objM objects =>
      children_getFragments (getFragments (Mat4_mul outerM objM)) objects
  | FacingContainer norm objM objects =>
      if facing outerM norm then
        children_getFragments (getFragments (Mat4_mul outerM objM)) objects
      else Some (emit [])
  | AxisTickLabelsObject a =>
      Some (emit (AxisTickLabels_getFragments outerM a))
  end.

(** The fragment vector [v] after the call. *)
Definition getFragments_into (outerM : Mat4) (o : Object) (v : FragmentVector)
  : option FragmentVector :=
  r <- getFragments outerM o ;; Some (v ++ frags r).

End WithLineIntersect.

(** * Specification vocabulary *)

(** The predicates, closed forms and concrete scenes that the statements
    below are written with, grouped as the statements are. *)

(** ** Vocabulary: Finiteness of doubles *)

Definition sf_finite (s : spec_float) : bool :=
  match s with
  | S754_zero _ | S754_finite _ _ _ => true
  | _ => false
  end.

(** ** Vocabulary: Validation of a DataMesh *)

(** The three role indices cover 0, 1 and 2 exactly once each. *)
Definition covers_012 (idxs : list nat) : Prop :=
  forall k : nat, (k <= 2)%nat -> count_occ Nat.eq_dec idxs k = 1%nat.

(** The array lengths, and the number of cells, are representable in the
    32-bit [int] in which the size check is computed. *)
Definition sizes_fit_int (dm : DataMesh) : Prop :=
  Z.of_nat (length (edges1 dm)) <= INT_MAX
  /\ Z.of_nat (length (edges2 dm)) <= INT_MAX
  /\ Z.of_nat (length (vals dm)) <= INT_MAX
  /\ (Z.of_nat (length (edges1 dm)) - 1) * (Z.of_nat (length (edges2 dm)) - 1)
     <= INT_MAX.

(** ** Vocabulary: AxisTickLabels: the choice of the axis *)

Module TwoD.
Local Open Scope float_scope.

(** Which side of the line through [a] and [b] the point [c] lies on. *)
Definition side (a b c : Vec2) : double :=
  (v2x b - v2x a) * (v2y c - v2y a) - (v2y b - v2y a) * (v2x c - v2x a).

Definition opposite (s t : double) : bool :=
  ((s <? 0) && (0 <? t)) || ((t <? 0) && (0 <? s)).

Definition within (lo hi x : double) : bool :=
  ((lo <=? x) && (x <=? hi)) || ((hi <=? x) && (x <=? lo)).

(** Modelled from the spec: [twodLineIntersect] of [twod.h] is not under
    src/.  The spec asks for a segment-against-segment test that reports a
    crossing only when the segments strictly cross, not when they touch;
    this is the orientation test for it, with collinear segments that share
    a point reported as overlapping.  It only serves to run the objects on
    concrete scenes. *)
Definition twodLineIntersect (p1 p2 q1 q2 : Vec2) : ISect :=
  let d1 := side q1 q2 p1 in
  let d2 := side q1 q2 p2 in
  let d3 := side p1 p2 q1 in
  let d4 := side p1 p2 q2 in
  if opposite d1 d2 && opposite d3 d4 then LINE_CROSS
  else if (d1 =? 0) && (d2 =? 0) && (d3 =? 0) && (d4 =? 0)
          && (within (v2x p1) (v2x p2) (v2x q1)
              || within (v2x p1) (v2x p2) (v2x q2)
              || within (v2x q1) (v2x q2) (v2x p1))
          && (within (v2y p1) (v2y p2) (v2y q1)
              || within (v2y p1) (v2y p2) (v2y q2)
              || within (v2y q1) (v2y q2) (v2y p1))
       then LINE_OVERLAP
       else LINE_NOOVERLAP.

End TwoD.

(** The three criteria of an axis: its projected midpoint lies left of
    ([<=]), below ([>], the y axis pointing down) and in front of ([>]) the
    centre of the projected cube. *)
Definition axis_criteria (outerM : Mat4) (a : AxisTickLabels) (axis : nat)
  : bool * bool * bool :=
  let '(centx, centy, centz) := cube_centre (scenecorners_of outerM a) in
  let s := nth axis (pt_starts_of outerM a) Vec3_zero in
  let e := nth axis (pt_ends_of outerM a) Vec3_zero in
  (d_le (0.5 * (v3x s + v3x e))%float centx,
   d_gt (0.5 * (v3y s + v3y e))%float centy,
   d_gt (0.5 * (v3z s + v3z e))%float centz).

(** The weights of the score: 10 for left, 11 for bottom, 12 for front. *)
Definition criteria_weight (c : bool * bool * bool) : Z :=
  let '(isleft, isbottom, isfront) := c in
  Z.b2z isleft * 10 + Z.b2z isbottom * 11 + Z.b2z isfront * 12.

Definition criteria_count (c : bool * bool * bool) : Z :=
  let '(isleft, isbottom, isfront) := c in
  Z.b2z isleft + Z.b2z isbottom + Z.b2z isfront.

(** A scene for running the choice: the unit cube seen along z, with
    the given candidate axis ends and three ticks. *)
Definition unit_cube_labels (sts ens : list Vec3) : AxisTickLabels :=
  mkAxisTickLabels (mkVec3 0 0 0)%float (mkVec3 1 1 1)%float
                   [0; 0.5; 1]%float sts ens.

(** Two axes away from the cube: the first lies only in front of the
    centre, the second only below and left of it. *)
Definition front_then_bottom_left : AxisTickLabels :=
  unit_cube_labels [mkVec3 2 (-1) 2; mkVec3 (-2) 3 0]%float
                   [mkVec3 3 (-1) 2; mkVec3 (-1) 3 0]%float.

(** ** Vocabulary: AxisTickLabels: the fallback *)

(** One axis through the middle of the cube: it crosses the faces. *)
Definition axis_through_cube : AxisTickLabels :=
  unit_cube_labels [mkVec3 (-1) 0.5 0]%float [mkVec3 2 0.5 0]%float.

(** ** Vocabulary: Segment counts of PolyLine and of the line walks of Mesh *)

(** The pairs of consecutive points, from the pair ([prev], first of
    [pts]) on, whose sum fails the finiteness test of the source. *)
Fixpoint sum_nonfinite_from (prev : Vec3) (pts : list Vec3) : nat :=
  match pts with
  | [] => 0
  | p :: rest =>
      (if Vec3_isfinite (Vec3_add p prev) then 0 else 1)
      + sum_nonfinite_from p rest
  end%nat.

Definition sum_nonfinite_pairs (pts : list Vec3) : nat :=
  match pts with
  | [] => 0
  | p :: rest => sum_nonfinite_from p rest
  end.

(** The pairs of consecutive points with a non-finite endpoint. *)
Fixpoint endpoint_nonfinite_from (prev : Vec3) (pts : list Vec3) : nat :=
  match pts with
  | [] => 0
  | p :: rest =>
      (if Vec3_isfinite p && Vec3_isfinite prev then 0 else 1)
      + endpoint_nonfinite_from p rest
  end%nat.

Definition endpoint_nonfinite_pairs (pts : list Vec3) : nat :=
  match pts with
  | [] => 0
  | p :: rest => endpoint_nonfinite_from p rest
  end.

(** The projected points of one line walk of [Mesh], in the order the
    walk visits them. *)
Fixpoint Mesh_walk_points (outerM : Mat4) (m : Mesh) (vidx_h vidx_step : nat)
  (stepindex : nat) (n2 consti : Z) (steps : list (Z * double)) (pt : Vec4)
  : option (list Vec3) :=
  match steps with
  | [] => Some []
  | (stepi, vstep) :: rest =>
      heightsval <- vget (heights m)
                      (if (stepindex =? 0)%nat then stepi * n2 + consti
                       else consti * n2 + stepi) ;;
      let pt := Vec4_set (Vec4_set pt vidx_step vstep) vidx_h heightsval in
      pts <- Mesh_walk_points outerM m vidx_h vidx_step stepindex n2 consti
               rest pt ;;
      Some (vec4to3 (Mat4_mul_vec outerM pt) :: pts)
  end.

(** The index of [heights] that the walk reads at step [stepi]. *)
Definition Mesh_height_index (stepindex : nat) (n2 consti stepi : Z) : Z :=
  if (stepindex =? 0)%nat then stepi * n2 + consti else consti * n2 + stepi.

(** A mesh of two by two positions with a line style. *)
Definition small_mesh (h : double) : Mesh :=
  mkMesh [0; 1]%float [0; 1]%float [h; h; h; h] Z_DIRN
         (Some 0%nat) (Some 0%nat).

(** Two points whose coordinates are finite and whose sum overflows. *)
Definition two_far_points : PolyLine :=
  mkPolyLine [mkVec3 0x1p+1023 0 0; mkVec3 0x1p+1023 0 0]%float (Some 0%nat).

(** ** Vocabulary: Surface tessellation of Mesh *)

(** The corner [i] of the cell [(i1, i2)] before projection. *)
Definition Mesh_corner_point (m : Mesh) (i1 i2 : Z) (i : nat) : Vec4 :=
  let '(vidx_h, vidx_1, vidx_2) := getVecIdxs (dirn m) in
  let n2 := Z.of_nat (length (pos2 m)) in
  let j1 := i1 + Z.of_nat (i mod 2) in
  let j2 := i2 + Z.of_nat (i / 2) in
  Vec4_set
    (Vec4_set
       (Vec4_set Vec4_origin vidx_h
          (nth (Z.to_nat (j1 * n2 + j2)) (heights m) 0%float))
       vidx_1 (nth (Z.to_nat j1) (pos1 m) 0%float))
    vidx_2 (nth (Z.to_nat j2) (pos2 m) 0%float).

(** The sum test on the three corners of the triangle [tri] of a cell. *)
Definition Mesh_triangle_test (m : Mesh) (i1 i2 : Z) (tri : nat) : bool :=
  let '(a, b, c) := tidxs (Z.to_nat ((i1 + i2) mod 2)) tri in
  let P := Mesh_corner_point m i1 i2 in
  Vec4_isfinite (Vec4_add (Vec4_add (P a) (P b)) (P c)).

(** The triangle [tri] of the cell [(i1, i2)], of running index [k]. *)
Definition Mesh_triangle (outerM : Mat4) (m : Mesh) (i1 i2 k : Z) (tri : nat)
  : Fragment :=
  let '(a, b, c) := tidxs (Z.to_nat ((i1 + i2) mod 2)) tri in
  let Q j := vec4to3 (Mat4_mul_vec outerM (Mesh_corner_point m i1 i2 j)) in
  mkFragment FR_TRIANGLE (Q a) (Q b) (Q c) (mesh_surfaceprop m) None None
             0%float k.

Definition Mesh_cell_triangles (outerM : Mat4) (m : Mesh) (i1 i2 : Z)
  : FragmentVector :=
  let k := i1 * (Z.of_nat (length (pos2 m)) - 1) + i2 in
  flat_map (fun tri =>
              if Mesh_triangle_test m i1 i2 tri
              then [Mesh_triangle outerM m i1 i2 k tri] else [])
           [0; 1]%nat.

(** The state of the cell loops: four corners with [w = 1] and the
    surface fragment with its running index. *)
Definition Mesh_surface_state (m : Mesh) (k : Z) (st : list Vec4 * Fragment)
  : Prop :=
  (exists q0 q1 q2 q3,
     fst st = [q0; q1; q2; q3]
     /\ v4w q0 = 1%float /\ v4w q1 = 1%float /\ v4w q2 = 1%float
     /\ v4w q3 = 1%float)
  /\ exists a b c,
       snd st = mkFragment FR_TRIANGLE a b c (mesh_surfaceprop m) None None
                           0%float k.

(** The whole surface, cell by cell in the order of the loops. *)
Definition Mesh_surface_triangles (outerM : Mat4) (m : Mesh) : FragmentVector :=
  flat_map (fun i1 =>
              flat_map (Mesh_cell_triangles outerM m i1)
                       (upto (Z.of_nat (length (pos2 m)) - 1)))
           (upto (Z.of_nat (length (pos1 m)) - 1)).

(** ** Vocabulary: Which producers filter non-finite points *)

(** The points a fragment uses are finite: both ends of a line segment,
    the anchor of a path marker.  Triangles are not constrained. *)
Definition used_points_finite (f : Fragment) : Prop :=
  match ftype f with
  | FR_LINESEG =>
      Vec3_isfinite (points0 f) = true /\ Vec3_isfinite (points1 f) = true
  | FR_PATH => Vec3_isfinite (points0 f) = true
  | _ => True
  end.

(** The objects that test the points of their line segments and path
    markers: every one but [LineSegments], [Text] and [AxisTickLabels],
    alone or nested in containers. *)
Fixpoint filters_points (o : Object) : bool :=
  match o with
  | LineSegmentsObject _ | TextObject _ | AxisTickLabelsObject _ => false
  | ObjectContainer _ objects | FacingContainer _ _ objects =>
      forallb filters_points objects
  | _ => true
  end.

(** ** Vocabulary: DataMesh: the tracker of drawn lines *)

Definition key_in_range (N1 N2 : Z) (k : Z * Z * Z) : Prop :=
  let '(a, b, l) := k in 0 <= a < N1 /\ 0 <= b < N2 /\ 0 <= l < MAXLINEIDX.

Definition key_slot (N2 : Z) (k : Z * Z * Z) : Z :=
  let '(a, b, l) := k in (a * N2 + b) * MAXLINEIDX + l.

(** The tracker [t] has the lines of [P] set, and no other. *)
Definition tracks (N1 N2 : Z) (t : LineCellTracker)
  (P : Z * Z * Z -> Prop) : Prop :=
  lct_n1 t = N1 /\ lct_n2 t = N2
  /\ Z.of_nat (length (lct_data t)) = N1 * N2 * MAXLINEIDX
  /\ forall k, key_in_range N1 N2 k ->
       (nth (Z.to_nat (key_slot N2 k)) (lct_data t) false = true <-> P k).

(** ** Vocabulary: DataMesh: which cell draws which line *)

(** The tracker key of the line [i] of the cell [(i1, i2)]. *)
Definition DataMesh_key (hr : bool) (i1 i2 : Z) (i : nat) : Z * Z * Z :=
  let '(xidx, yidx, lineidx) := nth i (linecells_of hr) (0, 0, 0) in
  (i1 + xidx, i2 + yidx, lineidx).

(** The keys set before the loops reach the cell [(i1, i2)]: those of the
    lines of the cells of earlier rows, and of earlier cells of the row. *)
Definition seen_before (hr : bool) (n2 i1 i2 : Z) (k : Z * Z * Z) : Prop :=
  exists a b j,
    0 <= a /\ 0 <= b < n2 /\ (a < i1 \/ (a = i1 /\ b < i2))
    /\ (j < nlines_of hr)%nat /\ DataMesh_key hr a b j = k.

(** Whether the cell [(i1, i2)] is the one that draws its line [i]: the
    lines on the sides shared with an earlier cell are left to that cell. *)
Definition draws_line (hr : bool) (i1 i2 : Z) (i : nat) : bool :=
  if hr then
    match i with
    | 0%nat | 1%nat => i2 =? 0
    | 6%nat | 7%nat => i1 =? 0
    | _ => true
    end
  else
    match i with
    | 0%nat => i2 =? 0
    | 1%nat => i1 =? 0
    | _ => true
    end.

(** ** Vocabulary: DataMesh: the fragments of a valid mesh *)

(** The grid dimensions of the loops: [int(edges.size())-1]. *)
Definition DataMesh_n1 (dm : DataMesh) : Z :=
  int_sub (int_of_size (length (edges1 dm))) 1.
Definition DataMesh_n2 (dm : DataMesh) : Z :=
  int_sub (int_of_size (length (edges2 dm))) 1.

(** The projected corners of the cell [(i1, i2)]. *)
Definition DataMesh_corners3 (outerM : Mat4) (dm : DataMesh) (i1 i2 : Z)
  : list Vec3 :=
  match DataMesh_cell_corners dm (DataMesh_n1 dm) (DataMesh_n2 dm) i1 i2
          (repeat Vec4_origin 9) with
  | Some corners => map (fun c => vec4to3 (Mat4_mul_vec outerM c)) corners
  | None => []
  end.

(** The fragment of the line [i] of the cell [(i1, i2)]. *)
Definition DataMesh_line_fragment (outerM : Mat4) (dm : DataMesh)
  (i1 i2 : Z) (i : nat) : Fragment :=
  let '(a, b) := nth i (lines_of (highres dm)) (0, 0)%nat in
  let corners3 := DataMesh_corners3 outerM dm i1 i2 in
  mkFragment FR_LINESEG (nth a corners3 Vec3_zero) (nth b corners3 Vec3_zero)
             Vec3_zero None (dm_lineprop dm) None 0%float
             (i1 * DataMesh_n2 dm + i2).

(** The triangles of the cell [(i1, i2)]. *)
Definition DataMesh_cell_triangles (outerM : Mat4) (dm : DataMesh)
  (i1 i2 : Z) : FragmentVector :=
  match dm_surfaceprop dm with
  | Some _ =>
      DataMesh_triangles dm (DataMesh_corners3 outerM dm i1 i2) i1 i2
        (mkFragment FR_TRIANGLE Vec3_zero Vec3_zero Vec3_zero
                    (dm_surfaceprop dm) None None 0%float
                    (i1 * DataMesh_n2 dm + i2))
  | None => []
  end.

(** The lines the cell [(i1, i2)] draws. *)
Definition DataMesh_cell_lines (outerM : Mat4) (dm : DataMesh) (i1 i2 : Z)
  : FragmentVector :=
  map (DataMesh_line_fragment outerM dm i1 i2)
      (filter (draws_line (highres dm) i1 i2)
              (seq 0 (nlines_of (highres dm)))).

(** Both ends of every line of every cell project to finite points. *)
Definition DataMesh_lines_finite (outerM : Mat4) (dm : DataMesh) : bool :=
  forallb (fun i1 =>
    forallb (fun i2 =>
      forallb (fun i =>
                 let f := DataMesh_line_fragment outerM dm i1 i2 i in
                 Vec3_isfinite (points0 f) && Vec3_isfinite (points1 f))
              (seq 0 (nlines_of (highres dm))))
            (upto (DataMesh_n2 dm)))
          (upto (DataMesh_n1 dm)).

(** The corner array between two cells: nine points with [w = 1]. *)
Definition corners_ok (corners : list Vec4) : Prop :=
  length corners = 9%nat /\ Forall (fun c => v4w c = 1%float) corners.

(** The line fragment set up before the loops, with the index of the cell. *)
Definition DataMesh_fl (dm : DataMesh) (i1 i2 : Z) : Fragment :=
  set_index (mkFragment FR_LINESEG Vec3_zero Vec3_zero Vec3_zero
                        None (dm_lineprop dm) None 0%float 0)
            (i1 * DataMesh_n2 dm + i2).

(** The state of the cell loops when they reach the cell [(i1, i2)]. *)
Definition DataMesh_state (dm : DataMesh) (i1 i2 : Z)
  (st : list Vec4 * LineCellTracker) : Prop :=
  corners_ok (fst st)
  /\ tracks (Z.of_nat (length (edges1 dm))) (Z.of_nat (length (edges2 dm)))
            (snd st) (seen_before (highres dm) (DataMesh_n2 dm) i1 i2).

(** The fragments of the whole mesh, cell by cell in the order of the
    loops: the triangles of the cell, then the lines it draws. *)
Definition DataMesh_fragments (outerM : Mat4) (dm : DataMesh)
  : FragmentVector :=
  flat_map (fun i1 =>
              flat_map (fun i2 => DataMesh_cell_triangles outerM dm i1 i2
                                  ++ DataMesh_cell_lines outerM dm i1 i2)
                       (upto (DataMesh_n2 dm)))
           (upto (DataMesh_n1 dm)).

(** ** Vocabulary: DataMesh: every grid edge is drawn once *)

(** The position of the corner [k] of a cell on the grid of half cell
    steps: corners 0, 2, 4, 6 are the cell's corners, 1, 3, 5, 7 the
    middles of its sides, 8 its centre. *)
Definition corner_offset (k : nat) : Z * Z :=
  match k with
  | 0%nat => (0, 0) | 1%nat => (1, 0) | 2%nat => (2, 0) | 3%nat => (2, 1)
  | 4%nat => (2, 2) | 5%nat => (1, 2) | 6%nat => (0, 2) | 7%nat => (0, 1)
  | _ => (1, 1)
  end.

Definition lattice_point (i1 i2 : Z) (k : nat) : Z * Z :=
  (2 * i1 + fst (corner_offset k), 2 * i2 + snd (corner_offset k)).

(** The component [i] of a point, and the coordinate at 0, 1 or 2 half
    steps from the edge [lo] of a cell to its edge [hi]. *)
Definition Vec4_component (v : Vec4) (i : nat) : double :=
  match i with
  | 0%nat => v4x v | 1%nat => v4y v | 2%nat => v4z v | _ => v4w v
  end.

Definition half_steps (t : Z) (lo hi : double) : double :=
  if t =? 0 then lo else if t =? 1 then midpoint lo hi else hi.

(** The grid edge of the line [i] of the cell [(i1, i2)]: its two ends. *)
Definition grid_segment (hr : bool) (c : Z * Z * nat) : (Z * Z) * (Z * Z) :=
  let '(i1, i2, i) := c in
  let '(a, b) := nth i (lines_of hr) (0, 0)%nat in
  (lattice_point i1 i2 a, lattice_point i1 i2 b).

(** Two segments with the same pair of ends, in either order. *)
Definition same_segment (s s' : (Z * Z) * (Z * Z)) : Prop :=
  s = s' \/ s = (snd s', fst s').

(** The lines drawn, as (cell, line) in the order of the loops. *)
Definition DataMesh_drawn (hr : bool) (n1 n2 : Z) : list (Z * Z * nat) :=
  flat_map (fun i1 =>
              flat_map (fun i2 =>
                          map (fun i => (i1, i2, i))
                              (filter (draws_line hr i1 i2)
                                      (seq 0 (nlines_of hr))))
                       (upto n2))
           (upto n1).

(** A mesh of two by two cells, drawn at high resolution. *)
Definition four_cells : DataMesh :=
  mkDataMesh [0; 1; 2]%float [0; 1; 2]%float [1; 2; 3; 4]%float
             2 0 1 true (Some 0%nat) (Some 0%nat).

(** A transform that divides by the depth: its last row is (0, 0, 1, 0). *)
Definition depth_divide : Mat4 :=
  mkMat4 (mkVec4 1 0 0 0) (mkVec4 0 1 0 0) (mkVec4 0 0 1 0)
         (mkVec4 0 0 1 0)%float.

(** One cell of height 0, in the plane of depth 0. *)
Definition flat_cell : DataMesh :=
  mkDataMesh [0; 1]%float [0; 1]%float [0]%float 2 0 1 false
             (Some 0%nat) None.

(** ** Vocabulary: the fragments of the point, segment and marker producers *)

(** The segment that [PolyLine] pushes in round [i]: from the projected
    point [i] back to the projected point [i-1]. *)
Definition PolyLine_segment (outerM : Mat4) (p : PolyLine) (i : nat)
  : Fragment :=
  mkFragment FR_LINESEG
             (project outerM (nth i (pl_points p) Vec3_zero))
             (project outerM (nth (i - 1) (pl_points p) Vec3_zero))
             Vec3_zero None (pl_lineprop p) None 0%float (Z.of_nat i).

(** The sum test of [PolyLine] and of the line walks of [Mesh]. *)
Definition sum_test (f : Fragment) : bool :=
  Vec3_isfinite (Vec3_add (points0 f) (points1 f)).

(** The segment that [LineSegments] pushes for the stored points [2k]
    and [2k+1]. *)
Definition LineSegments_segment (outerM : Mat4) (l : LineSegments) (k : nat)
  : Fragment :=
  mkFragment FR_LINESEG
             (project outerM (nth (2 * k) (ls_points l) Vec3_zero))
             (project outerM (nth (2 * k + 1) (ls_points l) Vec3_zero))
             Vec3_zero None (ls_lineprop l) None 0%float (2 * Z.of_nat k).

(** The shortest of three, and of six, coordinate arrays. *)
Definition min3 (x y z : ValVector) : nat :=
  Nat.min (length x) (Nat.min (length y) (length z)).

(** The point [i] of three parallel coordinate arrays. *)
Definition point_at (x y z : ValVector) (i : nat) : Vec3 :=
  mkVec3 (nth i x 0%float) (nth i y 0%float) (nth i z 0%float).

(** The number of rounds of the loop of [Points]: the sizes only bound
    it when there are any. *)
Definition Points_size (p : Points) : nat :=
  match pts_sizes p with
  | [] => min3 (pts_x p) (pts_y p) (pts_z p)
  | _ :: _ => Nat.min (min3 (pts_x p) (pts_y p) (pts_z p))
                      (length (pts_sizes p))
  end.

(** The marker of the point [i]: scaled by [sizes[i]] when there are
    sizes, by 1 otherwise. *)
Definition Points_fragment (outerM : Mat4) (p : Points) (i : nat) : Fragment :=
  mkFragment FR_PATH
             (vec4to3 (Mat4_mul_vec outerM
                         (Vec4_xyz (nth i (pts_x p) 0%float)
                                   (nth i (pts_y p) 0%float)
                                   (nth i (pts_z p) 0%float))))
             Vec3_zero Vec3_zero (pts_surfacefill p) (pts_lineedge p)
             (Some PointsParams)
             (match pts_sizes p with
              | [] => 1%float
              | _ :: _ => nth i (pts_sizes p) 0%float
              end)
             (Z.of_nat i).

(** The point packed at the triple [i] of a flattened array. *)
Definition packed_point (pts : ValVector) (i : nat) : Vec3 :=
  mkVec3 (nth (3 * i) pts 0%float) (nth (3 * i + 1) pts 0%float)
         (nth (3 * i + 2) pts 0%float).

(** The marker of the text item [i]. *)
Definition Text_fragment (outerM : Mat4) (t : Text) (i : nat) : Fragment :=
  mkFragment FR_PATH
             (project outerM (packed_point (text_pos1 t) i))
             (project outerM (packed_point (text_pos2 t) i))
             Vec3_zero None None (Some TextParams) 1%float (Z.of_nat i).

(** ** Vocabulary: kinds and styles of fragments *)

(** The kind and the two styles of a fragment, set once before the
    loops. *)
Definition stamped (T : FragmentType) (sp : option SurfaceProp)
  (lp : option LineProp) (f : Fragment) : Prop :=
  ftype f = T /\ surfaceprop f = sp /\ lineprop f = lp.

(** A triangle carrying the surface style [sp], or a line segment carrying
    the line style [lp], the style being present. *)
Definition carries_style (sp : option SurfaceProp) (lp : option LineProp)
  (f : Fragment) : Prop :=
  match ftype f with
  | FR_TRIANGLE => sp <> None /\ stamped FR_TRIANGLE sp None f
  | FR_LINESEG => lp <> None /\ stamped FR_LINESEG None lp f
  | _ => False
  end.

(** A fragment of one of the three kinds, with the fields of its kind:
    a triangle has no line style, a line segment no surface style, and a
    path marker has a parameter block. *)
Definition well_kinded (f : Fragment) : Prop :=
  match ftype f with
  | FR_TRIANGLE => lineprop f = None
  | FR_LINESEG => surfaceprop f = None
  | FR_PATH => params f <> None
  | FR_NONE => False
  end.

(** ** Vocabulary: the surface of a DataMesh *)

(** The value of the cell [(i1, i2)]. *)
Definition DataMesh_val (dm : DataMesh) (i1 i2 : Z) : double :=
  nth (Z.to_nat (i1 * DataMesh_n2 dm + i2)) (vals dm) 0%float.

(** The surface of the whole mesh, cell by cell in the order of the
    loops: the triangles of the cells whose value is finite. *)
Definition DataMesh_surface (outerM : Mat4) (dm : DataMesh) : FragmentVector :=
  flat_map (fun i1 =>
              flat_map (fun i2 =>
                          if d_isfinite (DataMesh_val dm i1 i2)
                          then DataMesh_cell_triangles outerM dm i1 i2
                          else [])
                       (upto (DataMesh_n2 dm)))
           (upto (DataMesh_n1 dm)).

(** A mesh of two by one cells whose second value is not a number. *)
Definition holed_mesh : DataMesh :=
  mkDataMesh [0; 1; 2]%float [0; 1]%float [1; nan]%float
             2 0 1 false None (Some 0%nat).

(** ** Vocabulary: Facing cull *)

(** The geometric normal of a triangle in local space: the cross product
    of its edges from the first corner to the second and to the third,
    component by component. *)
Definition geometric_normal (p0 p1 p2 : Vec3) : Vec3 :=
  let ux := (v3x p1 - v3x p0)%float in
  let uy := (v3y p1 - v3y p0)%float in
  let uz := (v3z p1 - v3z p0)%float in
  let vx := (v3x p2 - v3x p0)%float in
  let vy := (v3y p2 - v3y p0)%float in
  let vz := (v3z p2 - v3z p0)%float in
  mkVec3 (uy * vz - uz * vy)%float (uz * vx - ux * vz)%float
         (ux * vy - uy * vx)%float.

(** The depth-axis (z) component of a local point once transformed and
    brought back from homogeneous coordinates. *)
Definition transformed_depth (outerM : Mat4) (p : Vec3) : double :=
  let q := Mat4_mul_vec outerM (mkVec4 (v3x p) (v3y p) (v3z p) 1%float) in
  (v4z q * (1 / v4w q))%float.

(** The depth of the transformed normal is strictly greater than the
    depth of the transformed local origin. *)
Definition faces_viewer (outerM : Mat4) (norm : Vec3) : bool :=
  (transformed_depth outerM (mkVec3 0 0 0)
   <? transformed_depth outerM norm)%float.

(** The one fragment of a triangle: its three corners projected, its
    surface style and no line style. *)
Definition triangle_fragment (outerM : Mat4) (t : Triangle) : Fragment :=
  mkFragment FR_TRIANGLE (project outerM (tri_p0 t))
             (project outerM (tri_p1 t)) (project outerM (tri_p2 t))
             (tri_surfaceprop t) None None 0%float 0.

(** What a sequence of calls leaves behind together, call after call. *)
Definition appended_in_order (rs : list Emitted) : Emitted :=
  mkEmitted (concat (map frags rs)) (concat (map stderr rs)).

(** Two triangles in the plane z = 0: the first turns counter-clockwise
    seen from +z (its normal is (0, 0, 1)), the second is the first with
    two corners exchanged (its normal is (0, 0, -1)). *)
Definition ccw_triangle : Triangle :=
  mkTriangle (mkVec3 0 0 0) (mkVec3 1 0 0) (mkVec3 0 1 0) (Some 0%nat).
Definition cw_triangle : Triangle :=
  mkTriangle (mkVec3 0 0 0) (mkVec3 0 1 0) (mkVec3 1 0 0) (Some 0%nat).

(** ** Vocabulary: the averages of the corner heights *)

(** The finite ones among some values, and their sum from 0 in the order
    of the values. *)
Definition finite_values (l : list double) : list double :=
  filter d_isfinite l.

Definition sum_from_zero (l : list double) : double :=
  fold_left PrimFloat.add l 0%float.

(** * Properties *)

(** ** Loops and arrays *)

Lemma bind_Some {A B} (m : option A) (k : A -> option B) (a : A) :
  m = Some a -> bind m k = k a.
Proof. intros ->. reflexivity. Qed.

Lemma upto_In (n x : Z) : In x (upto n) <-> 0 <= x < n.
Proof.
  unfold upto. rewrite in_map_iff. split.
  - intros [k [<- Hk]]. apply in_seq in Hk. lia.
  - intros H. exists (Z.to_nat x). split; [lia|]. apply in_seq. lia.
Qed.

Lemma upto_length (n : Z) : length (upto n) = Z.to_nat n.
Proof. unfold upto. now rewrite length_map, length_seq. Qed.

Lemma indexed_length {A} (l : list A) : length (indexed l) = length l.
Proof.
  unfold indexed. rewrite length_combine, upto_length. lia.
Qed.

(** A loop over [f s, f (s+1), ..., f (s+n-1)] that keeps an invariant
    [I] of the number of rounds done and pushes [g j] in round [j]. *)
Lemma loopM_map_seq {S A F} (f : nat -> A) (I : nat -> S -> Prop)
  (g : nat -> list F) (body : A -> S -> option (S * list F)) :
  forall n s st,
    I s st ->
    (forall j st, (s <= j < s + n)%nat -> I j st ->
       exists st', body (f j) st = Some (st', g j) /\ I (Datatypes.S j) st') ->
    exists st',
      loopM body (map f (seq s n)) st = Some (st', flat_map g (seq s n))
      /\ I (s + n)%nat st'.
Proof.
  induction n as [|n IH]; intros s st HI Hbody.
  - exists st. split; [reflexivity|]. now rewrite Nat.add_0_r.
  - destruct (Hbody s st ltac:(lia) HI) as [st1 [E1 HI1]].
    destruct (IH (Datatypes.S s) st1 HI1) as [st2 [E2 HI2]].
    { intros j st' Hj. apply Hbody. lia. }
    exists st2. split.
    + cbn [seq map loopM flat_map]. rewrite E1. cbn [bind fst snd].
      rewrite E2. reflexivity.
    + now replace (s + Datatypes.S n)%nat with (Datatypes.S s + n)%nat by lia.
Qed.

Lemma indexed_map_seq {A} (d : A) (l : list A) :
  indexed l = map (fun j => (Z.of_nat j, nth j l d)) (seq 0 (length l)).
Proof.
  unfold indexed, upto. rewrite Nat2Z.id.
  assert (G : forall (l : list A) s,
             combine (map Z.of_nat (seq s (length l))) l
             = map (fun j => (Z.of_nat j, nth (j - s) l d)) (seq s (length l))).
  { clear l. induction l as [|a l IH]; intros s; [reflexivity|].
    cbn [length seq map combine]. rewrite Nat.sub_diag. cbn [nth]. f_equal.
    rewrite IH. apply map_ext_in. intros j Hj. apply in_seq in Hj.
    replace (j - s)%nat with (Datatypes.S (j - Datatypes.S s)) by lia.
    reflexivity. }
  rewrite G. apply map_ext. intros j. now rewrite Nat.sub_0_r.
Qed.

Lemma set_nth_length {A} (l : list A) i x : length (set_nth l i x) = length l.
Proof.
  revert i. induction l as [|a l IH]; intros [|i]; cbn; auto.
Qed.

Lemma nth_set_nth_eq {A} (l : list A) i x d :
  (i < length l)%nat -> nth i (set_nth l i x) d = x.
Proof.
  revert i. induction l as [|a l IH]; intros [|i] H; cbn in *; try lia; auto.
  apply IH. lia.
Qed.

Lemma nth_set_nth_neq {A} (l : list A) i j x d :
  i <> j -> nth j (set_nth l i x) d = nth j l d.
Proof.
  revert i j. induction l as [|a l IH]; intros [|i] [|j] H; cbn; auto.
  - congruence.
Qed.

Lemma vget_nth {A} (l : list A) (i : Z) (d : A) :
  0 <= i < Z.of_nat (length l) -> vget l i = Some (nth (Z.to_nat i) l d).
Proof.
  intros H. unfold vget. destruct (Z.ltb_spec i 0); [lia|].
  apply nth_error_nth'. lia.
Qed.

Lemma wrap_int_small (z : Z) : - 2 ^ 31 <= z < 2 ^ 31 -> wrap_int z = z.
Proof.
  intros H. unfold wrap_int. rewrite Z.mod_small; lia.
Qed.

Lemma wrap_unsigned_small (z : Z) : 0 <= z < 2 ^ 32 -> wrap_unsigned z = z.
Proof. intros H. unfold wrap_unsigned. now apply Z.mod_small. Qed.

(** ** Finiteness of doubles *)

Lemma SFcompare_refl_finite (s : bool) (m : positive) (e : Z) :
  SFcompare (S754_finite s m e) (S754_finite s m e) = Some Eq.
Proof.
  unfold SFcompare. destruct s; rewrite Z.compare_refl;
    now rewrite Pos.compare_cont_refl.
Qed.

Lemma d_isfinite_spec (x : double) : d_isfinite x = sf_finite (Prim2SF x).
Proof.
  unfold d_isfinite, is_finite, is_nan, is_infinity.
  rewrite !eqb_spec, abs_spec.
  change (Prim2SF infinity) with (S754_infinity false).
  destruct (Prim2SF x) as [s|s| |s m e];
    try reflexivity; try (destruct s; reflexivity).
  cbn [SFabs sf_finite]. unfold SFeqb. rewrite !SFcompare_refl_finite.
  reflexivity.
Qed.

(** A finite sum has finite terms: an infinite or NaN term makes the sum
    infinite or NaN. *)
Lemma d_isfinite_add (x y : double) :
  d_isfinite (x + y) = true -> d_isfinite x = true /\ d_isfinite y = true.
Proof.
  rewrite !d_isfinite_spec, add_spec. unfold SF64add.
  destruct (Prim2SF x) as [s|s| |s m e], (Prim2SF y) as [s'|s'| |s' m' e'];
    try (intros _; split; reflexivity);
    unfold SFadd; try discriminate.
  destruct s, s'; discriminate.
Qed.

Lemma Vec3_isfinite_add (a b : Vec3) :
  Vec3_isfinite (Vec3_add a b) = true ->
  Vec3_isfinite a = true /\ Vec3_isfinite b = true.
Proof.
  unfold Vec3_isfinite, Vec3_add. cbn [v3x v3y v3z].
  rewrite !andb_true_iff. intros [[Hx Hy] Hz].
  apply d_isfinite_add in Hx, Hy, Hz. tauto.
Qed.

Lemma Vec4_isfinite_add (a b : Vec4) :
  Vec4_isfinite (Vec4_add a b) = true ->
  Vec4_isfinite a = true /\ Vec4_isfinite b = true.
Proof.
  unfold Vec4_isfinite, Vec4_add. cbn [v4x v4y v4z v4w].
  rewrite !andb_true_iff. intros [[[Hx Hy] Hz] Hw].
  apply d_isfinite_add in Hx, Hy, Hz, Hw. tauto.
Qed.

(** ** Facing cull: TriangleFacing and FacingContainer *)

Lemma Triangle_emits_one (outerM : Mat4) (t : Triangle) :
  length (Triangle_getFragments outerM t) = 1%nat.
Proof. reflexivity. Qed.

(** No double is strictly less than itself. *)
Lemma d_ltb_irrefl (x : double) : (x <? x)%float = false.
Proof.
  rewrite ltb_spec. unfold SFltb.
  destruct (Prim2SF x) as [s|s| |s m e]; try (destruct s; reflexivity);
    try reflexivity.
  now rewrite SFcompare_refl_finite.
Qed.

Lemma facing_faces_viewer (outerM : Mat4) (norm : Vec3) :
  facing outerM norm = faces_viewer outerM norm.
Proof. reflexivity. Qed.

Lemma Triangle_norm_geometric (t : Triangle) :
  Triangle_norm t = geometric_normal (tri_p0 t) (tri_p1 t) (tri_p2 t).
Proof. reflexivity. Qed.

(** The children of a container are all visited, in order, and what they
    append is appended in that order; a read out of range in one of them
    is a read out of range of the container. *)
Lemma children_getFragments_in_order (rec : Object -> option Emitted)
  (objects : list Object) :
  children_getFragments rec objects
  = option_map appended_in_order (mapM rec objects).
Proof.
  induction objects as [|o objects IH]; [reflexivity|].
  cbn [children_getFragments mapM]. rewrite IH.
  destruct (rec o) as [a|]; [|reflexivity]. cbn [bind].
  destruct (mapM rec objects) as [rs|]; reflexivity.
Qed.

(** C5.  [TriangleFacing] appends the fragment of its triangle, and
    [FacingContainer] what its children append in order under the product
    of the outer transform and its own, exactly when the depth (z)
    component of the transformed normal is strictly greater than that of
    the transformed local origin; otherwise each appends nothing.  The
    normal of a [TriangleFacing] is the cross product of the edges of its
    triangle from the first corner. *)
Theorem facing_cull_iff :
  forall twod (outerM : Mat4),
    (forall t : Triangle,
       let shown :=
         faces_viewer outerM
           (geometric_normal (tri_p0 t) (tri_p1 t) (tri_p2 t)) in
       getFragments twod outerM (TriangleObject t)
       = Some (emit [triangle_fragment outerM t])
       /\ getFragments twod outerM (TriangleFacingObject t)
          = Some (emit (if shown then [triangle_fragment outerM t] else []))
       /\ (getFragments twod outerM (TriangleFacingObject t)
           = getFragments twod outerM (TriangleObject t) <-> shown = true)
       /\ (getFragments twod outerM (TriangleFacingObject t)
           = Some (emit []) <-> shown = false))
    /\ (forall (norm : Vec3) (objM : Mat4) (objects : list Object),
          getFragments twod outerM (ObjectContainer objM objects)
          = option_map appended_in_order
              (mapM (getFragments twod (Mat4_mul outerM objM)) objects)
          /\ getFragments twod outerM (FacingContainer norm objM objects)
             = (if faces_viewer outerM norm
                then option_map appended_in_order
                       (mapM (getFragments twod (Mat4_mul outerM objM))
                             objects)
                else Some (emit [])))
    /\ (forall norm : Vec3,
          transformed_depth outerM norm
          = transformed_depth outerM (mkVec3 0 0 0) ->
          faces_viewer outerM norm = false).
Proof.
  intros twod outerM. split; [|split].
  - intros t shown. cbn [getFragments].
    unfold TriangleFacing_getFragments.
    rewrite Triangle_norm_geometric, facing_faces_viewer. fold shown.
    change (Triangle_getFragments outerM t) with [triangle_fragment outerM t].
    split; [reflexivity|]. split; [reflexivity|].
    destruct shown; split; split; try reflexivity; try discriminate;
      intros _; reflexivity.
  - intros norm objM objects. cbn [getFragments].
    rewrite facing_faces_viewer, children_getFragments_in_order.
    split; reflexivity.
  - intros norm E. unfold faces_viewer. rewrite E. apply d_ltb_irrefl.
Qed.

(** The cull at work under the identity: the triangle facing +z is
    appended and the one facing -z is not; a container facing +z appends
    the fragments of its two children in order, one facing -z nothing. *)
Example facing_cull_examples :
  geometric_normal (tri_p0 ccw_triangle) (tri_p1 ccw_triangle)
                   (tri_p2 ccw_triangle) = mkVec3 0 0 1
  /\ getFragments TwoD.twodLineIntersect identityM4
       (TriangleFacingObject ccw_triangle)
     = Some (emit [triangle_fragment identityM4 ccw_triangle])
  /\ getFragments TwoD.twodLineIntersect identityM4
       (TriangleFacingObject cw_triangle)
     = Some (emit [])
  /\ getFragments TwoD.twodLineIntersect identityM4
       (FacingContainer (mkVec3 0 0 1) identityM4
          [TriangleObject ccw_triangle; TriangleObject cw_triangle])
     = Some (emit [triangle_fragment identityM4 ccw_triangle;
                   triangle_fragment identityM4 cw_triangle])
  /\ getFragments TwoD.twodLineIntersect identityM4
       (FacingContainer (mkVec3 0 0 (-1)) identityM4
          [TriangleObject ccw_triangle; TriangleObject cw_triangle])
     = Some (emit []).
Proof. vm_compute. repeat split. Qed.

(** ** The packed-triple constructor of LineSegments *)

(** Once the counter is on the last, incomplete triple of the shorter
    array, the constructor reads past its end. *)
Lemma packed_loop_incomplete (fuel : nat) (pts1 pts2 : ValVector) (i : Z)
  (points : list Vec3) :
  let size := Z.of_nat (Nat.min (length pts1) (length pts2)) in
  0 <= i < size -> size < i + 3 ->
  packed_loop (S fuel) pts1 pts2 size i points = None.
Proof.
  intros size Hi Hs. cbn [packed_loop].
  destruct (Z.ltb_spec i size); [|lia].
  assert (V : forall (v : ValVector) k, Z.of_nat (length v) <= k -> vget v k = None).
  { intros v k Hk. unfold vget. destruct (Z.ltb_spec k 0); [reflexivity|].
    apply nth_error_None. lia. }
  destruct (Nat.min_spec (length pts1) (length pts2)) as [[_ E]|[_ E]];
    unfold size in *; rewrite E in *.
  - destruct (vget pts1 i); [|reflexivity]. cbn [bind].
    destruct (vget pts1 (i + 1)); [|reflexivity]. cbn [bind].
    rewrite (V pts1 (i + 2)) by lia. reflexivity.
  - destruct (vget pts1 i); [|reflexivity]. cbn [bind].
    destruct (vget pts1 (i + 1)); [|reflexivity]. cbn [bind].
    destruct (vget pts1 (i + 2)); [|reflexivity]. cbn [bind].
    destruct (vget pts2 i); [|reflexivity]. cbn [bind].
    destruct (vget pts2 (i + 1)); [|reflexivity]. cbn [bind].
    rewrite (V pts2 (i + 2)) by lia. reflexivity.
Qed.

Lemma packed_loop_reads_out_of_range (fuel : nat) (pts1 pts2 : ValVector) :
  let size := Z.of_nat (Nat.min (length pts1) (length pts2)) in
  forall (i : Z) (points : list Vec3),
    0 <= i <= size -> i mod 3 = 0 -> size mod 3 <> 0 ->
    size - i < 3 * Z.of_nat fuel ->
    packed_loop fuel pts1 pts2 size i points = None.
Proof.
  intros size. induction fuel as [|fuel IH]; intros i points Hi Hm Hs Hf.
  - assert (i = size) by lia. subst i. contradiction.
  - assert (i <> size) by (intros ->; contradiction).
    destruct (Z_lt_le_dec size (i + 3)) as [Hlast|Hmore].
    + apply packed_loop_incomplete; fold size; lia.
    + cbn [packed_loop]. destruct (Z.ltb_spec i size); [|lia].
      repeat match goal with
             | |- bind ?m _ = None => destruct m; [cbn [bind]|reflexivity]
             end.
      apply IH; try lia.
      replace (i + 3) with (i + 1 * 3) by lia. now rewrite Z.mod_add by lia.
Qed.

(** The constructor reads out of range whenever the shorter array's length
    is not a multiple of 3. *)
Lemma LineSegments_new_packed_out_of_range (pts1 pts2 : ValVector)
  (prop : option LineProp) :
  (Nat.min (length pts1) (length pts2) mod 3 <> 0)%nat ->
  LineSegments_new_packed pts1 pts2 prop = None.
Proof.
  intros H. unfold LineSegments_new_packed.
  rewrite packed_loop_reads_out_of_range; try reflexivity; try lia.
  intros E. apply H.
  apply Nat2Z.inj. rewrite Nat2Z.inj_mod. exact E.
Qed.

(** C9, at the failing input: with two arrays of four values the second
    round reads [pts1[4]], past the end; the sibling constructor from six
    arrays and [Text] truncate instead. *)
Theorem LineSegments_new_packed_four_values :
  LineSegments_new_packed [1; 2; 3; 4]%float [1; 2; 3; 4]%float None = None
  /\ vget [1; 2; 3; 4]%float (3 + 1) = None
  /\ length (ls_points (LineSegments_new [1; 2; 3; 4]%float [1; 2; 3; 4]%float
                            [1; 2; 3; 4]%float [1; 2; 3]%float [1; 2]%float
                            [1; 2; 3; 4]%float None)) = 4%nat.
Proof. repeat split. Qed.

(** ** Validation of a DataMesh *)

Lemma check_indices_covers (a b c : nat) :
  check_indices [a; b; c] = true <-> covers_012 [a; b; c].
Proof.
  split.
  - intros H k Hk.
    destruct a as [|[|[|a]]], b as [|[|[|b]]], c as [|[|[|c]]];
      try discriminate H;
      destruct k as [|[|[|k]]]; try lia; reflexivity.
  - intros H.
    pose proof (H 0%nat ltac:(lia)) as H0.
    pose proof (H 1%nat ltac:(lia)) as H1.
    pose proof (H 2%nat ltac:(lia)) as H2.
    destruct a as [|[|[|a]]], b as [|[|[|b]]], c as [|[|[|c]]];
      try reflexivity; cbn in H0, H1, H2; discriminate.
Qed.

Lemma check_sizes_exact (dm : DataMesh) :
  sizes_fit_int dm ->
  check_sizes dm
  = ((Z.of_nat (length (edges1 dm)) - 1) * (Z.of_nat (length (edges2 dm)) - 1)
     =? Z.of_nat (length (vals dm))).
Proof.
  unfold sizes_fit_int, INT_MAX. intros (H1 & H2 & H3 & H4).
  unfold check_sizes, int_mul, int_sub, int_of_size.
  rewrite !(wrap_int_small (Z.of_nat _)) by lia.
  rewrite !(wrap_int_small (_ - 1)) by lia.
  rewrite wrap_int_small; [reflexivity|]. nia.
Qed.

(** X22.  On arrays whose lengths and cell count are in the range of the
    [int] of the size check, role indices that do not cover 0, 1, 2 once
    each, or a value array whose length is not
    [(edges1.length-1)*(edges2.length-1)], make [getFragments] write one
    diagnostic line and append no fragment. *)
Theorem DataMesh_rejects_malformed :
  forall (outerM : Mat4) (dm : DataMesh),
    sizes_fit_int dm ->
    ~ covers_012 [idxval dm; idxedge1 dm; idxedge2 dm]
    \/ Z.of_nat (length (vals dm))
       <> (Z.of_nat (length (edges1 dm)) - 1) * (Z.of_nat (length (edges2 dm)) - 1) ->
    exists msg : string,
      DataMesh_getFragments outerM dm = Some (mkEmitted [] [msg])
      /\ (msg = msg_invalid_indices \/ msg = msg_invalid_size).
Proof.
  intros outerM dm Hfit Hbad. unfold DataMesh_getFragments.
  destruct (check_indices [idxval dm; idxedge1 dm; idxedge2 dm]) eqn:Ei;
    cbn [negb].
  - destruct Hbad as [Hbad|Hbad].
    + apply check_indices_covers in Ei. contradiction.
    + rewrite (check_sizes_exact dm Hfit).
      destruct (Z.eqb_spec
                  ((Z.of_nat (length (edges1 dm)) - 1)
                   * (Z.of_nat (length (edges2 dm)) - 1))
                  (Z.of_nat (length (vals dm)))) as [E|E]; [lia|].
      cbn [negb]. eexists. split; [reflexivity|]. now right.
  - eexists. split; [reflexivity|]. now left.
Qed.

Lemma DataMesh_rejects_malformed_witness :
  sizes_fit_int (mkDataMesh [0; 1]%float [0; 1]%float [] 0 1 2 false None None)
  /\ exists msg : string,
       DataMesh_getFragments identityM4
         (mkDataMesh [0; 1]%float [0; 1]%float [] 0 1 2 false None None)
       = Some (mkEmitted [] [msg])
       /\ (msg = msg_invalid_indices \/ msg = msg_invalid_size).
Proof.
  assert (F : sizes_fit_int
                (mkDataMesh [0; 1]%float [0; 1]%float [] 0 1 2 false None None)).
  { unfold sizes_fit_int, INT_MAX. cbn. lia. }
  split; [exact F|].
  apply (DataMesh_rejects_malformed identityM4 _ F).
  right. cbn. lia.
Defined.

(** C7, at the failing input: with 65537 edges on each side and no cell
    value the lengths disagree (0 is not 65536*65536), but the check
    computes the product in [int], where it overflows (to 0 in 32 bits):
    the mesh is accepted and no diagnostic is written. *)
Theorem DataMesh_size_check_wraps :
  let dm := mkDataMesh (repeat 0%float (Z.to_nat 65537))
                       (repeat 0%float (Z.to_nat 65537)) []
                       0 1 2 false None None in
  DataMesh_getFragments identityM4 dm = Some (mkEmitted [] [])
  /\ covers_012 [idxval dm; idxedge1 dm; idxedge2 dm]
  /\ Z.of_nat (length (vals dm))
     <> (Z.of_nat (length (edges1 dm)) - 1) * (Z.of_nat (length (edges2 dm)) - 1).
Proof.
  cbv zeta. split; [|split].
  - vm_compute. reflexivity.
  - apply check_indices_covers. reflexivity.
  - cbn [vals edges1 edges2]. rewrite !repeat_length, !Z2Nat.id by lia.
    cbn [length]. lia.
Qed.

(** C10, as amended: with both edge arrays empty and one cell value the
    size check passes ([(0-1)*(0-1) = 1] in signed arithmetic) and
    [getFragments] returns without a fragment; it writes no diagnostic
    when the role indices are valid. *)
Theorem DataMesh_empty_edges_one_value :
  forall (outerM : Mat4) (dm : DataMesh),
    edges1 dm = [] -> edges2 dm = [] -> length (vals dm) = 1%nat ->
    check_sizes dm = true
    /\ exists r : Emitted,
         DataMesh_getFragments outerM dm = Some r
         /\ frags r = []
         /\ (check_indices [idxval dm; idxedge1 dm; idxedge2 dm] = true ->
             stderr r = []).
Proof.
  intros outerM dm E1 E2 Ev.
  assert (Hs : check_sizes dm = true).
  { unfold check_sizes. rewrite E1, E2, Ev. reflexivity. }
  split; [exact Hs|].
  unfold DataMesh_getFragments. rewrite Hs.
  destruct (check_indices [idxval dm; idxedge1 dm; idxedge2 dm]); cbn [negb].
  - rewrite E1, E2.
    destruct (dm_lineprop dm), (dm_surfaceprop dm);
      (eexists; split; [reflexivity|]; split; [reflexivity|]; reflexivity).
  - eexists. split; [reflexivity|]. split; [reflexivity|]. discriminate.
Qed.

Lemma DataMesh_empty_edges_one_value_witness :
  let dm := mkDataMesh [] [] [1%float] 0 1 2 true (Some 0%nat) (Some 0%nat) in
  check_sizes dm = true
  /\ exists r : Emitted,
       DataMesh_getFragments identityM4 dm = Some r
       /\ frags r = []
       /\ (check_indices [idxval dm; idxedge1 dm; idxedge2 dm] = true ->
           stderr r = []).
Proof.
  exact (DataMesh_empty_edges_one_value identityM4
           (mkDataMesh [] [] [1%float] 0 1 2 true (Some 0%nat) (Some 0%nat))
           eq_refl eq_refl eq_refl).
Defined.

(** C10, as stated, fails when the role indices are invalid: the index
    check comes first and writes its diagnostic. *)
Lemma DataMesh_empty_edges_invalid_indices :
  let dm := mkDataMesh [] [] [1%float] 0 0 0 false None None in
  edges1 dm = [] /\ edges2 dm = [] /\ length (vals dm) = 1%nat
  /\ DataMesh_getFragments identityM4 dm
     = Some (mkEmitted [] [msg_invalid_indices]).
Proof. repeat split. Qed.

(** ** AxisTickLabels: the choice of the axis *)

Lemma axis_score_of_weight (outerM : Mat4) (a : AxisTickLabels) (axis : nat) :
  axis_score_of outerM a axis = criteria_weight (axis_criteria outerM a axis).
Proof.
  unfold axis_score_of, axis_criteria.
  destruct (cube_centre (scenecorners_of outerM a)) as [[centx centy] centz].
  reflexivity.
Qed.

Lemma criteria_weight_nonneg (c : bool * bool * bool) : 0 <= criteria_weight c.
Proof. destruct c as [[[] []] []]; cbn; lia. Qed.

(** The scan keeps the first choice of greatest score above the initial
    best score. *)
Lemma best_axis_scan (score : nat -> Z) (l : list nat) :
  forall (bs : Z) (ba : nat),
    let r := fold_left (best_axis_step score) l (bs, ba) in
    (r = (bs, ba) /\ forall c, In c l -> score c <= bs)
    \/ (exists l1 l2,
          l = l1 ++ snd r :: l2 /\ fst r = score (snd r) /\ bs < score (snd r)
          /\ (forall c, In c l1 -> score c < score (snd r))
          /\ (forall c, In c l2 -> score c <= score (snd r))).
Proof.
  induction l as [|c l IH]; intros bs ba r.
  - left. split; [reflexivity|]. intros c [].
  - subst r. cbn [fold_left].
    assert (Hstep : best_axis_step score (bs, ba) c
                    = if bs <? score c then (score c, c) else (bs, ba))
      by reflexivity.
    rewrite Hstep. clear Hstep.
    destruct (Z.ltb_spec bs (score c)) as [Hlt|Hge].
    + right.
      destruct (IH (score c) c) as [[E Hall]|(l1 & l2 & E & Ef & Hb & H1 & H2)].
      * rewrite E. exists [], l. cbn [snd fst app]. repeat split; auto.
        intros x [].
      * exists (c :: l1), l2. repeat split; auto; try lia.
        -- cbn [app]. f_equal. exact E.
        -- intros x [<-|Hx]; auto.
    + destruct (IH bs ba) as [[E Hall]|(l1 & l2 & E & Ef & Hb & H1 & H2)].
      * left. split; [exact E|]. intros x [<-|Hx]; auto.
      * right. exists (c :: l1), l2. repeat split; auto.
        -- cbn [app]. f_equal. exact E.
        -- intros x [<-|Hx]; auto. lia.
Qed.

Lemma best_axis_first_maximum (score : nat -> Z) (l : list nat) :
  (forall c, 0 <= score c) -> l <> [] ->
  exists l1 l2,
    l = l1 ++ snd (best_axis score l) :: l2
    /\ fst (best_axis score l) = score (snd (best_axis score l))
    /\ (forall c, In c l1 -> score c < score (snd (best_axis score l)))
    /\ (forall c, In c l2 -> score c <= score (snd (best_axis score l))).
Proof.
  intros Hpos Hne. unfold best_axis.
  destruct (best_axis_scan score l (-1) 0%nat)
    as [[_ Hall]|(l1 & l2 & E & Ef & _ & H1 & H2)].
  - destruct l as [|c l]; [contradiction|].
    specialize (Hall c (or_introl eq_refl)). specialize (Hpos c). lia.
  - exists l1, l2. auto.
Qed.

(** C2, as amended: among a non-empty list of viable edges the chosen
    edge is the first one of greatest score, the score being 10 for a
    midpoint left of the centre of the projected cube, plus 11 for one
    below it, plus 12 for one in front of it.  The weights are ordered
    front > bottom > left, and an edge that meets more criteria scores
    more: front alone (12) scores less than bottom and left (21). *)
Theorem axis_choice_first_maximum :
  forall twod (outerM : Mat4) (a : AxisTickLabels),
    axchoices_of twod outerM a <> [] ->
    let score := axis_score_of outerM a in
    let best := bestaxis_of twod outerM a in
    (exists l1 l2,
       axchoices_of twod outerM a = l1 ++ best :: l2
       /\ (forall c, In c l1 -> score c < score best)
       /\ (forall c, In c l2 -> score c <= score best))
    /\ (forall axis, score axis = criteria_weight (axis_criteria outerM a axis))
    /\ (forall c c', criteria_count c < criteria_count c' ->
                     criteria_weight c < criteria_weight c')
    /\ criteria_weight (true, false, false) < criteria_weight (false, true, false)
    /\ criteria_weight (false, true, false) < criteria_weight (false, false, true)
    /\ criteria_weight (false, false, true) < criteria_weight (true, true, false).
Proof.
  intros twod outerM a Hne score best. split; [|split; [|split]].
  - destruct (best_axis_first_maximum score (axchoices_of twod outerM a))
      as (l1 & l2 & E & _ & H1 & H2); auto.
    + intros c. unfold score. rewrite axis_score_of_weight.
      apply criteria_weight_nonneg.
    + exists l1, l2. auto.
  - intros axis. apply axis_score_of_weight.
  - intros [[[] []] []] [[[] []] []]; cbn; lia.
  - cbn. lia.
Qed.

Lemma axis_choice_first_maximum_witness :
  axchoices_of TwoD.twodLineIntersect identityM4 front_then_bottom_left <> []
  /\ exists l1 l2,
       axchoices_of TwoD.twodLineIntersect identityM4 front_then_bottom_left
       = l1 ++ bestaxis_of TwoD.twodLineIntersect identityM4
                           front_then_bottom_left :: l2.
Proof.
  assert (H : axchoices_of TwoD.twodLineIntersect identityM4
                           front_then_bottom_left <> [])
    by (vm_compute; discriminate).
  split; [exact H|].
  destruct (axis_choice_first_maximum TwoD.twodLineIntersect identityM4
              front_then_bottom_left H) as [(l1 & l2 & E & _) _].
  exists l1, l2. exact E.
Defined.

(** C2, as stated, fails: both axes are viable, the first meets only the
    front criterion and the second only the bottom and left criteria, and
    the second is chosen, with the greater score 21 against 12. *)
Lemma front_alone_loses_to_bottom_left :
  axchoices_of TwoD.twodLineIntersect identityM4 front_then_bottom_left
  = [0; 1]%nat
  /\ axis_criteria identityM4 front_then_bottom_left 0 = (false, false, true)
  /\ axis_criteria identityM4 front_then_bottom_left 1 = (true, true, false)
  /\ axis_score_of identityM4 front_then_bottom_left 0 = 12
  /\ axis_score_of identityM4 front_then_bottom_left 1 = 21
  /\ bestaxis_of TwoD.twodLineIntersect identityM4 front_then_bottom_left
     = 1%nat.
Proof. vm_compute. repeat split. Qed.

(** ** AxisTickLabels: the fallback *)

Lemma tick_fragment_is_path (outerM : Mat4) (axstart delta : Vec3)
  (t : Z * double) : ftype (tick_fragment outerM axstart delta t) = FR_PATH.
Proof. destruct t. reflexivity. Qed.

(** C8.  With at least one candidate edge, when no edge passes the
    face-crossing filter every edge is a choice, one of them is chosen,
    and one path fragment is emitted per tick fraction. *)
Theorem axis_fallback_places_labels :
  forall twod (outerM : Mat4) (a : AxisTickLabels),
    numentries_of a <> 0%nat ->
    nonoverlapping twod outerM a = [] ->
    axchoices_of twod outerM a = seq 0 (numentries_of a)
    /\ (bestaxis_of twod outerM a < numentries_of a)%nat
    /\ AxisTickLabels_getFragments twod outerM a
       = map (tick_fragment outerM
                (nth (bestaxis_of twod outerM a) (starts a) Vec3_zero)
                (Vec3_sub (nth (bestaxis_of twod outerM a) (ends a) Vec3_zero)
                          (nth (bestaxis_of twod outerM a) (starts a) Vec3_zero)))
             (indexed (tickfracs a))
    /\ length (AxisTickLabels_getFragments twod outerM a)
       = length (tickfracs a)
    /\ Forall (fun f => ftype f = FR_PATH)
              (AxisTickLabels_getFragments twod outerM a).
Proof.
  intros twod outerM a Hn Hnone.
  assert (Hch : axchoices_of twod outerM a = seq 0 (numentries_of a)).
  { unfold axchoices_of. now rewrite Hnone. }
  assert (Hfr : AxisTickLabels_getFragments twod outerM a
                = map (tick_fragment outerM
                         (nth (bestaxis_of twod outerM a) (starts a) Vec3_zero)
                         (Vec3_sub
                            (nth (bestaxis_of twod outerM a) (ends a) Vec3_zero)
                            (nth (bestaxis_of twod outerM a) (starts a) Vec3_zero)))
                      (indexed (tickfracs a))).
  { unfold AxisTickLabels_getFragments.
    destruct (Nat.eqb_spec (numentries_of a) 0); [contradiction|reflexivity]. }
  split; [exact Hch|]. split; [|split; [exact Hfr|split]].
  - destruct (best_axis_first_maximum (axis_score_of outerM a)
                (axchoices_of twod outerM a)) as (l1 & l2 & E & _).
    + intros c. rewrite axis_score_of_weight. apply criteria_weight_nonneg.
    + rewrite Hch. destruct (numentries_of a); [contradiction|discriminate].
    + assert (Hin : In (bestaxis_of twod outerM a) (axchoices_of twod outerM a)).
      { unfold bestaxis_of. rewrite E at 2. apply in_elt. }
      rewrite Hch in Hin. apply in_seq in Hin. lia.
  - rewrite Hfr, length_map. apply indexed_length.
  - rewrite Hfr. apply Forall_forall. intros f Hf.
    apply in_map_iff in Hf. destruct Hf as [t [<- _]].
    apply tick_fragment_is_path.
Qed.

Lemma axis_fallback_places_labels_witness :
  numentries_of axis_through_cube <> 0%nat
  /\ nonoverlapping TwoD.twodLineIntersect identityM4 axis_through_cube = []
  /\ length (AxisTickLabels_getFragments TwoD.twodLineIntersect identityM4
               axis_through_cube) = 3%nat.
Proof.
  assert (Hn : numentries_of axis_through_cube <> 0%nat)
    by (vm_compute; discriminate).
  assert (Ho : nonoverlapping TwoD.twodLineIntersect identityM4
                              axis_through_cube = [])
    by (vm_compute; reflexivity).
  split; [exact Hn|]. split; [exact Ho|].
  destruct (axis_fallback_places_labels TwoD.twodLineIntersect identityM4
              axis_through_cube Hn Ho) as (_ & _ & _ & Hlen & _).
  exact Hlen.
Defined.

(** ** Segment counts of PolyLine and of the line walks of Mesh *)

(** A pair with a non-finite endpoint always fails the sum test. *)
Lemma endpoint_nonfinite_le_sum (pts : list Vec3) :
  (endpoint_nonfinite_pairs pts <= sum_nonfinite_pairs pts)%nat.
Proof.
  assert (G : forall l prev,
             (endpoint_nonfinite_from prev l <= sum_nonfinite_from prev l)%nat).
  { induction l as [|p l IH]; intros prev; [apply Nat.le_refl|].
    cbn [endpoint_nonfinite_from sum_nonfinite_from].
    specialize (IH p).
    destruct (Vec3_isfinite (Vec3_add p prev)) eqn:E.
    - apply Vec3_isfinite_add in E. destruct E as [-> ->]. cbn [andb]. lia.
    - destruct (_ && _); lia. }
  destruct pts as [|p pts]; [apply Nat.le_refl|]. apply G.
Qed.

Lemma PolyLine_loop_count (outerM : Mat4) (pts : list Vec3) :
  forall (i : nat) (f : Fragment),
    (0 < i)%nat ->
    (length (PolyLine_loop outerM pts i f)
     + sum_nonfinite_from (points0 f) (map (project outerM) pts)
     = length pts)%nat.
Proof.
  induction pts as [|p pts IH]; intros i f Hi; [reflexivity|].
  cbn [PolyLine_loop map sum_nonfinite_from length].
  rewrite length_app.
  specialize (IH (S i)
                (set_index (set_points0 (set_points1 f (points0 f))
                                        (project outerM p)) (Z.of_nat i))
                ltac:(lia)).
  cbn [set_index set_points0 set_points1 points0 points1] in *.
  destruct (Nat.ltb_spec 0 i); [|lia]. cbn [andb].
  destruct (Vec3_isfinite (Vec3_add (project outerM p) (points0 f)));
    cbn [length]; lia.
Qed.

Lemma PolyLine_loop_lineseg (outerM : Mat4) (pts : list Vec3) :
  forall (i : nat) (f : Fragment),
    ftype f = FR_LINESEG ->
    Forall (fun g => ftype g = FR_LINESEG) (PolyLine_loop outerM pts i f).
Proof.
  induction pts as [|p pts IH]; intros i f Hf; [constructor|].
  cbn [PolyLine_loop]. apply Forall_app. split.
  - destruct (_ && _); constructor; auto.
  - apply IH. exact Hf.
Qed.

Lemma Mesh_walk_count_from (outerM : Mat4) (m : Mesh) (vidx_h vidx_step : nat)
  (stepindex : nat) (n2 consti : Z) (steps : list (Z * double)) :
  forall (pt : Vec4) (fl : Fragment),
    (forall s, In s steps ->
       0 < fst s
       /\ 0 <= Mesh_height_index stepindex n2 consti (fst s)
          < Z.of_nat (length (heights m))) ->
    exists st' out pts,
      loopM (Mesh_line_step outerM m vidx_h vidx_step stepindex n2 consti)
            steps (pt, fl) = Some (st', out)
      /\ Mesh_walk_points outerM m vidx_h vidx_step stepindex n2 consti
           steps pt = Some pts
      /\ length pts = length steps
      /\ (length out + sum_nonfinite_from (points0 fl) pts = length steps)%nat.
Proof.
  induction steps as [|[stepi vstep] steps IH]; intros pt fl Hs.
  - exists (pt, fl), [], []. repeat split.
  - destruct (Hs (stepi, vstep) (or_introl eq_refl)) as [Hpos Hrange].
    cbn [fst] in Hpos, Hrange. unfold Mesh_height_index in Hrange.
    cbn [loopM Mesh_walk_points]. unfold Mesh_line_step at 1.
    rewrite (vget_nth _ _ 0%float Hrange). cbn [bind fst snd].
    set (h := nth _ (heights m) 0%float).
    set (pt1 := Vec4_set (Vec4_set pt vidx_step vstep) vidx_h h).
    set (p := vec4to3 (Mat4_mul_vec outerM pt1)).
    destruct (IH pt1 (set_index (set_points0 (set_points1 fl (points0 fl)) p)
                                (index fl + 1)))
      as (st' & out & pts & E1 & E2 & Hlen & Hcount).
    { intros s Hin. apply Hs. now right. }
    cbn [set_index set_points0 set_points1 points0 points1 index] in *.
    rewrite E1, E2. cbn [bind fst snd].
    eexists _, _, _. split; [reflexivity|]. split; [reflexivity|].
    cbn [length sum_nonfinite_from]. split; [lia|].
    rewrite length_app.
    destruct (Z.ltb_spec 0 stepi); [|lia]. cbn [andb].
    destruct (Vec3_isfinite (Vec3_add p (points0 fl))); cbn [length]; lia.
Qed.

Lemma Mesh_walk_count (outerM : Mat4) (m : Mesh) (vidx_h vidx_step : nat)
  (stepindex : nat) (n2 consti : Z) (vec_step : ValVector) (pt : Vec4)
  (fl : Fragment) :
  (forall stepi, 0 <= stepi < Z.of_nat (length vec_step) ->
     0 <= Mesh_height_index stepindex n2 consti stepi
     < Z.of_nat (length (heights m))) ->
  exists st' out pts,
    Mesh_line_walk outerM m vidx_h vidx_step stepindex n2 consti vec_step
                   (pt, fl) = Some (st', out)
    /\ Mesh_walk_points outerM m vidx_h vidx_step stepindex n2 consti
         (indexed vec_step) pt = Some pts
    /\ length pts = length vec_step
    /\ (length out + sum_nonfinite_pairs pts = length vec_step - 1)%nat.
Proof.
  intros Hr. unfold Mesh_line_walk.
  rewrite (indexed_map_seq 0%float).
  destruct vec_step as [|v0 vec_step].
  - exists (pt, fl), [], []. repeat split.
  - cbn [length seq map].
    change (nth 0 (v0 :: vec_step) 0%float) with v0.
    cbn [loopM Mesh_walk_points].
    unfold Mesh_line_step at 1.
    pose proof (Hr 0 ltac:(cbn [length]; lia)) as H0.
    unfold Mesh_height_index in H0. cbn [Z.of_nat].
    rewrite (vget_nth _ _ 0%float H0). cbn [bind fst snd].
    set (h := nth _ (heights m) 0%float).
    set (pt1 := Vec4_set (Vec4_set pt vidx_step v0) vidx_h h).
    set (p := vec4to3 (Mat4_mul_vec outerM pt1)).
    destruct (Mesh_walk_count_from outerM m vidx_h vidx_step stepindex n2
                consti
                (map (fun j => (Z.of_nat j, nth j (v0 :: vec_step) 0%float))
                     (seq 1 (length vec_step)))
                pt1 (set_index (set_points0 (set_points1 fl (points0 fl)) p)
                               (index fl + 1)))
      as (st' & out & pts & E1 & E2 & Hlen & Hcount).
    { intros s Hin. apply in_map_iff in Hin. destruct Hin as [j [<- Hj]].
      apply in_seq in Hj. cbn [fst]. split; [lia|].
      apply Hr. cbn [length]. lia. }
    rewrite length_map, length_seq in Hlen, Hcount.
    cbn [set_index set_points0 set_points1 points0 points1 index] in *.
    rewrite E1, E2. cbn [bind fst snd].
    eexists _, _, _. split; [reflexivity|]. split; [reflexivity|].
    change (0 <? 0) with false.
    cbn [length sum_nonfinite_pairs app andb]. split; lia.
Qed.

(** C3, as amended: a [PolyLine] with N points, and each line walk of
    [Mesh] over N positions, emits at most N-1 line segments, namely N-1
    minus the number of consecutive pairs whose summed projected endpoints
    fail the finiteness test. *)
Theorem segment_count_sum_test :
  forall (outerM : Mat4),
    (forall p : PolyLine,
       let out := PolyLine_getFragments outerM p in
       let N := length (pl_points p) in
       (length out <= N - 1)%nat
       /\ (length out
           + sum_nonfinite_pairs (map (project outerM) (pl_points p))
           = N - 1)%nat
       /\ (endpoint_nonfinite_pairs (map (project outerM) (pl_points p))
           <= sum_nonfinite_pairs (map (project outerM) (pl_points p)))%nat
       /\ Forall (fun f => ftype f = FR_LINESEG) out)
    /\ (forall (m : Mesh) (vidx_h vidx_step stepindex : nat) (n2 consti : Z)
               (vec_step : ValVector) (pt : Vec4) (fl : Fragment),
          let N := length vec_step in
          (forall stepi, 0 <= stepi < Z.of_nat N ->
             0 <= Mesh_height_index stepindex n2 consti stepi
             < Z.of_nat (length (heights m))) ->
          exists st' out pts,
            Mesh_line_walk outerM m vidx_h vidx_step stepindex n2 consti
                           vec_step (pt, fl) = Some (st', out)
            /\ Mesh_walk_points outerM m vidx_h vidx_step stepindex n2 consti
                 (indexed vec_step) pt = Some pts
            /\ length pts = N
            /\ (length out <= N - 1)%nat
            /\ (length out + sum_nonfinite_pairs pts = N - 1)%nat
            /\ (endpoint_nonfinite_pairs pts <= sum_nonfinite_pairs pts)%nat).
Proof.
  intros outerM. split.
  - intros p out N.
    assert (H : (length out
                 + sum_nonfinite_pairs (map (project outerM) (pl_points p))
                 = N - 1)%nat).
    { subst out N. unfold PolyLine_getFragments.
      destruct (pl_points p) as [|p0 pts]; [reflexivity|].
      cbn [PolyLine_loop map sum_nonfinite_pairs length].
      cbn [Nat.ltb Nat.leb andb app].
      pose proof (PolyLine_loop_count outerM pts 1
                    (set_index
                       (set_points0
                          (set_points1
                             (mkFragment FR_LINESEG Vec3_zero Vec3_zero
                                Vec3_zero None (pl_lineprop p) None 0%float 0)
                             Vec3_zero)
                          (project outerM p0)) 0)
                    ltac:(lia)) as Hc.
      cbn [set_index set_points0 set_points1 points0 points1] in *.
      cbn [Z.of_nat]. lia. }
    split; [lia|]. split; [exact H|].
    split; [apply endpoint_nonfinite_le_sum|].
    apply PolyLine_loop_lineseg. reflexivity.
  - intros m vidx_h vidx_step stepindex n2 consti vec_step pt fl N Hr.
    destruct (Mesh_walk_count outerM m vidx_h vidx_step stepindex n2 consti
                vec_step pt fl Hr)
      as (st' & out & pts & E1 & E2 & Hlen & Hcount).
    exists st', out, pts. repeat split; auto.
    + subst N. lia.
    + apply endpoint_nonfinite_le_sum.
Qed.

Lemma segment_count_sum_test_witness :
  exists st' out pts,
    Mesh_line_walk identityM4 (small_mesh 1%float) 2 0 0 2 0 [0; 1]%float
                   (Vec4_origin, Fragment_init) = Some (st', out)
    /\ Mesh_walk_points identityM4 (small_mesh 1%float) 2 0 0 2 0
         (indexed [0; 1]%float) Vec4_origin = Some pts
    /\ (length out + sum_nonfinite_pairs pts = 1)%nat.
Proof.
  destruct (segment_count_sum_test identityM4) as [_ H].
  destruct (H (small_mesh 1%float) 2%nat 0%nat 0%nat 2 0 [0; 1]%float
              Vec4_origin Fragment_init)
    as (st' & out & pts & E1 & E2 & _ & _ & Hc & _).
  - intros stepi Hs. cbn in Hs |- *. lia.
  - exists st', out, pts. repeat split; assumption.
Defined.

(** C3, as stated, fails: both projected points are finite, no pair has a
    non-finite endpoint, and yet no segment is emitted (N-1 = 1). *)
Lemma overflowing_sum_drops_finite_segment :
  length (pl_points two_far_points) = 2%nat
  /\ forallb Vec3_isfinite
             (map (project identityM4) (pl_points two_far_points)) = true
  /\ endpoint_nonfinite_pairs
       (map (project identityM4) (pl_points two_far_points)) = 0%nat
  /\ length (PolyLine_getFragments identityM4 two_far_points) = 0%nat.
Proof. vm_compute. repeat split. Qed.

(** ** Surface tessellation of Mesh *)

Lemma Vec4_set_fresh (d : Direction) (q : Vec4) (x y z : double) :
  v4w q = 1%float ->
  let '(vidx_h, vidx_1, vidx_2) := getVecIdxs d in
  Vec4_set (Vec4_set (Vec4_set q vidx_h x) vidx_1 y) vidx_2 z
  = Vec4_set (Vec4_set (Vec4_set Vec4_origin vidx_h x) vidx_1 y) vidx_2 z.
Proof.
  destruct q as [qx qy qz qw]. cbn [v4w]. intros ->.
  destruct d; reflexivity.
Qed.

Lemma Vec4_set_w (d : Direction) (q : Vec4) (x y z : double) :
  let '(vidx_h, vidx_1, vidx_2) := getVecIdxs d in
  v4w (Vec4_set (Vec4_set (Vec4_set q vidx_h x) vidx_1 y) vidx_2 z) = v4w q.
Proof. destruct d; reflexivity. Qed.

Lemma Mesh_corner_step (outerM : Mat4) (m : Mesh) (i1 i2 : Z) (i : nat)
  (p : list Vec4) (pproj : list Vec3) :
  let n1 := Z.of_nat (length (pos1 m)) in
  let n2 := Z.of_nat (length (pos2 m)) in
  n1 * n2 <= Z.of_nat (length (heights m)) ->
  0 <= i1 < n1 - 1 -> 0 <= i2 < n2 - 1 -> (i < 4)%nat ->
  v4w (nth i p Vec4_zero) = 1%float ->
  Mesh_corner outerM m (getVecIdxs (dirn m)) n2 i1 i2 i (p, pproj)
  = Some (set_nth p i (Mesh_corner_point m i1 i2 i),
          set_nth pproj i
            (vec4to3 (Mat4_mul_vec outerM (Mesh_corner_point m i1 i2 i))),
          []).
Proof.
  intros n1 n2 Hh H1 H2 Hi Hw.
  assert (Hm : (i mod 2 < 2)%nat) by (apply Nat.mod_upper_bound; lia).
  assert (Hd : (i / 2 < 2)%nat) by (apply Nat.Div0.div_lt_upper_bound; lia).
  unfold Mesh_corner, Mesh_corner_point.
  pose proof (Vec4_set_fresh (dirn m) (nth i p Vec4_zero)) as Hfresh.
  destruct (getVecIdxs (dirn m)) as [[vidx_h vidx_1] vidx_2].
  fold n2.
  rewrite (vget_nth (heights m) _ 0%float) by nia.
  rewrite (vget_nth (pos1 m) _ 0%float) by (fold n1; lia).
  rewrite (vget_nth (pos2 m) _ 0%float) by (fold n2; lia).
  cbn [bind]. rewrite Hfresh by exact Hw. reflexivity.
Qed.

Lemma Mesh_cell_spec (outerM : Mat4) (m : Mesh) (i1 i2 k : Z)
  (st : list Vec4 * Fragment) :
  let n1 := Z.of_nat (length (pos1 m)) in
  let n2 := Z.of_nat (length (pos2 m)) in
  n1 * n2 <= Z.of_nat (length (heights m)) ->
  0 <= i1 < n1 - 1 -> 0 <= i2 < n2 - 1 ->
  Mesh_surface_state m k st ->
  exists st',
    Mesh_cell outerM m (getVecIdxs (dirn m)) n2 i1 i2 st
    = Some (st',
            flat_map (fun tri =>
                        if Mesh_triangle_test m i1 i2 tri
                        then [Mesh_triangle outerM m i1 i2 k tri] else [])
                     [0; 1]%nat)
    /\ Mesh_surface_state m (k + 1) st'.
Proof.
  intros n1 n2 Hh H1 H2 [(q0 & q1 & q2 & q3 & Ep & W0 & W1 & W2 & W3)
                           (a & b & c & Ef)].
  destruct st as [p fs]. cbn [fst snd] in Ep, Ef. subst p fs.
  unfold Mesh_cell. cbn [loopM].
  rewrite (Mesh_corner_step outerM m i1 i2 0) by (auto; lia).
  cbn [bind fst snd set_nth].
  rewrite (Mesh_corner_step outerM m i1 i2 1) by (auto; lia).
  cbn [bind fst snd set_nth].
  rewrite (Mesh_corner_step outerM m i1 i2 2) by (auto; lia).
  cbn [bind fst snd set_nth].
  rewrite (Mesh_corner_step outerM m i1 i2 3) by (auto; lia).
  cbn [bind fst snd set_nth repeat app].
  unfold Mesh_cell_triangle, Mesh_triangle_test, Mesh_triangle.
  assert (Hpar : (i1 + i2) mod 2 = 0 \/ (i1 + i2) mod 2 = 1)
    by (pose proof (Z.mod_pos_bound (i1 + i2) 2); lia).
  destruct Hpar as [-> | ->];
    [change (Z.to_nat 0) with 0%nat | change (Z.to_nat 1) with 1%nat];
    cbn [tidxs nth flat_map app loopM];
    repeat match goal with
           | |- context [if ?b then _ else _] => destruct b
           end;
    cbn [bind fst snd app set_points0 set_points1 set_points2 set_index
         ftype points0 points1 points2 surfaceprop lineprop params pathsize
         index];
    (eexists; split; [reflexivity|]);
    (split; cbn [fst snd];
     [ exists (Mesh_corner_point m i1 i2 0), (Mesh_corner_point m i1 i2 1),
              (Mesh_corner_point m i1 i2 2), (Mesh_corner_point m i1 i2 3);
       split; [reflexivity|];
       unfold Mesh_corner_point;
       pose proof (Vec4_set_w (dirn m) Vec4_origin) as Hw;
       destruct (getVecIdxs (dirn m)) as [[vidx_h vidx_1] vidx_2];
       rewrite !Hw; repeat split; reflexivity
     | eexists _, _, _; reflexivity ]).
Qed.

Lemma flat_map_upto {F} (g : Z -> list F) (n : Z) :
  flat_map g (upto n) = flat_map (fun j => g (Z.of_nat j)) (seq 0 (Z.to_nat n)).
Proof.
  unfold upto. rewrite !flat_map_concat_map, map_map. reflexivity.
Qed.

Lemma Mesh_surface_row (outerM : Mat4) (m : Mesh) (i1 : Z)
  (st : list Vec4 * Fragment) :
  let n1 := Z.of_nat (length (pos1 m)) in
  let n2 := Z.of_nat (length (pos2 m)) in
  n1 * n2 <= Z.of_nat (length (heights m)) ->
  0 <= i1 < n1 - 1 ->
  Mesh_surface_state m (i1 * Z.max 0 (n2 - 1)) st ->
  exists st',
    loopM (fun i2 st =>
             Mesh_cell outerM m (getVecIdxs (dirn m)) n2 i1 i2 st)
          (upto (n2 - 1)) st
    = Some (st', flat_map (Mesh_cell_triangles outerM m i1) (upto (n2 - 1)))
    /\ Mesh_surface_state m ((i1 + 1) * Z.max 0 (n2 - 1)) st'.
Proof.
  intros n1 n2 Hh H1 Hst.
  destruct (loopM_map_seq Z.of_nat
              (fun j st =>
                 Mesh_surface_state m (i1 * Z.max 0 (n2 - 1) + Z.of_nat j) st)
              (fun j => Mesh_cell_triangles outerM m i1 (Z.of_nat j))
              (fun i2 st =>
                 Mesh_cell outerM m (getVecIdxs (dirn m)) n2 i1 i2 st)
              (Z.to_nat (n2 - 1)) 0%nat st)
    as [st' [E Hst']].
  - now rewrite Z.add_0_r.
  - intros j st0 Hj Hst0.
    destruct (Mesh_cell_spec outerM m i1 (Z.of_nat j)
                (i1 * Z.max 0 (n2 - 1) + Z.of_nat j) st0)
      as [st1 [E1 Hst1]]; auto; try (fold n2; lia).
    exists st1. split.
    + unfold Mesh_cell_triangles. fold n2.
      replace (i1 * (n2 - 1) + Z.of_nat j)
        with (i1 * Z.max 0 (n2 - 1) + Z.of_nat j) by lia.
      exact E1.
    + now replace (i1 * Z.max 0 (n2 - 1) + Z.of_nat (S j))
        with (i1 * Z.max 0 (n2 - 1) + Z.of_nat j + 1) by lia.
  - exists st'. split.
    + rewrite flat_map_upto. exact E.
    + replace ((i1 + 1) * Z.max 0 (n2 - 1))
        with (i1 * Z.max 0 (n2 - 1) + Z.of_nat (0 + Z.to_nat (n2 - 1)))
        by lia.
      exact Hst'.
Qed.

Lemma Mesh_getSurfaceFragments_spec (outerM : Mat4) (m : Mesh) :
  mesh_surfaceprop m <> None ->
  Z.of_nat (length (pos1 m)) * Z.of_nat (length (pos2 m))
  <= Z.of_nat (length (heights m)) ->
  Mesh_getSurfaceFragments outerM m = Some (Mesh_surface_triangles outerM m).
Proof.
  intros Hsp Hh. unfold Mesh_getSurfaceFragments.
  destruct (mesh_surfaceprop m) as [sp|] eqn:Esp; [clear Hsp|contradiction].
  set (n1 := Z.of_nat (length (pos1 m))) in *.
  set (n2 := Z.of_nat (length (pos2 m))) in *.
  destruct (loopM_map_seq Z.of_nat
              (fun j st =>
                 Mesh_surface_state m (Z.of_nat j * Z.max 0 (n2 - 1)) st)
              (fun j => flat_map (Mesh_cell_triangles outerM m (Z.of_nat j))
                                 (upto (n2 - 1)))
              (fun i1 st =>
                 loopM (fun i2 st =>
                          Mesh_cell outerM m (getVecIdxs (dirn m)) n2 i1 i2 st)
                       (upto (n2 - 1)) st)
              (Z.to_nat (n1 - 1)) 0%nat
              (repeat Vec4_origin 4,
               mkFragment FR_TRIANGLE Vec3_zero Vec3_zero Vec3_zero
                          (Some sp) None None 0%float 0))
    as [st' [E _]].
  - split; cbn [fst snd].
    + exists Vec4_origin, Vec4_origin, Vec4_origin, Vec4_origin.
      repeat split.
    + rewrite Esp. eexists _, _, _. reflexivity.
  - intros j st0 Hj Hst0.
    destruct (Mesh_surface_row outerM m (Z.of_nat j) st0)
      as [st1 [E1 Hst1]]; auto; try (fold n1; lia).
    exists st1. split; [exact E1|].
    now replace (Z.of_nat (S j) * Z.max 0 (n2 - 1))
      with ((Z.of_nat j + 1) * Z.max 0 (n2 - 1)) by lia.
  - change (upto (n1 - 1)) with (map Z.of_nat (seq 0 (Z.to_nat (n1 - 1)))).
    rewrite E. cbn [bind snd].
    unfold Mesh_surface_triangles. fold n1 n2. now rewrite flat_map_upto.
Qed.

(** C6, as amended: with a surface style (and heights for every grid
    point) the surface is, cell by cell, the two triangles of the split
    [tidxs[(i1+i2) mod 2]], each emitted exactly when the sum of its three
    corner points before projection passes the finiteness test; the three
    corners of an emitted triangle are finite; and a grid of 2 by 2
    positions whose two sums are finite gives exactly 2 triangles. *)
Theorem Mesh_surface_tessellation :
  forall (outerM : Mat4) (m : Mesh),
    mesh_surfaceprop m <> None ->
    Z.of_nat (length (pos1 m)) * Z.of_nat (length (pos2 m))
    <= Z.of_nat (length (heights m)) ->
    Mesh_getSurfaceFragments outerM m = Some (Mesh_surface_triangles outerM m)
    /\ (forall i1 i2,
          Mesh_cell_triangles outerM m i1 i2
          = (if Mesh_triangle_test m i1 i2 0
             then [Mesh_triangle outerM m i1 i2
                     (i1 * (Z.of_nat (length (pos2 m)) - 1) + i2) 0]
             else [])
            ++ (if Mesh_triangle_test m i1 i2 1
                then [Mesh_triangle outerM m i1 i2
                        (i1 * (Z.of_nat (length (pos2 m)) - 1) + i2) 1]
                else []))
    /\ (forall i1 i2 tri,
          Mesh_triangle_test m i1 i2 tri = true ->
          let '(a, b, c) := tidxs (Z.to_nat ((i1 + i2) mod 2)) tri in
          Vec4_isfinite (Mesh_corner_point m i1 i2 a) = true
          /\ Vec4_isfinite (Mesh_corner_point m i1 i2 b) = true
          /\ Vec4_isfinite (Mesh_corner_point m i1 i2 c) = true)
    /\ (length (pos1 m) = 2%nat -> length (pos2 m) = 2%nat ->
        Mesh_triangle_test m 0 0 0 = true ->
        Mesh_triangle_test m 0 0 1 = true ->
        Mesh_getSurfaceFragments outerM m
        = Some [Mesh_triangle outerM m 0 0 0 0; Mesh_triangle outerM m 0 0 0 1]).
Proof.
  intros outerM m Hsp Hh.
  pose proof (Mesh_getSurfaceFragments_spec outerM m Hsp Hh) as Hspec.
  split; [exact Hspec|]. split; [|split].
  - intros i1 i2. unfold Mesh_cell_triangles. cbn [flat_map].
    now rewrite app_nil_r.
  - intros i1 i2 tri. unfold Mesh_triangle_test.
    destruct (tidxs (Z.to_nat ((i1 + i2) mod 2)) tri) as [[a b] c].
    intros H. apply Vec4_isfinite_add in H. destruct H as [H Hc].
    apply Vec4_isfinite_add in H. tauto.
  - intros E1 E2 T0 T1. rewrite Hspec. unfold Mesh_surface_triangles.
    rewrite E1, E2. cbn [Z.of_nat Pos.of_succ_nat Pos.succ Z.sub Z.add Z.opp
                         Z.pos_sub Pos.pred_double].
    change (upto 1) with [0]. cbn [flat_map]. rewrite !app_nil_r.
    unfold Mesh_cell_triangles. cbn [flat_map]. rewrite T0, T1, E2.
    reflexivity.
Qed.

Lemma Mesh_surface_tessellation_witness :
  Mesh_getSurfaceFragments identityM4 (small_mesh 1%float)
  = Some (Mesh_surface_triangles identityM4 (small_mesh 1%float))
  /\ length (Mesh_surface_triangles identityM4 (small_mesh 1%float)) = 2%nat.
Proof.
  split.
  - assert (Hsp : mesh_surfaceprop (small_mesh 1%float) <> None)
      by discriminate.
    assert (Hh : Z.of_nat (length (pos1 (small_mesh 1%float)))
                 * Z.of_nat (length (pos2 (small_mesh 1%float)))
                 <= Z.of_nat (length (heights (small_mesh 1%float))))
      by (cbn; lia).
    exact (proj1 (Mesh_surface_tessellation identityM4 (small_mesh 1%float)
                    Hsp Hh)).
  - vm_compute. reflexivity.
Defined.

(** C6, as stated, fails: every coordinate and height of this one-cell
    grid is finite, and so is every corner point, but the sums of three
    heights overflow and no triangle is emitted. *)
Lemma finite_corners_overflowing_sum :
  let m := small_mesh 0x1p+1023%float in
  forallb d_isfinite (pos1 m ++ pos2 m ++ heights m) = true
  /\ forallb (fun i => Vec4_isfinite (Mesh_corner_point m 0 0 i))
             [0; 1; 2; 3]%nat = true
  /\ Mesh_getSurfaceFragments identityM4 m = Some [].
Proof. vm_compute. repeat split. Qed.

(** ** Which producers filter non-finite points *)

Lemma used_points_finite_both (f : Fragment) :
  Vec3_isfinite (points0 f) = true -> Vec3_isfinite (points1 f) = true ->
  used_points_finite f.
Proof. unfold used_points_finite. destruct (ftype f); auto. Qed.

Lemma used_points_finite_triangle (f : Fragment) :
  ftype f = FR_TRIANGLE -> used_points_finite f.
Proof. unfold used_points_finite. now intros ->. Qed.

(** A loop whose rounds keep [I] and push only fragments satisfying [P]
    pushes only such fragments. *)
Lemma loopM_Forall {S A F} (I : S -> Prop) (P : F -> Prop)
  (body : A -> S -> option (S * list F)) (l : list A) :
  (forall a st st' out,
     I st -> body a st = Some (st', out) -> I st' /\ Forall P out) ->
  forall st st' out,
    I st -> loopM body l st = Some (st', out) -> I st' /\ Forall P out.
Proof.
  intros Hbody. induction l as [|a l IH]; intros st st' out HI E.
  - cbn in E. injection E as <- <-. split; [exact HI|constructor].
  - cbn [loopM] in E.
    destruct (body a st) as [[st1 out1]|] eqn:E1; [|discriminate].
    cbn [bind fst snd] in E.
    destruct (loopM body l st1) as [[st2 out2]|] eqn:E2; [|discriminate].
    cbn [bind fst snd] in E. injection E as <- <-.
    destruct (Hbody a st st1 out1 HI E1) as [HI1 HP1].
    destruct (IH st1 st2 out2 HI1 E2) as [HI2 HP2].
    split; [exact HI2|]. apply Forall_app. split; assumption.
Qed.

Lemma PolyLine_filters (outerM : Mat4) (p : PolyLine) :
  Forall used_points_finite (PolyLine_getFragments outerM p).
Proof.
  unfold PolyLine_getFragments.
  generalize (mkFragment FR_LINESEG Vec3_zero Vec3_zero Vec3_zero None
                         (pl_lineprop p) None 0%float 0).
  generalize 0%nat.
  induction (pl_points p) as [|q pts IH]; intros i f; [constructor|].
  cbn [PolyLine_loop]. apply Forall_app. split; [|apply IH].
  destruct (0 <? i)%nat; cbn [andb]; [|constructor].
  destruct (Vec3_isfinite _) eqn:E; constructor; [|constructor].
  apply Vec3_isfinite_add in E. destruct E as [E0 E1].
  apply used_points_finite_both; assumption.
Qed.

Lemma Mesh_lines_filter (outerM : Mat4) (m : Mesh) (out : FragmentVector) :
  Mesh_getLineFragments outerM m = Some out -> Forall used_points_finite out.
Proof.
  unfold Mesh_getLineFragments.
  destruct (mesh_lineprop m); [|intros [= <-]; constructor].
  destruct (getVecIdxs (dirn m)) as [[vidx_h vidx_1] vidx_2].
  match goal with
  | |- bind ?l _ = _ -> _ => destruct l as [[st o]|] eqn:E; [|discriminate]
  end.
  cbn [bind snd]. intros [= <-].
  apply (loopM_Forall (fun _ => True) used_points_finite) in E;
    [exact (proj2 E)| |exact I].
  intros stepindex st0 st1 out1 _ E1.
  apply (loopM_Forall (fun _ => True) used_points_finite) in E1;
    [exact E1| |exact I].
  intros [consti vconst] [pt fl] st2 out2 _ E2.
  unfold Mesh_line_walk in E2.
  apply (loopM_Forall (fun _ => True) used_points_finite) in E2;
    [exact E2| |exact I].
  intros [stepi vstep] [pt' fl'] st3 out3 _ E3. split; [exact I|].
  unfold Mesh_line_step in E3.
  destruct (vget (heights m) _); [|discriminate]. cbn [bind] in E3.
  injection E3 as _ <-.
  destruct (0 <? stepi); cbn [andb]; [|constructor].
  destruct (Vec3_isfinite _) eqn:Ef; constructor; [|constructor].
  apply Vec3_isfinite_add in Ef. destruct Ef as [E0 E1'].
  apply used_points_finite_both; assumption.
Qed.

Lemma Mesh_surface_triangles_only (outerM : Mat4) (m : Mesh)
  (out : FragmentVector) :
  Mesh_getSurfaceFragments outerM m = Some out ->
  Forall (fun f => ftype f = FR_TRIANGLE) out.
Proof.
  unfold Mesh_getSurfaceFragments.
  destruct (mesh_surfaceprop m); [|intros [= <-]; constructor].
  match goal with
  | |- bind ?l _ = _ -> _ => destruct l as [[st o]|] eqn:E; [|discriminate]
  end.
  cbn [bind snd]. intros [= <-].
  apply (loopM_Forall (fun st : list Vec4 * Fragment =>
                         ftype (snd st) = FR_TRIANGLE)
                      (fun f => ftype f = FR_TRIANGLE)) in E;
    [exact (proj2 E)| |reflexivity].
  intros i1 st0 st1 out1 H0 E1.
  apply (loopM_Forall (fun st : list Vec4 * Fragment =>
                         ftype (snd st) = FR_TRIANGLE)
                      (fun f => ftype f = FR_TRIANGLE)) in E1;
    [exact E1| |exact H0].
  intros i2 [p fs] st2 out2 Hfs E2. cbn [snd] in Hfs.
  unfold Mesh_cell in E2.
  destruct (loopM (Mesh_corner _ _ _ _ _ _) _ _) as [[[p' pproj] o']|];
    [|discriminate].
  cbn [bind fst] in E2.
  destruct (loopM (Mesh_cell_triangle _ _ _ _) _ _) as [[fs' o2]|] eqn:E3;
    [|discriminate].
  cbn [bind fst snd] in E2. injection E2 as <- <-.
  apply (loopM_Forall (fun fs => ftype fs = FR_TRIANGLE)
                      (fun f => ftype f = FR_TRIANGLE)) in E3;
    [exact E3| |exact Hfs].
  intros tri fs0 fs1 o3 Hf0 E4. unfold Mesh_cell_triangle in E4.
  destruct (tidxs _ tri) as [[a b] c].
  destruct (Vec4_isfinite _); injection E4 as <- <-.
  - split; [exact Hf0|]. constructor; [exact Hf0|constructor].
  - split; [exact Hf0|constructor].
Qed.

Lemma DataMesh_filters (outerM : Mat4) (dm : DataMesh) (r : Emitted) :
  DataMesh_getFragments outerM dm = Some r ->
  Forall used_points_finite (frags r).
Proof.
  unfold DataMesh_getFragments.
  destruct (negb (check_indices _)); [intros [= <-]; constructor|].
  destruct (negb (check_sizes dm)); [intros [= <-]; constructor|].
  set (ft := mkFragment FR_TRIANGLE Vec3_zero Vec3_zero Vec3_zero
                        (dm_surfaceprop dm) None None 0%float 0).
  set (fl := mkFragment FR_LINESEG Vec3_zero Vec3_zero Vec3_zero
                        None (dm_lineprop dm) None 0%float 0).
  assert (G : forall l0 st,
             r0 <- loopM (fun i1 st =>
                      loopM (fun i2 st =>
                               DataMesh_cell outerM dm ft fl
                                 (int_sub (int_of_size (length (edges1 dm))) 1)
                                 (int_sub (int_of_size (length (edges2 dm))) 1)
                                 i1 i2 st) l0 st)
                   (upto (int_sub (int_of_size (length (edges1 dm))) 1)) st ;;
             Some (emit (snd r0)) = Some r ->
             Forall used_points_finite (frags r)).
  { intros l0 st0.
    match goal with
    | |- bind ?l _ = _ -> _ => destruct l as [[st o]|] eqn:E; [|discriminate]
    end.
    cbn [bind snd]. intros [= <-]. cbn [frags emit].
    apply (loopM_Forall (fun _ => True) used_points_finite) in E;
      [exact (proj2 E)| |exact I].
    intros i1 st1 st2 out1 _ E1.
    apply (loopM_Forall (fun _ => True) used_points_finite) in E1;
      [exact E1| |exact I].
    intros i2 [corners tracker] st3 out2 _ E2. split; [exact I|].
    unfold DataMesh_cell in E2.
    destruct (vget (vals dm) _) as [v|]; [|discriminate]. cbn [bind] in E2.
    destruct (negb (d_isfinite v)); [injection E2 as _ <-; constructor|].
    destruct (DataMesh_cell_corners _ _ _ _ _ _) as [corners'|];
      [|discriminate].
    cbn [bind] in E2.
    match type of E2 with
    | bind ?l _ = _ => destruct l as [[tracker' lines]|] eqn:El; [|discriminate]
    end.
    cbn [bind fst snd] in E2. injection E2 as _ <-.
    apply Forall_app. split.
    - change (surfaceprop ft) with (dm_surfaceprop dm).
      destruct (dm_surfaceprop dm); [|constructor].
      unfold DataMesh_triangles. apply Forall_forall. intros f Hf.
      apply in_map_iff in Hf. destruct Hf as [[[a b] c] [<- _]].
      apply used_points_finite_triangle. reflexivity.
    - change (lineprop fl) with (dm_lineprop dm) in El.
      destruct (dm_lineprop dm); [|injection El as _ <-; constructor].
      apply (loopM_Forall (fun _ => True) used_points_finite) in El;
        [exact (proj2 El)| |exact I].
      intros i t t' pushed _ E3. split; [exact I|].
      unfold DataMesh_line in E3.
      destruct (nth i (linecells_of (highres dm)) (0, 0, 0))
        as [[xidx yidx] lineidx].
      destruct (nth i (lines_of (highres dm)) (0%nat, 0%nat)) as [a b].
      destruct (isLineSet t _ _ _) as [[|]|]; [| |discriminate];
        cbn [bind] in E3.
      + injection E3 as _ <-. constructor.
      + destruct (setLine t _ _ _); [|discriminate]. cbn [bind] in E3.
        injection E3 as _ <-.
        destruct (Vec3_isfinite _ && Vec3_isfinite _) eqn:Ef;
          constructor; [|constructor].
        apply andb_true_iff in Ef. destruct Ef.
        apply used_points_finite_both; assumption. }
  destruct (dm_lineprop dm), (dm_surfaceprop dm);
    try apply G. intros [= <-]. constructor.
Qed.

Lemma Points_loop_filters (outerM : Mat4) (hassizes : bool) :
  forall (x y z sizes : ValVector) (i : Z) (fp : Fragment),
    ftype fp = FR_PATH ->
    Forall used_points_finite
           (Points_loop outerM hassizes x y z sizes i fp).
Proof.
  induction x as [|a x IH]; intros y z sizes i fp Hf; [constructor|].
  destruct y as [|b y], z as [|c z]; try constructor.
  cbn [Points_loop].
  assert (Hstep : forall fp',
             ftype fp' = FR_PATH ->
             Forall used_points_finite
               ((if Vec3_isfinite (points0 fp') then [fp'] else [])
                ++ Points_loop outerM hassizes x y z (tl sizes) (i + 1) fp')).
  { intros fp' Hf'. apply Forall_app. split; [|now apply IH].
    destruct (Vec3_isfinite (points0 fp')) eqn:E; constructor; [|constructor].
    unfold used_points_finite. now rewrite Hf'. }
  destruct hassizes, sizes as [|s sizes]; try constructor;
    apply Hstep; exact Hf.
Qed.

Lemma Points_filters (outerM : Mat4) (p : Points) :
  Forall used_points_finite (Points_getFragments outerM p).
Proof. apply Points_loop_filters. reflexivity. Qed.

(** Induction over the scene tree, through the children of containers. *)
Section ObjectInduction.

Variable P : Object -> Prop.
Hypothesis Hleaf :
  forall o,
    match o with
    | ObjectContainer _ _ | FacingContainer _ _ _ => False
    | _ => True
    end -> P o.
Hypothesis Hcontainer :
  forall objM objects, Forall P objects -> P (ObjectContainer objM objects).
Hypothesis Hfacing :
  forall norm objM objects,
    Forall P objects -> P (FacingContainer norm objM objects).

Lemma Object_tree_ind (o : Object) : P o.
Proof.
  revert o.
  exact (fix tree (o : Object) : P o :=
     let children :=
       fix go (l : list Object) : Forall P l :=
         match l with
         | [] => Forall_nil P
         | x :: t => Forall_cons x (tree x) (go t)
         end in
     match o with
     | ObjectContainer objM objects => Hcontainer objM objects (children objects)
     | FacingContainer norm objM objects =>
         Hfacing norm objM objects (children objects)
     | BaseObject => Hleaf BaseObject I
     | TriangleObject t => Hleaf (TriangleObject t) I
     | PolyLineObject p => Hleaf (PolyLineObject p) I
     | LineSegmentsObject l => Hleaf (LineSegmentsObject l) I
     | MeshObject m => Hleaf (MeshObject m) I
     | DataMeshObject d => Hleaf (DataMeshObject d) I
     | PointsObject p => Hleaf (PointsObject p) I
     | TextObject t => Hleaf (TextObject t) I
     | TriangleFacingObject t => Hleaf (TriangleFacingObject t) I
     | AxisTickLabelsObject a => Hleaf (AxisTickLabelsObject a) I
      end).
Qed.

End ObjectInduction.

Lemma children_filter twod (M : Mat4) (objects : list Object) :
  Forall (fun o => forall outerM r,
            filters_points o = true ->
            getFragments twod outerM o = Some r ->
            Forall used_points_finite (frags r)) objects ->
  forall r,
    forallb filters_points objects = true ->
    children_getFragments (getFragments twod M) objects = Some r ->
    Forall used_points_finite (frags r).
Proof.
  induction 1 as [|o objects Ho _ IH]; intros r Hf E.
  - cbn in E. injection E as <-. constructor.
  - cbn [forallb] in Hf. apply andb_true_iff in Hf. destruct Hf as [Hf1 Hf2].
    cbn [children_getFragments] in E.
    destruct (getFragments twod M o) as [a|] eqn:Ea; [|discriminate].
    cbn [bind] in E.
    destruct (children_getFragments (getFragments twod M) objects) as [b|];
      [|discriminate].
    cbn [bind] in E. injection E as <-. cbn [Emitted_app frags].
    apply Forall_app. split; [exact (Ho M a Hf1 Ea)|exact (IH b Hf2 eq_refl)].
Qed.

(** *** The producers that do not filter *)

Lemma LineSegments_loop_count (outerM : Mat4) :
  forall (n : nat) (pts : list Vec3) (i : Z) (f : Fragment)
         (out : FragmentVector),
    (length pts <= n)%nat ->
    LineSegments_loop outerM pts i f = Some out ->
    (2 * length out = length pts)%nat.
Proof.
  induction n as [|n IH]; intros pts i f out Hn E.
  - destruct pts; [|cbn in Hn; lia]. cbn in E. now injection E as <-.
  - destruct pts as [|p [|q rest]]; cbn [LineSegments_loop] in E.
    + now injection E as <-.
    + discriminate.
    + destruct (LineSegments_loop outerM rest _ _) as [out'|] eqn:E';
        [|discriminate].
      cbn [bind] in E. injection E as <-.
      apply IH in E'; [|cbn [length] in Hn; lia].
      cbn [length]. lia.
Qed.

Lemma loopM_one_each {S A F} (body : A -> S -> option (S * list F))
  (l : list A) :
  (forall a st st' out, body a st = Some (st', out) -> length out = 1%nat) ->
  forall st st' out,
    loopM body l st = Some (st', out) -> length out = length l.
Proof.
  intros Hbody. induction l as [|a l IH]; intros st st' out E.
  - cbn in E. now injection E as _ <-.
  - cbn [loopM] in E.
    destruct (body a st) as [[st1 out1]|] eqn:E1; [|discriminate].
    cbn [bind fst snd] in E.
    destruct (loopM body l st1) as [[st2 out2]|] eqn:E2; [|discriminate].
    cbn [bind fst snd] in E. injection E as _ <-.
    rewrite length_app, (Hbody _ _ _ _ E1), (IH _ _ _ E2). reflexivity.
Qed.

Lemma Text_count (outerM : Mat4) (t : Text) (out : FragmentVector) :
  Text_getFragments outerM t = Some out ->
  Z.of_nat (length out)
  = Z.of_nat (Nat.min (length (text_pos1 t)) (length (text_pos2 t))) / 3.
Proof.
  unfold Text_getFragments.
  match goal with
  | |- bind ?l _ = _ -> _ => destruct l as [[st o]|] eqn:E; [|discriminate]
  end.
  cbn [bind snd]. intros [= <-].
  apply loopM_one_each in E.
  - rewrite E, upto_length.
    pose proof (Z.div_pos (Z.of_nat (Nat.min (length (text_pos1 t))
                                             (length (text_pos2 t)))) 3).
    lia.
  - intros i s0 s1 pushed Ei. unfold Text_item in Ei.
    repeat match type of Ei with
           | bind ?m _ = _ => destruct m; [cbn [bind] in Ei|discriminate]
           end.
    now injection Ei as _ <-.
Qed.

(** C4, as amended: every line segment and path marker appended by an
    object other than [LineSegments], [Text] and [AxisTickLabels] (alone
    or under containers) has finite used points; those three append their
    fragments without a finiteness test, as triangles are appended by
    [Triangle], [TriangleFacing] and [DataMesh]. *)
Theorem filtering_producers_emit_finite_points :
  forall twod (o : Object) (outerM : Mat4) (r : Emitted),
    filters_points o = true ->
    getFragments twod outerM o = Some r ->
    Forall used_points_finite (frags r).
Proof.
  intros twod o. induction o using Object_tree_ind; intros outerM r Hf E.
  - destruct o; try contradiction; try discriminate Hf; cbn [getFragments] in E.
    + injection E as <-. constructor.
    + injection E as <-. cbn [frags emit].
      repeat constructor.
    + injection E as <-. apply PolyLine_filters.
    + unfold lift in E.
      destruct (Mesh_getFragments outerM m) as [v|] eqn:Em; [|discriminate].
      cbn in E. injection E as <-. cbn [frags emit].
      unfold Mesh_getFragments in Em.
      destruct (Mesh_getLineFragments outerM m) as [l|] eqn:El; [|discriminate].
      destruct (Mesh_getSurfaceFragments outerM m) as [s|] eqn:Es;
        [|discriminate].
      cbn [bind] in Em. injection Em as <-.
      apply Forall_app. split.
      * exact (Mesh_lines_filter outerM m l El).
      * eapply Forall_impl; [|exact (Mesh_surface_triangles_only outerM m s Es)].
        intros f. apply used_points_finite_triangle.
    + exact (DataMesh_filters outerM d r E).
    + injection E as <-. apply Points_filters.
    + injection E as <-. cbn [frags emit].
      unfold TriangleFacing_getFragments.
      destruct (facing outerM (Triangle_norm t)); repeat constructor.
  - cbn [filters_points] in Hf. cbn [getFragments] in E.
    exact (children_filter twod _ objects H r Hf E).
  - cbn [filters_points] in Hf. cbn [getFragments] in E.
    destruct (facing outerM norm).
    + exact (children_filter twod _ objects H r Hf E).
    + injection E as <-. constructor.
Qed.

Lemma filtering_producers_emit_finite_points_witness :
  Forall used_points_finite
    (PolyLine_getFragments identityM4
       (mkPolyLine [mkVec3 0 0 0; mkVec3 1 0 0]%float (Some 0%nat))).
Proof.
  exact (filtering_producers_emit_finite_points TwoD.twodLineIntersect
           (ObjectContainer identityM4
              [PolyLineObject
                 (mkPolyLine [mkVec3 0 0 0; mkVec3 1 0 0]%float (Some 0%nat))])
           identityM4
           (emit (PolyLine_getFragments identityM4
                    (mkPolyLine [mkVec3 0 0 0; mkVec3 1 0 0]%float
                                (Some 0%nat))))
           eq_refl eq_refl).
Defined.

(** C4, as stated, fails: [LineSegments] appends the segment from an
    infinite point, and [Text] the marker at an infinite anchor. *)
Lemma LineSegments_emit_nonfinite_points :
  let l := mkLineSegments [mkVec3 infinity 0 0; mkVec3 1 0 0]%float
                          (Some 0%nat) in
  let t := mkText [infinity; 0; 0]%float [1; 0; 0]%float in
  (exists f,
     getFragments TwoD.twodLineIntersect identityM4 (LineSegmentsObject l)
     = Some (emit [f])
     /\ ftype f = FR_LINESEG /\ Vec3_isfinite (points0 f) = false)
  /\ (exists f,
        getFragments TwoD.twodLineIntersect identityM4 (TextObject t)
        = Some (emit [f])
        /\ ftype f = FR_PATH /\ Vec3_isfinite (points0 f) = false).
Proof.
  cbv zeta. split; eexists; (split; [vm_compute; reflexivity|]);
    split; reflexivity.
Qed.

(** ** DataMesh: the tracker of drawn lines *)

Section Tracker.

(** The dimensions the tracker is created with. *)
Variables N1 N2 : Z.
Hypothesis HN1 : 0 <= N1.
Hypothesis HN2 : 0 <= N2.
Hypothesis Hfit : N1 * N2 * MAXLINEIDX < 2 ^ 32.

Lemma key_slot_range (k : Z * Z * Z) :
  key_in_range N1 N2 k -> 0 <= key_slot N2 k < N1 * N2 * MAXLINEIDX.
Proof.
  destruct k as [[a b] l]. unfold key_in_range, key_slot, MAXLINEIDX.
  intros (Ha & Hb & Hl).
  assert (a * N2 + b < N1 * N2) by nia.
  assert (0 <= a * N2) by nia.
  lia.
Qed.

Lemma key_slot_inj (k k' : Z * Z * Z) :
  key_in_range N1 N2 k -> key_in_range N1 N2 k' -> key_slot N2 k = key_slot N2 k' -> k = k'.
Proof.
  destruct k as [[a b] l], k' as [[a' b'] l'].
  unfold key_in_range, key_slot, MAXLINEIDX.
  intros (Ha & Hb & Hl) (Ha' & Hb' & Hl') E.
  assert (E1 : a * N2 + b = a' * N2 + b' /\ l = l') by lia.
  destruct E1 as [E1 ->].
  assert (a = a').
  { destruct (Z.lt_trichotomy a a') as [Hlt|[Heq|Hgt]]; [|exact Heq|].
    - assert ((a + 1) * N2 <= a' * N2) by nia. lia.
    - assert ((a' + 1) * N2 <= a * N2) by nia. lia. }
  subst a'. assert (b = b') by lia. now subst.
Qed.

Lemma tracks_ext (t : LineCellTracker) (P Q : Z * Z * Z -> Prop) :
  (forall k, key_in_range N1 N2 k -> (P k <-> Q k)) -> tracks N1 N2 t P -> tracks N1 N2 t Q.
Proof.
  intros HPQ (E1 & E2 & El & H). repeat split; auto.
  - intros Hn. apply HPQ; auto. now apply H.
  - intros Hq. apply H; auto. now apply HPQ.
Qed.

Lemma tracks_new : tracks N1 N2 (LineCellTracker_new N1 N2) (fun _ => False).
Proof.
  unfold tracks, LineCellTracker_new. cbn [lct_n1 lct_n2 lct_data].
  assert (0 <= N1 * N2 * MAXLINEIDX) by (unfold MAXLINEIDX; nia).
  rewrite wrap_unsigned_small by lia.
  split; [reflexivity|]. split; [reflexivity|]. split.
  - rewrite repeat_length. lia.
  - intros k _. rewrite nth_repeat. split; [discriminate|contradiction].
Qed.

Lemma tracker_index_slot (t : LineCellTracker) (a b l : Z) :
  lct_n2 t = N2 -> key_in_range N1 N2 (a, b, l) ->
  LineCellTracker_index t a b l = key_slot N2 (a, b, l).
Proof.
  intros E2 Hk. unfold LineCellTracker_index. rewrite E2.
  pose proof (key_slot_range (a, b, l) Hk) as Hr. cbn [key_slot] in *.
  apply wrap_unsigned_small. lia.
Qed.

Lemma tracks_isLineSet (t : LineCellTracker) (P : Z * Z * Z -> Prop)
  (a b l : Z) :
  tracks N1 N2 t P -> key_in_range N1 N2 (a, b, l) ->
  exists drawn, isLineSet t a b l = Some drawn /\ (drawn = true <-> P (a, b, l)).
Proof.
  intros (E1 & E2 & El & H) Hk. unfold isLineSet.
  rewrite (tracker_index_slot t a b l E2 Hk).
  pose proof (key_slot_range (a, b, l) Hk) as Hr.
  rewrite (vget_nth _ _ false) by lia.
  eexists. split; [reflexivity|]. now apply H.
Qed.

Lemma tracks_setLine (t : LineCellTracker) (P : Z * Z * Z -> Prop)
  (a b l : Z) :
  tracks N1 N2 t P -> key_in_range N1 N2 (a, b, l) ->
  exists t', setLine t a b l = Some t'
             /\ tracks N1 N2 t' (fun k => P k \/ k = (a, b, l)).
Proof.
  intros (E1 & E2 & El & H) Hk. unfold setLine.
  rewrite (tracker_index_slot t a b l E2 Hk).
  pose proof (key_slot_range (a, b, l) Hk) as Hr.
  destruct (Z.ltb_spec (key_slot N2 (a, b, l)) (Z.of_nat (length (lct_data t))));
    [|lia].
  eexists. split; [reflexivity|].
  unfold tracks. cbn [lct_n1 lct_n2 lct_data]. rewrite set_nth_length.
  repeat split; auto.
  - intros Hn.
    destruct (Z.eq_dec (key_slot N2 k) (key_slot N2 (a, b, l))) as [Es|Es].
    + right. now apply key_slot_inj.
    + left. apply H; auto.
      rewrite nth_set_nth_neq in Hn; auto.
      pose proof (key_slot_range k H1). lia.
  - intros [Hp| ->].
    + destruct (Z.eq_dec (key_slot N2 k) (key_slot N2 (a, b, l))) as [Es|Es].
      * rewrite Es. apply nth_set_nth_eq. lia.
      * rewrite nth_set_nth_neq; [now apply H|].
        pose proof (key_slot_range k H1). lia.
    + apply nth_set_nth_eq. lia.
Qed.

End Tracker.

(** ** DataMesh: which cell draws which line *)

Ltac line_cases j :=
  repeat (destruct j as [|j]; [|try (exfalso; cbn in *; lia)]);
  try (exfalso; cbn in *; lia).

Lemma DataMesh_keys_distinct (hr : bool) (i1 i2 : Z) (j j' : nat) :
  (j < nlines_of hr)%nat -> (j' < nlines_of hr)%nat ->
  DataMesh_key hr i1 i2 j = DataMesh_key hr i1 i2 j' -> j = j'.
Proof.
  intros Hj Hj' E. destruct hr; cbn [nlines_of] in Hj, Hj';
    line_cases j; line_cases j'; try reflexivity;
    cbn in E; injection E; intros; exfalso; lia.
Qed.

Lemma seen_before_draws (hr : bool) (n2 i1 i2 : Z) (j : nat) :
  0 <= i1 -> 0 <= i2 < n2 -> (j < nlines_of hr)%nat ->
  (seen_before hr n2 i1 i2 (DataMesh_key hr i1 i2 j)
   <-> draws_line hr i1 i2 j = false).
Proof.
  intros H1 H2 Hj. split.
  - intros (a & b & j' & Ha & Hb & Hlt & Hj' & E).
    destruct hr; cbn [nlines_of] in Hj, Hj';
      line_cases j; line_cases j';
      cbn in E; injection E; intros; cbn [draws_line];
      first [apply Z.eqb_neq; lia | exfalso; lia].
  - intros Hd. unfold seen_before.
    destruct hr; cbn [nlines_of] in Hj; line_cases j;
      cbn [draws_line] in Hd; try discriminate Hd;
      apply Z.eqb_neq in Hd.
    + exists i1, (i2 - 1), 5%nat. cbn. repeat split; try lia. f_equal; f_equal; lia.
    + exists i1, (i2 - 1), 4%nat. cbn. repeat split; try lia. f_equal; f_equal; lia.
    + exists (i1 - 1), i2, 3%nat. cbn. repeat split; try lia. f_equal; f_equal; lia.
    + exists (i1 - 1), i2, 2%nat. cbn. repeat split; try lia. f_equal; f_equal; lia.
    + exists i1, (i2 - 1), 2%nat. cbn. repeat split; try lia. f_equal; f_equal; lia.
    + exists (i1 - 1), i2, 3%nat. cbn. repeat split; try lia. f_equal; f_equal; lia.
Qed.

Lemma seen_before_start (hr : bool) (n2 : Z) (k : Z * Z * Z) :
  seen_before hr n2 0 0 k <-> False.
Proof.
  split; [|contradiction]. intros (a & b & j & Ha & Hb & Hlt & _). lia.
Qed.

Lemma seen_before_next_cell (hr : bool) (n2 i1 i2 : Z) (k : Z * Z * Z) :
  0 <= i1 -> 0 <= i2 < n2 ->
  (seen_before hr n2 i1 i2 k
   \/ (exists j, (j < nlines_of hr)%nat /\ k = DataMesh_key hr i1 i2 j))
  <-> seen_before hr n2 i1 (i2 + 1) k.
Proof.
  intros H1 H2. split.
  - intros [(a & b & j & Ha & Hb & Hlt & Hj & E)|(j & Hj & ->)].
    + exists a, b, j. repeat split; auto; lia.
    + exists i1, i2, j. repeat split; auto; lia.
  - intros (a & b & j & Ha & Hb & Hlt & Hj & E).
    destruct (Z.eq_dec a i1) as [->|Hne].
    + destruct (Z.eq_dec b i2) as [->|Hnb].
      * right. exists j. split; auto.
      * left. exists i1, b, j. repeat split; auto; lia.
    + left. exists a, b, j. repeat split; auto; lia.
Qed.

Lemma seen_before_next_row (hr : bool) (n2 i1 : Z) (k : Z * Z * Z) :
  seen_before hr n2 i1 n2 k <-> seen_before hr n2 (i1 + 1) 0 k.
Proof.
  split; intros (a & b & j & Ha & Hb & Hlt & Hj & E);
    exists a, b, j; repeat split; auto; lia.
Qed.

Lemma flat_map_singletons {A B} (p : A -> bool) (f : A -> B) (l : list A) :
  flat_map (fun x => if p x then [f x] else []) l = map f (filter p l).
Proof.
  induction l as [|a l IH]; [reflexivity|].
  cbn [flat_map filter]. destruct (p a); cbn [map app]; now rewrite IH.
Qed.

(** ** DataMesh: the fragments of a valid mesh *)

Lemma DataMesh_corners_fresh (a b c : nat) (corners : list Vec4)
  (neigh : list double) (e1a e1b e2a e2b : double) :
  check_indices [a; b; c] = true -> corners_ok corners ->
  DataMesh_corners (a, b, c) corners neigh e1a e1b e2a e2b
  = DataMesh_corners (a, b, c) (repeat Vec4_origin 9) neigh e1a e1b e2a e2b
  /\ corners_ok (DataMesh_corners (a, b, c) corners neigh e1a e1b e2a e2b).
Proof.
  intros Hidx [Hlen Hw].
  do 9 (destruct corners as [|? corners]; [discriminate Hlen|]).
  destruct corners; [clear Hlen|discriminate Hlen].
  repeat match goal with
         | H : Forall _ (_ :: _) |- _ => inversion_clear H
         end.
  repeat match goal with
         | v : Vec4 |- _ => destruct v
         end.
  cbn [v4w] in *. subst.
  destruct a as [|[|[|a]]], b as [|[|[|b]]], c as [|[|[|c]]];
    try discriminate Hidx;
    (split; [reflexivity|split; [reflexivity|repeat constructor]]).
Qed.

Lemma mapM_total {A B} (f : A -> option B) (l : list A) :
  Forall (fun a => exists b, f a = Some b) l -> exists bs, mapM f l = Some bs.
Proof.
  induction 1 as [|a l [b Eb] _ [bs Ebs]].
  - now exists [].
  - exists (b :: bs). cbn [mapM]. now rewrite Eb, Ebs.
Qed.

Lemma linecells_bounds (hr : bool) (j : nat) :
  (j < nlines_of hr)%nat ->
  let '(xidx, yidx, lineidx) := nth j (linecells_of hr) (0, 0, 0) in
  0 <= xidx <= 1 /\ 0 <= yidx <= 1 /\ 0 <= lineidx < MAXLINEIDX.
Proof.
  intros Hj. unfold MAXLINEIDX.
  destruct hr; cbn [nlines_of] in Hj; line_cases j; cbn; lia.
Qed.

Lemma filter_flat_map {A B} (p : B -> bool) (f : A -> list B) (l : list A) :
  filter p (flat_map f l) = flat_map (fun x => filter p (f x)) l.
Proof.
  induction l as [|a l IH]; [reflexivity|].
  cbn [flat_map]. now rewrite filter_app, IH.
Qed.

Lemma map_flat_map {A B C} (g : B -> C) (f : A -> list B) (l : list A) :
  map g (flat_map f l) = flat_map (fun x => map g (f x)) l.
Proof.
  induction l as [|a l IH]; [reflexivity|].
  cbn [flat_map]. now rewrite map_app, IH.
Qed.

Section DataMeshRun.

Variables (outerM : Mat4) (dm : DataMesh).

Local Abbreviation N1 := (Z.of_nat (length (edges1 dm))).
Local Abbreviation N2 := (Z.of_nat (length (edges2 dm))).
Local Abbreviation n1 := (DataMesh_n1 dm).
Local Abbreviation n2 := (DataMesh_n2 dm).
Local Abbreviation hr := (highres dm).

Hypothesis Hidx : check_indices [idxval dm; idxedge1 dm; idxedge2 dm] = true.
Hypothesis Hint : sizes_fit_int dm.
Hypothesis Hsizes : check_sizes dm = true.
Hypothesis Htrack : N1 * N2 * MAXLINEIDX < 2 ^ 32.
Hypothesis Hvals : forallb d_isfinite (vals dm) = true.
Hypothesis Hfin : DataMesh_lines_finite outerM dm = true.

Lemma DataMesh_dims :
  n1 = N1 - 1 /\ n2 = N2 - 1
  /\ (N1 - 1) * (N2 - 1) = Z.of_nat (length (vals dm))
  /\ (N1 - 1) * (N2 - 1) < 2 ^ 31 /\ N1 < 2 ^ 31 /\ N2 < 2 ^ 31.
Proof.
  pose proof Hint as (H1 & H2 & H3 & H4). unfold INT_MAX in *.
  pose proof Hsizes as Hs. rewrite (check_sizes_exact dm Hint) in Hs.
  apply Z.eqb_eq in Hs.
  unfold DataMesh_n1, DataMesh_n2, int_sub, int_of_size.
  rewrite !(wrap_int_small (Z.of_nat _)) by lia.
  rewrite !wrap_int_small by lia. lia.
Qed.

Lemma DataMesh_cell_index (i1 i2 : Z) :
  0 <= i1 < n1 -> 0 <= i2 < n2 ->
  int_add (int_mul i1 n2) i2 = i1 * n2 + i2
  /\ 0 <= i1 * n2 + i2 < Z.of_nat (length (vals dm)).
Proof.
  intros H1 H2. pose proof DataMesh_dims as (E1 & E2 & Ev & Hb & _).
  rewrite E1, E2 in *.
  assert (0 <= i1 * (N2 - 1)) by nia.
  assert (i1 * (N2 - 1) + i2 < (N1 - 1) * (N2 - 1)) by nia.
  unfold int_add, int_mul. rewrite (wrap_int_small (i1 * _)) by lia.
  rewrite wrap_int_small by lia. lia.
Qed.

Lemma DataMesh_neigh_read (i1 i2 d1 d2 : Z) :
  0 <= i1 < n1 -> 0 <= i2 < n2 -> -1 <= d1 <= 1 -> -1 <= d2 <= 1 ->
  exists v,
    vget (vals dm)
         (int_add (int_mul (clip (int_add i1 d1) (int_sub n1 1)) n2)
                  (clip (int_add i2 d2) (int_sub n2 1))) = Some v.
Proof.
  intros H1 H2 Hd1 Hd2.
  pose proof DataMesh_dims as (E1 & E2 & Ev & Hb & Hb1 & Hb2).
  rewrite E1, E2 in *.
  unfold int_add at 2 3, int_sub.
  rewrite !wrap_int_small by lia.
  unfold clip.
  set (c1 := Z.max (Z.min (i1 + d1) (N1 - 1 - 1)) 0).
  set (c2 := Z.max (Z.min (i2 + d2) (N2 - 1 - 1)) 0).
  assert (0 <= c1 <= N1 - 1 - 1) by lia.
  assert (0 <= c2 <= N2 - 1 - 1) by lia.
  assert (0 <= c1 * (N2 - 1)) by nia.
  assert (c1 * (N2 - 1) + c2 < (N1 - 1) * (N2 - 1)) by nia.
  unfold int_add, int_mul. rewrite (wrap_int_small (c1 * _)) by lia.
  rewrite wrap_int_small by lia.
  eexists. apply (vget_nth _ _ 0%float). lia.
Qed.

Lemma DataMesh_cell_corners_run (i1 i2 : Z) (corners : list Vec4) :
  0 <= i1 < n1 -> 0 <= i2 < n2 -> corners_ok corners ->
  exists corners',
    DataMesh_cell_corners dm n1 n2 i1 i2 corners = Some corners'
    /\ DataMesh_cell_corners dm n1 n2 i1 i2 (repeat Vec4_origin 9)
       = Some corners'
    /\ corners_ok corners'.
Proof.
  intros H1 H2 Hok.
  pose proof DataMesh_dims as (E1 & E2 & Ev & Hb & Hb1 & Hb2).
  unfold DataMesh_cell_corners.
  destruct (mapM_total
              (fun d : Z * Z =>
                 vget (vals dm)
                   (int_add (int_mul (clip (int_add i1 (fst d)) (int_sub n1 1)) n2)
                            (clip (int_add i2 (snd d)) (int_sub n2 1))))
              [(-1,-1); (-1,0); (-1,1); (0,-1); (0,0); (0,1);
               (1,-1); (1,0); (1,1)]) as [neigh En].
  { repeat constructor; cbn [fst snd];
      apply DataMesh_neigh_read; auto; lia. }
  unfold DataMesh_neigh. rewrite En. cbn [bind].
  assert (Ei : int_add i1 1 = i1 + 1 /\ int_add i2 1 = i2 + 1).
  { unfold int_add. rewrite !wrap_int_small by lia. auto. }
  destruct Ei as [-> ->].
  rewrite (vget_nth (edges1 dm) i1 0%float) by lia.
  rewrite (vget_nth (edges1 dm) (i1 + 1) 0%float) by lia.
  rewrite (vget_nth (edges2 dm) i2 0%float) by lia.
  rewrite (vget_nth (edges2 dm) (i2 + 1) 0%float) by lia.
  cbn [bind].
  destruct (DataMesh_corners_fresh (idxval dm) (idxedge1 dm) (idxedge2 dm)
              corners neigh
              (nth (Z.to_nat i1) (edges1 dm) 0%float)
              (nth (Z.to_nat (i1 + 1)) (edges1 dm) 0%float)
              (nth (Z.to_nat i2) (edges2 dm) 0%float)
              (nth (Z.to_nat (i2 + 1)) (edges2 dm) 0%float) Hidx Hok)
    as [Efresh Hok'].
  eexists. split; [reflexivity|]. split; [now rewrite Efresh|exact Hok'].
Qed.

Lemma DataMesh_line_finite (i1 i2 : Z) (i : nat) :
  0 <= i1 < n1 -> 0 <= i2 < n2 -> (i < nlines_of hr)%nat ->
  Vec3_isfinite (points0 (DataMesh_line_fragment outerM dm i1 i2 i)) = true
  /\ Vec3_isfinite (points1 (DataMesh_line_fragment outerM dm i1 i2 i)) = true.
Proof.
  intros H1 H2 Hi. pose proof Hfin as H. unfold DataMesh_lines_finite in H.
  rewrite forallb_forall in H. specialize (H i1 (proj2 (upto_In _ _) H1)).
  rewrite forallb_forall in H. specialize (H i2 (proj2 (upto_In _ _) H2)).
  rewrite forallb_forall in H.
  assert (Hin : In i (seq 0 (nlines_of hr))) by (apply in_seq; lia).
  specialize (H i Hin). now apply andb_true_iff in H.
Qed.

Lemma DataMesh_key_range (i1 i2 : Z) (j : nat) :
  0 <= i1 < n1 -> 0 <= i2 < n2 -> (j < nlines_of hr)%nat ->
  key_in_range N1 N2 (DataMesh_key hr i1 i2 j).
Proof.
  intros H1 H2 Hj. pose proof DataMesh_dims as (E1 & E2 & _).
  pose proof (linecells_bounds hr j Hj) as Hb.
  unfold DataMesh_key.
  destruct (nth j (linecells_of hr) (0, 0, 0)) as [[xidx yidx] lineidx].
  cbn [key_in_range]. lia.
Qed.

Lemma DataMesh_line_run (i1 i2 : Z) (j : nat) (t : LineCellTracker)
  (P : Z * Z * Z -> Prop) :
  0 <= i1 < n1 -> 0 <= i2 < n2 -> (j < nlines_of hr)%nat ->
  tracks N1 N2 t P ->
  (P (DataMesh_key hr i1 i2 j) <-> draws_line hr i1 i2 j = false) ->
  exists t',
    DataMesh_line dm (DataMesh_corners3 outerM dm i1 i2) i1 i2
                  (DataMesh_fl dm i1 i2) j t
    = Some (t', if draws_line hr i1 i2 j
                then [DataMesh_line_fragment outerM dm i1 i2 j] else [])
    /\ tracks N1 N2 t' (fun k => P k \/ k = DataMesh_key hr i1 i2 j).
Proof.
  intros H1 H2 Hj Ht HP.
  pose proof DataMesh_dims as (E1 & E2 & _ & _ & Hb1 & Hb2).
  pose proof (DataMesh_key_range i1 i2 j H1 H2 Hj) as Hk.
  pose proof (linecells_bounds hr j Hj) as Hb.
  pose proof (DataMesh_line_finite i1 i2 j H1 H2 Hj) as [Hf0 Hf1].
  unfold DataMesh_line, DataMesh_key, DataMesh_line_fragment in *.
  destruct (nth j (linecells_of hr) (0, 0, 0)) as [[xidx yidx] lineidx].
  destruct (nth j (lines_of hr) (0%nat, 0%nat)) as [a b].
  rewrite !wrap_unsigned_small by lia.
  assert (HN2 : 0 <= N2) by lia.
  destruct (tracks_isLineSet N1 N2 HN2 Htrack t P _ _ _ Ht Hk)
    as [drawn [Ed Hd]].
  rewrite Ed. cbn [bind].
  destruct drawn.
  - assert (Hdr : draws_line hr i1 i2 j = false) by (apply HP, Hd; reflexivity).
    rewrite Hdr. exists t. split; [reflexivity|].
    apply (tracks_ext N1 N2 t P); [|exact Ht].
    intros k _. split; [now left|].
    intros [Hp| ->]; [exact Hp|]. apply Hd. reflexivity.
  - assert (Hdr : draws_line hr i1 i2 j = true).
    { destruct (draws_line hr i1 i2 j); [reflexivity|].
      assert (false = true) by (apply Hd, HP; reflexivity). discriminate. }
    rewrite Hdr.
    destruct (tracks_setLine N1 N2 HN2 Htrack t P _ _ _ Ht Hk) as [t' [Es Ht']].
    rewrite Es. cbn [bind].
    cbn [points0 points1 set_points0 set_points1 set_index DataMesh_fl]
      in Hf0, Hf1 |- *.
    rewrite Hf0, Hf1. cbn [andb].
    exists t'. split; [reflexivity|exact Ht'].
Qed.

Lemma DataMesh_lines_run (i1 i2 : Z) (t : LineCellTracker) :
  0 <= i1 < n1 -> 0 <= i2 < n2 ->
  tracks N1 N2 t (seen_before hr n2 i1 i2) ->
  exists t',
    loopM (DataMesh_line dm (DataMesh_corners3 outerM dm i1 i2) i1 i2
                         (DataMesh_fl dm i1 i2))
          (seq 0 (nlines_of hr)) t
    = Some (t', DataMesh_cell_lines outerM dm i1 i2)
    /\ tracks N1 N2 t' (seen_before hr n2 i1 (i2 + 1)).
Proof.
  intros H1 H2 Ht.
  destruct (loopM_map_seq (fun j : nat => j)
              (fun j t =>
                 tracks N1 N2 t
                   (fun k => seen_before hr n2 i1 i2 k
                             \/ exists j', (j' < j)%nat
                                           /\ k = DataMesh_key hr i1 i2 j'))
              (fun j => if draws_line hr i1 i2 j
                        then [DataMesh_line_fragment outerM dm i1 i2 j]
                        else [])
              (DataMesh_line dm (DataMesh_corners3 outerM dm i1 i2) i1 i2
                             (DataMesh_fl dm i1 i2))
              (nlines_of hr) 0%nat t) as [t' [E Ht']].
  - apply (tracks_ext N1 N2 t (seen_before hr n2 i1 i2)); [|exact Ht].
    intros k _. split; [now left|]. intros [Hs|(j' & Hj' & _)]; [exact Hs|lia].
  - intros j t0 Hj Ht0.
    destruct (DataMesh_line_run i1 i2 j t0 _ H1 H2 ltac:(lia) Ht0)
      as [t1 [E1 Ht1]].
    + rewrite <- (seen_before_draws hr n2 i1 i2 j) by lia.
      split; [|now left].
      intros [Hs|(j' & Hj' & Ek)]; [exact Hs|].
      apply DataMesh_keys_distinct in Ek; lia.
    + exists t1. split; [exact E1|].
      apply (tracks_ext N1 N2 t1
               (fun k => (seen_before hr n2 i1 i2 k
                          \/ exists j', (j' < j)%nat
                                        /\ k = DataMesh_key hr i1 i2 j')
                         \/ k = DataMesh_key hr i1 i2 j)); [|exact Ht1].
      intros k _. split.
      * intros [[Hs|(j' & Hj' & Ek)]|Ek]; [now left| |].
        -- right. exists j'. split; [lia|exact Ek].
        -- right. exists j. split; [lia|exact Ek].
      * intros [Hs|(j' & Hj' & Ek)]; [now left; left|].
        destruct (Nat.eq_dec j' j) as [->|Hne]; [now right|].
        left. right. exists j'. split; [lia|exact Ek].
  - exists t'. rewrite map_id in E. split.
    + rewrite E. unfold DataMesh_cell_lines. now rewrite flat_map_singletons.
    + apply (tracks_ext N1 N2 t'
               (fun k => seen_before hr n2 i1 i2 k
                         \/ exists j', (j' < 0 + nlines_of hr)%nat
                                       /\ k = DataMesh_key hr i1 i2 j'));
        [|exact Ht'].
      intros k _. rewrite <- (seen_before_next_cell hr n2 i1 i2 k) by lia.
      reflexivity.
Qed.

Variable lp : LineProp.
Hypothesis Hlp : dm_lineprop dm = Some lp.

Lemma DataMesh_cell_run (i1 i2 : Z) (st : list Vec4 * LineCellTracker) :
  0 <= i1 < n1 -> 0 <= i2 < n2 -> DataMesh_state dm i1 i2 st ->
  exists st',
    DataMesh_cell outerM dm
      (mkFragment FR_TRIANGLE Vec3_zero Vec3_zero Vec3_zero
                  (dm_surfaceprop dm) None None 0%float 0)
      (mkFragment FR_LINESEG Vec3_zero Vec3_zero Vec3_zero
                  None (dm_lineprop dm) None 0%float 0)
      n1 n2 i1 i2 st
    = Some (st', DataMesh_cell_triangles outerM dm i1 i2
                 ++ DataMesh_cell_lines outerM dm i1 i2)
    /\ DataMesh_state dm i1 (i2 + 1) st'.
Proof.
  intros H1 H2 [Hok Ht]. destruct st as [corners t]. cbn [fst snd] in Hok, Ht.
  unfold DataMesh_cell.
  destruct (DataMesh_cell_index i1 i2 H1 H2) as [Eci Hci]. rewrite Eci.
  rewrite (vget_nth _ _ 0%float Hci). cbn [bind].
  assert (Hv : d_isfinite (nth (Z.to_nat (i1 * n2 + i2)) (vals dm) 0%float)
               = true).
  { pose proof Hvals as Hall. rewrite forallb_forall in Hall.
    apply Hall, nth_In. lia. }
  rewrite Hv. cbn [negb].
  destruct (DataMesh_cell_corners_run i1 i2 corners H1 H2 Hok)
    as (corners' & E1 & E2 & Hok').
  rewrite E1. cbn [bind].
  assert (Ec3 : DataMesh_corners3 outerM dm i1 i2
                = map (fun c => vec4to3 (Mat4_mul_vec outerM c)) corners')
    by (unfold DataMesh_corners3; now rewrite E2).
  rewrite <- Ec3. cbn [surfaceprop lineprop]. rewrite Hlp.
  destruct (DataMesh_lines_run i1 i2 t H1 H2 Ht) as [t' [El Ht']].
  unfold DataMesh_fl in El. rewrite Hlp in El. rewrite El.
  cbn [bind fst snd].
  eexists. split; [reflexivity|]. split; assumption.
Qed.

Lemma DataMesh_row_run (i1 : Z) (st : list Vec4 * LineCellTracker) :
  0 <= i1 < n1 -> DataMesh_state dm i1 0 st ->
  exists st',
    loopM (fun i2 st =>
             DataMesh_cell outerM dm
               (mkFragment FR_TRIANGLE Vec3_zero Vec3_zero Vec3_zero
                           (dm_surfaceprop dm) None None 0%float 0)
               (mkFragment FR_LINESEG Vec3_zero Vec3_zero Vec3_zero
                           None (dm_lineprop dm) None 0%float 0)
               n1 n2 i1 i2 st)
          (upto n2) st
    = Some (st', flat_map (fun i2 => DataMesh_cell_triangles outerM dm i1 i2
                                     ++ DataMesh_cell_lines outerM dm i1 i2)
                          (upto n2))
    /\ DataMesh_state dm (i1 + 1) 0 st'.
Proof.
  intros H1 Hst.
  destruct (loopM_map_seq Z.of_nat
              (fun j st => DataMesh_state dm i1 (Z.of_nat j) st)
              (fun j => DataMesh_cell_triangles outerM dm i1 (Z.of_nat j)
                        ++ DataMesh_cell_lines outerM dm i1 (Z.of_nat j))
              (fun i2 st =>
                 DataMesh_cell outerM dm
                   (mkFragment FR_TRIANGLE Vec3_zero Vec3_zero Vec3_zero
                               (dm_surfaceprop dm) None None 0%float 0)
                   (mkFragment FR_LINESEG Vec3_zero Vec3_zero Vec3_zero
                               None (dm_lineprop dm) None 0%float 0)
                   n1 n2 i1 i2 st)
              (Z.to_nat n2) 0%nat st Hst) as [st' [E Hst']].
  - intros j st0 Hj Hst0.
    destruct (DataMesh_cell_run i1 (Z.of_nat j) st0 H1 ltac:(lia) Hst0)
      as [st1 [E1 Hst1]].
    exists st1. split; [exact E1|].
    now replace (Z.of_nat (S j)) with (Z.of_nat j + 1) by lia.
  - exists st'. split.
    + rewrite flat_map_upto. exact E.
    + destruct Hst' as [Hok Ht]. split; [exact Hok|].
      apply (tracks_ext N1 N2 (snd st')
               (seen_before hr n2 i1 (Z.of_nat (0 + Z.to_nat n2))));
        [|exact Ht].
      intros k _.
      split; intros (a & b & j & Ha & Hb & Hlt & Hj & Ek);
        exists a, b, j; repeat split; auto; lia.
Qed.

Lemma DataMesh_getFragments_run :
  DataMesh_getFragments outerM dm = Some (emit (DataMesh_fragments outerM dm)).
Proof.
  unfold DataMesh_getFragments. rewrite Hidx, Hsizes. cbn [negb].
  rewrite Hlp.
  pose proof DataMesh_dims as (E1 & E2 & _ & _ & Hb1 & Hb2).
  assert (HN2 : 0 <= N2) by lia. assert (HN1 : 0 <= N1) by lia.
  unfold unsigned_of_size. rewrite !wrap_unsigned_small by lia.
  fold n1 n2.
  destruct (loopM_map_seq Z.of_nat
              (fun j st => DataMesh_state dm (Z.of_nat j) 0 st)
              (fun j => flat_map
                          (fun i2 =>
                             DataMesh_cell_triangles outerM dm (Z.of_nat j) i2
                             ++ DataMesh_cell_lines outerM dm (Z.of_nat j) i2)
                          (upto n2))
              (fun i1 st =>
                 loopM (fun i2 st =>
                          DataMesh_cell outerM dm
                            (mkFragment FR_TRIANGLE Vec3_zero Vec3_zero
                                        Vec3_zero (dm_surfaceprop dm) None
                                        None 0%float 0)
                            (mkFragment FR_LINESEG Vec3_zero Vec3_zero
                                        Vec3_zero None (dm_lineprop dm) None
                                        0%float 0)
                            n1 n2 i1 i2 st)
                       (upto n2) st)
              (Z.to_nat n1) 0%nat
              (repeat Vec4_origin 9, LineCellTracker_new N1 N2))
    as [st' [E _]].
  - split; cbn [fst snd].
    + split; [reflexivity|repeat constructor].
    + apply (tracks_ext N1 N2 _ (fun _ => False));
        [|exact (tracks_new N1 N2 HN1 HN2 Htrack)].
      intros k _. symmetry. apply seen_before_start.
  - intros j st0 Hj Hst0.
    destruct (DataMesh_row_run (Z.of_nat j) st0 ltac:(lia) Hst0)
      as [st1 [E1' Hst1]].
    exists st1. split; [exact E1'|].
    now replace (Z.of_nat (S j)) with (Z.of_nat j + 1) by lia.
  - change (upto n1) with (map Z.of_nat (seq 0 (Z.to_nat n1))).
    rewrite Hlp in E. rewrite E. cbn [bind snd].
    unfold DataMesh_fragments. now rewrite flat_map_upto.
Qed.

End DataMeshRun.

(** ** DataMesh: every grid edge is drawn once *)

Lemma DataMesh_drawn_In (hr : bool) (n1 n2 i1 i2 : Z) (i : nat) :
  In (i1, i2, i) (DataMesh_drawn hr n1 n2)
  <-> 0 <= i1 < n1 /\ 0 <= i2 < n2 /\ (i < nlines_of hr)%nat
      /\ draws_line hr i1 i2 i = true.
Proof.
  unfold DataMesh_drawn. rewrite in_flat_map. split.
  - intros (a & Ha & H). apply in_flat_map in H. destruct H as (b & Hb & H).
    apply in_map_iff in H. destruct H as (j & E & Hj).
    injection E as -> -> ->. apply filter_In in Hj. destruct Hj as [Hj Hd].
    apply in_seq in Hj. apply upto_In in Ha, Hb. repeat split; auto; lia.
  - intros (H1 & H2 & Hi & Hd). exists i1. split; [now apply upto_In|].
    apply in_flat_map. exists i2. split; [now apply upto_In|].
    apply in_map_iff. exists i. split; [reflexivity|].
    apply filter_In. split; [apply in_seq; lia|exact Hd].
Qed.

Lemma NoDup_flat_map {A B} (f : A -> list B) (l : list A) :
  NoDup l -> (forall x, In x l -> NoDup (f x)) ->
  (forall x y b, In x l -> In y l -> In b (f x) -> In b (f y) -> x = y) ->
  NoDup (flat_map f l).
Proof.
  induction 1 as [|a l Ha Hl IH]; intros Hf Hdisj; [constructor|].
  cbn [flat_map]. apply NoDup_app.
  - apply Hf. now left.
  - apply IH.
    + intros x Hx. apply Hf. now right.
    + intros x y b Hx Hy. apply Hdisj; now right.
  - intros b Hb Hb'. apply in_flat_map in Hb'. destruct Hb' as (y & Hy & Hby).
    assert (a = y) by (apply (Hdisj a y b); auto; [now left|now right]).
    subst y. contradiction.
Qed.

Lemma NoDup_map_injective {A B} (f : A -> B) (l : list A) :
  (forall x y, f x = f y -> x = y) -> NoDup l -> NoDup (map f l).
Proof.
  intros Hinj. apply NoDup_map_NoDup_ForallPairs.
  intros x y _ _. apply Hinj.
Qed.

Lemma upto_NoDup (n : Z) : NoDup (upto n).
Proof.
  unfold upto. apply NoDup_map_injective; [|apply seq_NoDup].
  intros x y. apply Nat2Z.inj.
Qed.

Lemma DataMesh_drawn_NoDup (hr : bool) (n1 n2 : Z) :
  NoDup (DataMesh_drawn hr n1 n2).
Proof.
  unfold DataMesh_drawn. apply NoDup_flat_map; [apply upto_NoDup| |].
  - intros i1 _. apply NoDup_flat_map; [apply upto_NoDup| |].
    + intros i2 _. apply NoDup_map_injective.
      * intros x y E. now injection E.
      * apply NoDup_filter, seq_NoDup.
    + intros x y b _ _ Hx Hy.
      apply in_map_iff in Hx, Hy.
      destruct Hx as (j & <- & _), Hy as (j' & E & _). now injection E.
  - intros x y b _ _ Hx Hy.
    apply in_flat_map in Hx, Hy.
    destruct Hx as (i2 & _ & Hx), Hy as (i2' & _ & Hy).
    apply in_map_iff in Hx, Hy.
    destruct Hx as (j & <- & _), Hy as (j' & E & _). now injection E.
Qed.

Lemma draws_line_true (hr : bool) (i1 i2 : Z) (i : nat) :
  draws_line hr i1 i2 i = true ->
  (if hr then
     match i with
     | 0%nat | 1%nat => i2 = 0
     | 6%nat | 7%nat => i1 = 0
     | _ => True
     end
   else
     match i with
     | 0%nat => i2 = 0
     | 1%nat => i1 = 0
     | _ => True
     end).
Proof.
  unfold draws_line.
  destruct hr; do 8 (try (destruct i as [|i])); auto using Z.eqb_eq;
    try (apply Z.eqb_eq).
Qed.

(** Two drawn lines on the same grid edge are the same line of the same
    cell. *)
Lemma DataMesh_drawn_inj (hr : bool) (n1 n2 : Z) (c c' : Z * Z * nat) :
  In c (DataMesh_drawn hr n1 n2) -> In c' (DataMesh_drawn hr n1 n2) ->
  same_segment (grid_segment hr c) (grid_segment hr c') -> c = c'.
Proof.
  destruct c as [[i1 i2] i], c' as [[i1' i2'] i'].
  rewrite !DataMesh_drawn_In.
  intros (H1 & H2 & Hi & Hd) (H1' & H2' & Hi' & Hd') Hs.
  apply draws_line_true in Hd, Hd'.
  unfold same_segment, grid_segment, lattice_point in Hs.
  destruct hr; cbn [nlines_of] in Hi, Hi';
    line_cases i; line_cases i';
    cbn [lines_of linelist_highres linelist_lowres nth corner_offset fst snd]
      in Hs;
    cbv beta iota in Hd, Hd'; destruct Hs as [Hs|Hs];
    rewrite !pair_equal_spec in Hs;
    first [ exfalso; lia
          | assert (i1 = i1') by lia; assert (i2 = i2') by lia;
            subst; reflexivity ].
Qed.

(** Every line of every cell lies on a grid edge that is drawn. *)
Lemma DataMesh_drawn_covers (hr : bool) (n1 n2 i1 i2 : Z) (i : nat) :
  0 <= i1 < n1 -> 0 <= i2 < n2 -> (i < nlines_of hr)%nat ->
  exists c,
    In c (DataMesh_drawn hr n1 n2)
    /\ same_segment (grid_segment hr c) (grid_segment hr (i1, i2, i)).
Proof.
  intros H1 H2 Hi.
  destruct (draws_line hr i1 i2 i) eqn:Hd.
  - exists (i1, i2, i). split; [|now left].
    apply DataMesh_drawn_In. auto.
  - assert (W : forall a b j,
               0 <= a < n1 -> 0 <= b < n2 -> (j < nlines_of hr)%nat ->
               draws_line hr a b j = true ->
               same_segment (grid_segment hr (a, b, j))
                            (grid_segment hr (i1, i2, i)) ->
               exists c,
                 In c (DataMesh_drawn hr n1 n2)
                 /\ same_segment (grid_segment hr c)
                                 (grid_segment hr (i1, i2, i))).
    { intros a b j Ha Hb Hj Hda Hsame. exists (a, b, j). split; [|exact Hsame].
      apply DataMesh_drawn_In. auto. }
    destruct hr; cbn [nlines_of] in Hi; line_cases i;
      cbn [draws_line] in Hd; try discriminate Hd; apply Z.eqb_neq in Hd.
    + apply (W i1 (i2 - 1) 5%nat); [lia|lia|cbn; lia|reflexivity|].
      right. unfold grid_segment, lattice_point.
      cbn [lines_of linelist_highres linelist_lowres nth corner_offset fst snd].
      rewrite !pair_equal_spec. lia.
    + apply (W i1 (i2 - 1) 4%nat); [lia|lia|cbn; lia|reflexivity|].
      right. unfold grid_segment, lattice_point.
      cbn [lines_of linelist_highres linelist_lowres nth corner_offset fst snd].
      rewrite !pair_equal_spec. lia.
    + apply (W (i1 - 1) i2 3%nat); [lia|lia|cbn; lia|reflexivity|].
      right. unfold grid_segment, lattice_point.
      cbn [lines_of linelist_highres linelist_lowres nth corner_offset fst snd].
      rewrite !pair_equal_spec. lia.
    + apply (W (i1 - 1) i2 2%nat); [lia|lia|cbn; lia|reflexivity|].
      right. unfold grid_segment, lattice_point.
      cbn [lines_of linelist_highres linelist_lowres nth corner_offset fst snd].
      rewrite !pair_equal_spec. lia.
    + apply (W i1 (i2 - 1) 3%nat); [lia|lia|cbn; lia|reflexivity|].
      right. unfold grid_segment, lattice_point.
      cbn [lines_of linelist_highres linelist_lowres nth corner_offset fst snd].
      rewrite !pair_equal_spec. lia.
    + apply (W (i1 - 1) i2 2%nat); [lia|lia|cbn; lia|reflexivity|].
      right. unfold grid_segment, lattice_point.
      cbn [lines_of linelist_highres linelist_lowres nth corner_offset fst snd].
      rewrite !pair_equal_spec. lia.
Qed.

Lemma NoDup_ForallOrdPairs {A} (R : A -> A -> Prop) (l : list A) :
  NoDup l ->
  (forall x y, In x l -> In y l -> R x y -> x = y) ->
  ForallOrdPairs (fun x y => ~ R x y) l.
Proof.
  induction 1 as [|a l Ha Hl IH]; intros Hinj; constructor.
  - apply Forall_forall. intros y Hy HR.
    assert (a = y) by (apply Hinj; auto; [now left|now right]).
    subst y. contradiction.
  - apply IH. intros x y Hx Hy. apply Hinj; now right.
Qed.

Lemma DataMesh_line_fragment_lineseg (outerM : Mat4) (dm : DataMesh)
  (i1 i2 : Z) (i : nat) :
  is_lineseg (DataMesh_line_fragment outerM dm i1 i2 i) = true.
Proof.
  unfold DataMesh_line_fragment.
  now destruct (nth i (lines_of (highres dm)) (0%nat, 0%nat)).
Qed.

Lemma filter_all {A} (p : A -> bool) (l : list A) :
  (forall x, In x l -> p x = true) -> filter p l = l.
Proof.
  induction l as [|a l IH]; intros H; [reflexivity|].
  cbn [filter]. rewrite (H a (or_introl eq_refl)). f_equal.
  apply IH. intros x Hx. apply H. now right.
Qed.

Lemma filter_none {A} (p : A -> bool) (l : list A) :
  (forall x, In x l -> p x = false) -> filter p l = [].
Proof.
  induction l as [|a l IH]; intros H; [reflexivity|].
  cbn [filter]. rewrite (H a (or_introl eq_refl)).
  apply IH. intros x Hx. apply H. now right.
Qed.

(** The line segments among the fragments of the mesh are the fragments
    of the drawn lines, in order. *)
Lemma DataMesh_fragments_lines (outerM : Mat4) (dm : DataMesh) :
  filter is_lineseg (DataMesh_fragments outerM dm)
  = map (fun c : Z * Z * nat =>
           DataMesh_line_fragment outerM dm (fst (fst c)) (snd (fst c)) (snd c))
        (DataMesh_drawn (highres dm) (DataMesh_n1 dm) (DataMesh_n2 dm)).
Proof.
  unfold DataMesh_fragments, DataMesh_drawn.
  rewrite filter_flat_map, map_flat_map. apply flat_map_ext. intros i1.
  rewrite filter_flat_map, map_flat_map. apply flat_map_ext. intros i2.
  rewrite filter_app, map_map. cbn [fst snd].
  rewrite filter_none, filter_all; [reflexivity| |].
  - intros f Hf. unfold DataMesh_cell_lines in Hf.
    apply in_map_iff in Hf. destruct Hf as (i & <- & _).
    apply DataMesh_line_fragment_lineseg.
  - intros f Hf. unfold DataMesh_cell_triangles in Hf.
    destruct (dm_surfaceprop dm); [|contradiction].
    unfold DataMesh_triangles in Hf. apply in_map_iff in Hf.
    destruct Hf as ([[a b] c] & <- & _). reflexivity.
Qed.

(** *** The number of drawn lines *)

Lemma length_flat_map_upto {F} (f : Z -> list F) (c d n : Z) :
  (forall j, 0 <= j < n ->
     Z.of_nat (length (f j)) = c + (if j =? 0 then d else 0)) ->
  Z.of_nat (length (flat_map f (upto n)))
  = c * Z.max 0 n + (if 0 <? n then d else 0).
Proof.
  intros Hf. rewrite flat_map_upto.
  assert (G : forall m : nat,
             Z.of_nat m <= Z.max 0 n ->
             Z.of_nat (length (flat_map (fun j => f (Z.of_nat j)) (seq 0 m)))
             = c * Z.of_nat m + (if 0 <? Z.of_nat m then d else 0)).
  { induction m as [|m IH]; intros Hm.
    - cbn. lia.
    - rewrite seq_S, flat_map_app, length_app, Nat2Z.inj_add, IH by lia.
      cbn [flat_map Nat.add]. rewrite app_nil_r, Hf by lia.
      destruct (Z.ltb_spec 0 (Z.of_nat m)), (Z.eqb_spec (Z.of_nat m) 0),
        (Z.ltb_spec 0 (Z.of_nat (S m))); lia. }
  rewrite G by lia.
  replace (Z.of_nat (Z.to_nat n)) with (Z.max 0 n) by lia.
  destruct (Z.ltb_spec 0 (Z.max 0 n)), (Z.ltb_spec 0 n); lia.
Qed.

Lemma draws_line_count (hr : bool) (i1 i2 : Z) :
  Z.of_nat (length (filter (draws_line hr i1 i2) (seq 0 (nlines_of hr))))
  = (if hr then 2 else 1)
    * (2 + (if i1 =? 0 then 1 else 0) + (if i2 =? 0 then 1 else 0)).
Proof.
  destruct hr; cbn [nlines_of seq filter draws_line];
    destruct (i1 =? 0), (i2 =? 0); reflexivity.
Qed.

(** A grid of [n1] by [n2] cells has [n1*(n2+1) + (n1+1)*n2] edges, each
    in two halves at high resolution; as many lines are drawn. *)
Lemma DataMesh_drawn_count (hr : bool) (n1 n2 : Z) :
  0 < n1 -> 0 < n2 ->
  Z.of_nat (length (DataMesh_drawn hr n1 n2))
  = (if hr then 2 else 1) * (n1 * (n2 + 1) + (n1 + 1) * n2).
Proof.
  intros H1 H2. unfold DataMesh_drawn.
  set (k := if hr then 2 else 1).
  rewrite (length_flat_map_upto _ (2 * k * n2 + k) (k * n2)).
  - destruct (Z.ltb_spec 0 n1); lia.
  - intros i1 Hi1.
    rewrite (length_flat_map_upto _ (k * (2 + (if i1 =? 0 then 1 else 0))) k).
    + destruct (Z.ltb_spec 0 n2), (i1 =? 0); lia.
    + intros i2 Hi2. rewrite length_map, draws_line_count. fold k.
      destruct (i1 =? 0), (i2 =? 0); lia.
Qed.

(** C1.  For a [DataMesh] that passes validation, has a line style and
    finite cell values, and whose line ends all project to finite points
    (with sizes in the range of the 32-bit arithmetic), the line segments
    emitted are one per drawn (cell, line), as many as the grid has edges
    (twice as many at high resolution); no two of them lie on the same
    grid edge, and every grid edge of the line table of the resolution,
    for every cell, is among them. *)
Theorem DataMesh_draws_each_edge_once :
  forall (outerM : Mat4) (dm : DataMesh) (lp : LineProp),
    check_indices [idxval dm; idxedge1 dm; idxedge2 dm] = true ->
    check_sizes dm = true ->
    sizes_fit_int dm ->
    Z.of_nat (length (edges1 dm)) * Z.of_nat (length (edges2 dm)) * MAXLINEIDX
    < 2 ^ 32 ->
    dm_lineprop dm = Some lp ->
    forallb d_isfinite (vals dm) = true ->
    DataMesh_lines_finite outerM dm = true ->
    let hr := highres dm in
    let drawn := DataMesh_drawn hr (DataMesh_n1 dm) (DataMesh_n2 dm) in
    exists r : Emitted,
      DataMesh_getFragments outerM dm = Some r
      /\ stderr r = []
      /\ filter is_lineseg (frags r)
         = map (fun c : Z * Z * nat =>
                  DataMesh_line_fragment outerM dm
                    (fst (fst c)) (snd (fst c)) (snd c))
               drawn
      /\ (0 < DataMesh_n1 dm -> 0 < DataMesh_n2 dm ->
          Z.of_nat (length (filter is_lineseg (frags r)))
          = (if hr then 2 else 1)
            * (DataMesh_n1 dm * (DataMesh_n2 dm + 1)
               + (DataMesh_n1 dm + 1) * DataMesh_n2 dm))
      /\ ForallOrdPairs
           (fun c c' => ~ same_segment (grid_segment hr c) (grid_segment hr c'))
           drawn
      /\ (forall i1 i2 i,
            0 <= i1 < DataMesh_n1 dm -> 0 <= i2 < DataMesh_n2 dm ->
            (i < nlines_of hr)%nat ->
            exists c,
              In c drawn
              /\ same_segment (grid_segment hr c) (grid_segment hr (i1, i2, i)))
      /\ (forall i1 i2 i,
            In (i1, i2, i) drawn ->
            0 <= i1 < DataMesh_n1 dm /\ 0 <= i2 < DataMesh_n2 dm
            /\ (i < nlines_of hr)%nat).
Proof.
  intros outerM dm lp Hidx Hsizes Hint Htrack Hlp Hvals Hfin hr drawn.
  exists (emit (DataMesh_fragments outerM dm)).
  split; [exact (DataMesh_getFragments_run outerM dm Hidx Hint Hsizes Htrack
                   Hvals Hfin lp Hlp)|].
  split; [reflexivity|]. split; [apply DataMesh_fragments_lines|].
  split.
  { intros H1 H2. cbn [frags emit].
    rewrite DataMesh_fragments_lines, length_map.
    now apply DataMesh_drawn_count. }
  split; [|split].
  - apply NoDup_ForallOrdPairs; [apply DataMesh_drawn_NoDup|].
    apply DataMesh_drawn_inj.
  - intros i1 i2 i. apply DataMesh_drawn_covers.
  - intros i1 i2 i Hin. apply DataMesh_drawn_In in Hin. tauto.
Qed.

Lemma DataMesh_draws_each_edge_once_witness :
  exists r : Emitted,
    DataMesh_getFragments identityM4 four_cells = Some r
    /\ filter is_lineseg (frags r)
       = map (fun c : Z * Z * nat =>
                DataMesh_line_fragment identityM4 four_cells
                  (fst (fst c)) (snd (fst c)) (snd c))
             (DataMesh_drawn true 2 2)
    /\ Z.of_nat (length (filter is_lineseg (frags r))) = 24.
Proof.
  assert (Hidx : check_indices [idxval four_cells; idxedge1 four_cells;
                                idxedge2 four_cells] = true) by reflexivity.
  assert (Hsizes : check_sizes four_cells = true) by reflexivity.
  assert (Hint : sizes_fit_int four_cells)
    by (unfold sizes_fit_int, INT_MAX; cbn; lia).
  assert (Htrack : Z.of_nat (length (edges1 four_cells))
                   * Z.of_nat (length (edges2 four_cells)) * MAXLINEIDX
                   < 2 ^ 32) by (cbn; lia).
  assert (Hvals : forallb d_isfinite (vals four_cells) = true)
    by (vm_compute; reflexivity).
  assert (Hfin : DataMesh_lines_finite identityM4 four_cells = true)
    by (vm_compute; reflexivity).
  destruct (DataMesh_draws_each_edge_once identityM4 four_cells 0%nat
              Hidx Hsizes Hint Htrack eq_refl Hvals Hfin)
    as (r & E & _ & Hl & Hn & _).
  exists r. split; [exact E|]. split; [exact Hl|].
  rewrite Hn by (vm_compute; reflexivity). reflexivity.
Defined.

(** C1, as stated, fails: this mesh passes validation, has a line style
    and a finite cell value, and its four grid edges are all omitted,
    because under this transform their ends are not finite. *)
Lemma finite_grid_nonfinite_projection :
  check_indices [idxval flat_cell; idxedge1 flat_cell; idxedge2 flat_cell]
  = true
  /\ check_sizes flat_cell = true
  /\ dm_lineprop flat_cell = Some 0%nat
  /\ forallb d_isfinite (vals flat_cell ++ edges1 flat_cell ++ edges2 flat_cell)
     = true
  /\ length (DataMesh_drawn (highres flat_cell) (DataMesh_n1 flat_cell)
                            (DataMesh_n2 flat_cell)) = 4%nat
  /\ DataMesh_getFragments depth_divide flat_cell = Some (mkEmitted [] []).
Proof. vm_compute. repeat split. Qed.

(** * Properties of the remaining operations *)

(** ** PolyLine *)

Lemma zip3_length (x y z : ValVector) : length (zip3 x y z) = min3 x y z.
Proof.
  unfold min3. revert y z.
  induction x as [|a x IH]; intros [|b y] [|c z]; cbn [zip3 length];
    try rewrite IH; lia.
Qed.

Lemma zip3_nth (x y z : ValVector) (i : nat) :
  (i < min3 x y z)%nat -> nth i (zip3 x y z) Vec3_zero = point_at x y z i.
Proof.
  unfold min3, point_at. revert y z i.
  induction x as [|a x IH]; intros [|b y] [|c z] i Hi; cbn [length] in Hi;
    try lia.
  destruct i as [|i]; [reflexivity|]. cbn [zip3 nth]. apply IH. lia.
Qed.

(** X1. [PolyLine::addPoints] keeps the points already stored and the line
    style, and appends as many points as the shortest of the three arrays
    has values, the point [i] from [x[i]], [y[i]], [z[i]]. *)
Theorem PolyLine_addPoints_appends :
  forall (p : PolyLine) (x y z : ValVector),
    let p' := PolyLine_addPoints p x y z in
    pl_lineprop p' = pl_lineprop p
    /\ length (pl_points p') = (length (pl_points p) + min3 x y z)%nat
    /\ firstn (length (pl_points p)) (pl_points p') = pl_points p
    /\ (forall i, (i < min3 x y z)%nat ->
          nth (length (pl_points p) + i) (pl_points p') Vec3_zero
          = point_at x y z i).
Proof.
  intros p x y z p'. subst p'. unfold PolyLine_addPoints.
  cbn [pl_points pl_lineprop].
  split; [reflexivity|]. split; [|split].
  - now rewrite length_app, zip3_length.
  - rewrite firstn_app, Nat.sub_diag, firstn_all. cbn [firstn].
    apply app_nil_r.
  - intros i Hi. rewrite app_nth2_plus. now apply zip3_nth.
Qed.

Lemma PolyLine_loop_closed (outerM : Mat4) (lp : option LineProp) :
  forall (rest : list Vec3) (prev q : Vec3) (i : nat) (idx : Z),
    (0 < i)%nat ->
    PolyLine_loop outerM rest i
      (mkFragment FR_LINESEG (project outerM prev) q Vec3_zero None lp None
                  0%float idx)
    = filter sum_test
        (map (fun k =>
                mkFragment FR_LINESEG
                  (project outerM (nth (S k) (prev :: rest) Vec3_zero))
                  (project outerM (nth k (prev :: rest) Vec3_zero))
                  Vec3_zero None lp None 0%float (Z.of_nat (i + k)))
             (seq 0 (length rest))).
Proof.
  induction rest as [|p rest IH]; intros prev q i idx Hi; [reflexivity|].
  cbn [PolyLine_loop length seq map filter].
  unfold set_index, set_points0, set_points1.
  cbn [ftype points0 points1 points2 surfaceprop lineprop params pathsize
       index].
  destruct (Nat.ltb_spec 0 i) as [_|]; [|lia]. cbn [andb].
  rewrite (IH p (project outerM prev) (S i) (Z.of_nat i)) by lia.
  rewrite <- seq_shift, map_map.
  unfold sum_test at 2. cbn [points0 points1 nth]. rewrite Nat.add_0_r.
  destruct (Vec3_isfinite _); cbn [app]; [f_equal|];
    (f_equal; apply map_ext; intros k; cbn [nth];
     now replace (S i + k)%nat with (i + S k)%nat by lia).
Qed.

Lemma PolyLine_getFragments_closed :
  forall (outerM : Mat4) (p : PolyLine),
    PolyLine_getFragments outerM p
    = filter sum_test
        (map (PolyLine_segment outerM p)
             (seq 1 (length (pl_points p) - 1))).
Proof.
  intros outerM p. unfold PolyLine_getFragments, PolyLine_segment.
  destruct (pl_points p) as [|p0 rest]; [reflexivity|].
  cbn [PolyLine_loop].
  unfold set_index, set_points0, set_points1.
  cbn [ftype points0 points1 points2 surfaceprop lineprop params pathsize
       index].
  change (0 <? 0)%nat with false. cbn [andb app].
  rewrite PolyLine_loop_closed by lia.
  cbn [length].
  replace (S (length rest) - 1)%nat with (length rest) by lia.
  rewrite <- seq_shift, map_map.
  f_equal. apply map_ext. intros k. cbn [Nat.add Nat.sub].
  now rewrite Nat.sub_0_r.
Qed.

(** X2. The segments of a [PolyLine] are, in order, those joining each
    stored point to the one before it that pass the sum test: the segment of
    round [i] runs from the projected point [i] to the projected point [i-1]
    and carries the index [i]. *)
Theorem PolyLine_getFragments_segments :
  forall (outerM : Mat4) (p : PolyLine),
    PolyLine_getFragments outerM p
    = filter sum_test
        (map (PolyLine_segment outerM p)
             (seq 1 (length (pl_points p) - 1))).
Proof. exact PolyLine_getFragments_closed. Qed.

(** ** LineSegments *)

Lemma LineSegments_loop_closed (outerM : Mat4) (lp : option LineProp) :
  forall (n : nat) (pts : list Vec3) (i : Z) (q0 q1 : Vec3) (idx : Z),
    (length pts <= n)%nat ->
    LineSegments_loop outerM pts i
      (mkFragment FR_LINESEG q0 q1 Vec3_zero None lp None 0%float idx)
    = if Nat.even (length pts)
      then Some (map (fun k =>
                        mkFragment FR_LINESEG
                          (project outerM (nth (2 * k) pts Vec3_zero))
                          (project outerM (nth (2 * k + 1) pts Vec3_zero))
                          Vec3_zero None lp None 0%float
                          (i + 2 * Z.of_nat k))
                     (seq 0 (length pts / 2)))
      else None.
Proof.
  induction n as [|n IH]; intros pts i q0 q1 idx Hn.
  - destruct pts; [reflexivity|cbn [length] in Hn; lia].
  - destruct pts as [|p [|q rest]]; try reflexivity.
    cbn [LineSegments_loop]. unfold set_index, set_points0, set_points1.
    cbn [ftype points0 points1 points2 surfaceprop lineprop params pathsize
         index].
    rewrite IH by (cbn [length] in Hn; lia).
    change (Nat.even (length (p :: q :: rest)))
      with (Nat.even (length rest)).
    destruct (Nat.even (length rest)); [|reflexivity].
    cbn [bind]. f_equal.
    replace (length (p :: q :: rest) / 2)%nat with (S (length rest / 2)).
    + cbn [seq map]. f_equal.
      * now rewrite Z.add_0_r.
      * rewrite <- seq_shift, map_map. apply map_ext. intros k.
        replace (2 * S k)%nat with (S (S (2 * k))) by lia.
        cbn [nth Nat.add]. f_equal. lia.
    + cbn [length].
      replace (S (S (length rest))) with (1 * 2 + length rest)%nat by lia.
      now rewrite Nat.div_add_l.
Qed.

Lemma LineSegments_getFragments_closed (outerM : Mat4) (l : LineSegments) :
  LineSegments_getFragments outerM l
  = if Nat.even (length (ls_points l))
    then Some (map (LineSegments_segment outerM l)
                   (seq 0 (length (ls_points l) / 2)))
    else None.
Proof.
  unfold LineSegments_getFragments.
  rewrite (LineSegments_loop_closed outerM (ls_lineprop l)
             (length (ls_points l))) by lia.
  reflexivity.
Qed.

(** X3. [LineSegments::getFragments] reads its stored points two by two:
    with an even number of points it pushes one segment per pair,
    unfiltered, the segment [k] from the point [2k] to the point [2k+1] with
    index [2k]; with an odd number its last round reads past the end. *)
Theorem LineSegments_getFragments_pairs :
  forall (outerM : Mat4) (l : LineSegments),
    LineSegments_getFragments outerM l
    = if Nat.even (length (ls_points l))
      then Some (map (LineSegments_segment outerM l)
                     (seq 0 (length (ls_points l) / 2)))
      else None.
Proof. intros outerM l. apply LineSegments_getFragments_closed. Qed.

Lemma zip_pairs_length (a b : list Vec3) :
  length (zip_pairs a b) = (2 * Nat.min (length a) (length b))%nat.
Proof.
  revert b. induction a as [|p a IH]; intros [|q b]; cbn [zip_pairs length];
    try rewrite IH; lia.
Qed.

Lemma zip_pairs_nth (a b : list Vec3) (k : nat) :
  (k < Nat.min (length a) (length b))%nat ->
  nth (2 * k) (zip_pairs a b) Vec3_zero = nth k a Vec3_zero
  /\ nth (2 * k + 1) (zip_pairs a b) Vec3_zero = nth k b Vec3_zero.
Proof.
  revert b k. induction a as [|p a IH]; intros [|q b] k Hk;
    cbn [length] in Hk; try lia.
  destruct k as [|k]; [split; reflexivity|].
  replace (2 * S k)%nat with (S (S (2 * k))) by lia.
  cbn [zip_pairs nth Nat.add]. apply IH. lia.
Qed.

(** X4. The constructor of [LineSegments] from six coordinate arrays stores
    two points for each position that all six arrays have, and
    [getFragments] then stays in range and pushes one segment for each, from
    [(x1[k], y1[k], z1[k])] to [(x2[k], y2[k], z2[k])]. *)
Theorem LineSegments_new_segments :
  forall (outerM : Mat4) (x1 y1 z1 x2 y2 z2 : ValVector)
         (prop : option LineProp),
    let n := Nat.min (min3 x1 y1 z1) (min3 x2 y2 z2) in
    let l := LineSegments_new x1 y1 z1 x2 y2 z2 prop in
    length (ls_points l) = (2 * n)%nat
    /\ (forall k, (k < n)%nat ->
          nth (2 * k) (ls_points l) Vec3_zero = point_at x1 y1 z1 k
          /\ nth (2 * k + 1) (ls_points l) Vec3_zero = point_at x2 y2 z2 k)
    /\ LineSegments_getFragments outerM l
       = Some (map (LineSegments_segment outerM l) (seq 0 n)).
Proof.
  intros outerM x1 y1 z1 x2 y2 z2 prop n l.
  assert (Hlen : length (ls_points l) = (2 * n)%nat).
  { subst l n. unfold LineSegments_new. cbn [ls_points].
    now rewrite zip_pairs_length, !zip3_length. }
  split; [exact Hlen|]. split.
  - intros k Hk. subst l n. unfold LineSegments_new. cbn [ls_points].
    destruct (zip_pairs_nth (zip3 x1 y1 z1) (zip3 x2 y2 z2) k) as [E0 E1].
    { now rewrite !zip3_length. }
    rewrite E0, E1, !zip3_nth by lia. split; reflexivity.
  - rewrite LineSegments_getFragments_closed, Hlen.
    replace (Nat.even (2 * n)) with true
      by (symmetry; apply Nat.even_spec; now exists n).
    replace (2 * n / 2)%nat with n
      by (now rewrite Nat.mul_comm, Nat.div_mul).
    reflexivity.
Qed.

(** ** Points *)

Lemma Points_loop_closed (outerM : Mat4) (hassizes : bool)
  (sf : option SurfaceProp) (le : option LineProp) :
  forall (x y z sizes : ValVector) (i : Z) (q p1 p2 : Vec3) (ps : double)
         (idx : Z),
    Points_loop outerM hassizes x y z sizes i
      (mkFragment FR_PATH q p1 p2 sf le (Some PointsParams) ps idx)
    = filter (fun f => Vec3_isfinite (points0 f))
        (map (fun k =>
                mkFragment FR_PATH
                  (vec4to3 (Mat4_mul_vec outerM
                              (Vec4_xyz (nth k x 0%float) (nth k y 0%float)
                                        (nth k z 0%float))))
                  p1 p2 sf le (Some PointsParams)
                  (if hassizes then nth k sizes 0%float else ps)
                  (i + Z.of_nat k))
             (seq 0 (if hassizes
                     then Nat.min (min3 x y z) (length sizes)
                     else min3 x y z))).
Proof.
  induction x as [|a x IH]; intros y z sizes i q p1 p2 ps idx.
  - destruct hassizes; reflexivity.
  - destruct y as [|b y]; [destruct hassizes; reflexivity|].
    destruct z as [|c z]; [destruct hassizes; reflexivity|].
    change (min3 (a :: x) (b :: y) (c :: z)) with (S (min3 x y z)).
    cbn [Points_loop].
    destruct hassizes.
    + destruct sizes as [|s sizes].
      * now rewrite Nat.min_0_r.
      * unfold set_index, set_points0, set_pathsize.
        cbn [ftype points0 points1 points2 surfaceprop lineprop params
             pathsize index tl length Nat.min seq map filter].
        rewrite IH, Z.add_0_r, <- seq_shift, map_map.
        cbn [nth].
        destruct (Vec3_isfinite _); cbn [app]; [f_equal|];
          (f_equal; apply map_ext; intros k; f_equal; lia).
    + unfold set_index, set_points0.
      cbn [ftype points0 points1 points2 surfaceprop lineprop params
           pathsize index seq map filter].
      rewrite IH, Z.add_0_r, <- seq_shift, map_map.
      cbn [nth].
      destruct (Vec3_isfinite _); cbn [app]; [f_equal|];
        (f_equal; apply map_ext; intros k; f_equal; lia).
Qed.

Lemma Points_getFragments_closed :
  forall (outerM : Mat4) (p : Points),
    Points_getFragments outerM p
    = filter (fun f => Vec3_isfinite (points0 f))
             (map (Points_fragment outerM p) (seq 0 (Points_size p))).
Proof.
  intros outerM p. unfold Points_getFragments, Points_size, Points_fragment.
  rewrite Points_loop_closed.
  destruct (pts_sizes p) as [|s sizes]; reflexivity.
Qed.

(** X5. [Points::getFragments] visits the positions that all of [x], [y],
    [z] (and [sizes], when it is not empty) have, and pushes the marker of
    each whose projected point is finite: the marker of the point [i]
    carries the index [i] and the size [sizes[i]], or 1 without sizes. *)
Theorem Points_getFragments_markers :
  forall (outerM : Mat4) (p : Points),
    Points_getFragments outerM p
    = filter (fun f => Vec3_isfinite (points0 f))
             (map (Points_fragment outerM p) (seq 0 (Points_size p))).
Proof. exact Points_getFragments_closed. Qed.

(** ** Text *)

Lemma flat_map_single {A B} (f : A -> B) (l : list A) :
  flat_map (fun x => [f x]) l = map f l.
Proof.
  induction l as [|a l IH]; [reflexivity|]. cbn [flat_map map app].
  now rewrite IH.
Qed.

Lemma packed_reads (pts : ValVector) (n : nat) (i : nat) :
  (n <= length pts)%nat -> (i < n / 3)%nat ->
  vget pts (Z.of_nat i * 3) = Some (nth (3 * i) pts 0%float)
  /\ vget pts (Z.of_nat i * 3 + 1) = Some (nth (3 * i + 1) pts 0%float)
  /\ vget pts (Z.of_nat i * 3 + 2) = Some (nth (3 * i + 2) pts 0%float).
Proof.
  intros Hn Hi.
  assert (3 * i + 2 < n)%nat.
  { pose proof (Nat.div_mod_eq n 3). pose proof (Nat.mod_upper_bound n 3).
    lia. }
  repeat split.
  - rewrite (vget_nth _ _ 0%float) by lia. do 2 f_equal. lia.
  - rewrite (vget_nth _ _ 0%float) by lia. do 2 f_equal. lia.
  - rewrite (vget_nth _ _ 0%float) by lia. do 2 f_equal. lia.
Qed.

Lemma Text_getFragments_closed :
  forall (outerM : Mat4) (t : Text),
    Text_getFragments outerM t
    = Some (map (Text_fragment outerM t)
                (seq 0 (Nat.min (length (text_pos1 t))
                                (length (text_pos2 t)) / 3))).
Proof.
  intros outerM t. unfold Text_getFragments.
  set (n := Nat.min (length (text_pos1 t)) (length (text_pos2 t))).
  set (fp := mkFragment FR_PATH Vec3_zero Vec3_zero Vec3_zero None None
                        (Some TextParams) 1%float 0).
  destruct (loopM_map_seq Z.of_nat (fun _ (_ : unit) => True)
              (fun j => [Text_fragment outerM t j])
              (Text_item outerM t fp) (n / 3) 0%nat tt I)
    as [st' [E _]].
  - intros j [] Hj _. exists tt. split; [|exact I].
    unfold Text_item.
    destruct (packed_reads (text_pos1 t) n j) as (-> & -> & ->);
      [subst n; lia|lia|].
    destruct (packed_reads (text_pos2 t) n j) as (-> & -> & ->);
      [subst n; lia|lia|].
    reflexivity.
  - unfold upto.
    replace (Z.to_nat (Z.of_nat n / 3)) with (n / 3)%nat
      by (change 3 with (Z.of_nat 3); now rewrite <- Nat2Z.inj_div, Nat2Z.id).
    rewrite E. cbn [bind snd]. now rewrite flat_map_single.
Qed.

(** X6. [Text::getFragments] never reads past the end of its two arrays,
    whatever their lengths: it visits the complete triples that both arrays
    have and pushes one marker for each, unfiltered, anchored at the
    projected triple [i] of the first array. *)
Theorem Text_getFragments_markers :
  forall (outerM : Mat4) (t : Text),
    Text_getFragments outerM t
    = Some (map (Text_fragment outerM t)
                (seq 0 (Nat.min (length (text_pos1 t))
                                (length (text_pos2 t)) / 3))).
Proof. exact Text_getFragments_closed. Qed.

(** ** The packed-triple constructor on whole triples *)

Lemma packed_loop_whole (pts1 pts2 : ValVector) (m : nat) :
  (3 * m <= Nat.min (length pts1) (length pts2))%nat ->
  forall (fuel j : nat) (points : list Vec3),
    (j <= m)%nat -> (m - j < fuel)%nat ->
    packed_loop fuel pts1 pts2 (Z.of_nat (3 * m)) (Z.of_nat (3 * j)) points
    = Some (points
            ++ flat_map (fun k => [packed_point pts1 k; packed_point pts2 k])
                        (seq j (m - j))).
Proof.
  intros Hm. induction fuel as [|fuel IH]; intros j points Hj Hf; [lia|].
  cbn [packed_loop].
  destruct (Z.ltb_spec (Z.of_nat (3 * j)) (Z.of_nat (3 * m))) as [Hlt|Hge].
  - assert (Hr : forall (v : ValVector) (d : nat),
               (3 * m <= length v)%nat -> (d < 3)%nat ->
               vget v (Z.of_nat (3 * j) + Z.of_nat d)
               = Some (nth (3 * j + d) v 0%float)).
    { intros v d Hv Hd. rewrite (vget_nth _ _ 0%float) by lia.
      do 2 f_equal. lia. }
    pose proof (Hr pts1 0%nat ltac:(lia) ltac:(lia)) as A0.
    pose proof (Hr pts1 1%nat ltac:(lia) ltac:(lia)) as A1.
    pose proof (Hr pts1 2%nat ltac:(lia) ltac:(lia)) as A2.
    pose proof (Hr pts2 0%nat ltac:(lia) ltac:(lia)) as B0.
    pose proof (Hr pts2 1%nat ltac:(lia) ltac:(lia)) as B1.
    pose proof (Hr pts2 2%nat ltac:(lia) ltac:(lia)) as B2.
    cbn [Z.of_nat] in A0, B0. rewrite Z.add_0_r, Nat.add_0_r in A0, B0.
    change (Z.of_nat 1) with 1 in A1, B1.
    change (Z.of_nat 2) with 2 in A2, B2.
    rewrite A0, A1, A2, B0, B1, B2. cbn [bind].
    replace (Z.of_nat (3 * j) + 3) with (Z.of_nat (3 * S j)) by lia.
    rewrite IH by lia.
    replace (m - j)%nat with (S (m - S j)) by lia.
    cbn [seq flat_map]. rewrite <- app_assoc. reflexivity.
  - replace (m - j)%nat with 0%nat by lia. cbn [seq flat_map].
    now rewrite app_nil_r.
Qed.

Lemma length_flat_map_pairs {A B} (f g : A -> B) (l : list A) :
  length (flat_map (fun k => [f k; g k]) l) = (2 * length l)%nat.
Proof.
  induction l as [|a l IH]; [reflexivity|].
  cbn [flat_map app length]. rewrite IH. lia.
Qed.

(** X7. When the shorter of the two packed arrays holds whole triples only,
    the packed-triple constructor stays in range and stores, for each triple
    [k], the point of the first array and then that of the second;
    [getFragments] then pushes one segment per triple. *)
Theorem LineSegments_new_packed_whole_triples :
  forall (outerM : Mat4) (pts1 pts2 : ValVector) (prop : option LineProp),
    (Nat.min (length pts1) (length pts2) mod 3 = 0)%nat ->
    let n := (Nat.min (length pts1) (length pts2) / 3)%nat in
    exists l : LineSegments,
      LineSegments_new_packed pts1 pts2 prop = Some l
      /\ ls_lineprop l = prop
      /\ ls_points l
         = flat_map (fun k => [packed_point pts1 k; packed_point pts2 k])
                    (seq 0 n)
      /\ exists out,
           LineSegments_getFragments outerM l = Some out
           /\ length out = n.
Proof.
  intros outerM pts1 pts2 prop Hmod n.
  set (size := Nat.min (length pts1) (length pts2)) in *.
  assert (Hsize : size = (3 * n)%nat).
  { pose proof (Nat.div_mod_eq size 3). subst n. lia. }
  unfold LineSegments_new_packed. fold size.
  pose proof (packed_loop_whole pts1 pts2 n ltac:(fold size; lia)
                (S size) 0%nat [] ltac:(lia) ltac:(lia)) as E.
  rewrite Nat.mul_0_r, Nat.sub_0_r in E. cbn [Z.of_nat app] in E.
  replace (Z.of_nat size) with (Z.of_nat (3 * n)) by (now rewrite <- Hsize).
  rewrite E. cbn [bind].
  eexists. split; [reflexivity|]. cbn [ls_lineprop ls_points].
  split; [reflexivity|]. split; [reflexivity|].
  rewrite LineSegments_getFragments_closed. cbn [ls_points].
  rewrite length_flat_map_pairs.
  rewrite length_seq.
  replace (Nat.even (2 * n)) with true
    by (symmetry; apply Nat.even_spec; now exists n).
  eexists. split; [reflexivity|].
  rewrite length_map, length_seq. now rewrite Nat.mul_comm, Nat.div_mul.
Qed.

Lemma LineSegments_new_packed_whole_triples_witness :
  exists l : LineSegments,
    LineSegments_new_packed [1; 2; 3; 4; 5; 6]%float [6; 5; 4; 3; 2; 1; 0]%float
                            None = Some l
    /\ length (ls_points l) = 4%nat.
Proof.
  destruct (LineSegments_new_packed_whole_triples identityM4
              [1; 2; 3; 4; 5; 6]%float [6; 5; 4; 3; 2; 1; 0]%float None
              eq_refl) as (l & E & _ & Hp & _).
  exists l. split; [exact E|]. now rewrite Hp.
Defined.

(** ** The tracker of drawn lines *)

(** X8. A tracker created for [N1] by [N2] grid points has no line set; once
    a line is set it is reported as set, and the other lines are reported as
    before. *)
Theorem LineCellTracker_set_then_get :
  forall (N1 N2 : Z),
    0 <= N1 -> 0 <= N2 -> N1 * N2 * MAXLINEIDX < 2 ^ 32 ->
    (forall a b l,
       key_in_range N1 N2 (a, b, l) ->
       isLineSet (LineCellTracker_new N1 N2) a b l = Some false)
    /\ (forall (t : LineCellTracker) (a b l : Z),
          lct_n1 t = N1 -> lct_n2 t = N2 ->
          Z.of_nat (length (lct_data t)) = N1 * N2 * MAXLINEIDX ->
          key_in_range N1 N2 (a, b, l) ->
          exists t',
            setLine t a b l = Some t'
            /\ lct_n1 t' = N1 /\ lct_n2 t' = N2
            /\ length (lct_data t') = length (lct_data t)
            /\ isLineSet t' a b l = Some true
            /\ (forall a' b' l',
                  key_in_range N1 N2 (a', b', l') ->
                  (a', b', l') <> (a, b, l) ->
                  isLineSet t' a' b' l' = isLineSet t a' b' l')).
Proof.
  intros N1 N2 H1 H2 Hfit. split.
  - intros a b l Hk.
    destruct (tracks_isLineSet N1 N2 H2 Hfit _ _ a b l
                (tracks_new N1 N2 H1 H2 Hfit) Hk) as [d [E Hd]].
    rewrite E. destruct d; [|reflexivity]. now destruct (proj1 Hd eq_refl).
  - intros t a b l E1 E2 Hlen Hk.
    set (P := fun k : Z * Z * Z =>
                nth (Z.to_nat (key_slot N2 k)) (lct_data t) false = true).
    assert (Ht : tracks N1 N2 t P).
    { repeat split; auto. }
    destruct (tracks_setLine N1 N2 H2 Hfit t P a b l Ht Hk) as [t' [Es Ht']].
    exists t'. split; [exact Es|].
    pose proof Ht' as (E1' & E2' & Hlen' & _).
    split; [exact E1'|]. split; [exact E2'|].
    split; [apply Nat2Z.inj; lia|]. split.
    + destruct (tracks_isLineSet N1 N2 H2 Hfit t' _ a b l Ht' Hk)
        as [d [E Hd]].
      rewrite E. f_equal. apply Hd. now right.
    + intros a' b' l' Hk' Hne.
      destruct (tracks_isLineSet N1 N2 H2 Hfit t' _ a' b' l' Ht' Hk')
        as [d' [E' Hd']].
      destruct (tracks_isLineSet N1 N2 H2 Hfit t _ a' b' l' Ht Hk')
        as [d [E Hd]].
      rewrite E', E. f_equal.
      destruct d, d'; try reflexivity.
      * apply Hd'. left. now apply Hd.
      * symmetry. apply Hd.
        destruct (proj1 Hd' eq_refl) as [HP|]; [exact HP|contradiction].
Qed.

Lemma LineCellTracker_set_then_get_witness :
  isLineSet (LineCellTracker_new 2 3) 1 2 3 = Some false
  /\ exists t',
       setLine (LineCellTracker_new 2 3) 1 2 3 = Some t'
       /\ isLineSet t' 1 2 3 = Some true.
Proof.
  destruct (LineCellTracker_set_then_get 2 3 ltac:(lia) ltac:(lia)
              ltac:(unfold MAXLINEIDX; lia)) as [Hnew Hset].
  split.
  - apply Hnew. unfold key_in_range, MAXLINEIDX. lia.
  - destruct (Hset (LineCellTracker_new 2 3) 1 2 3 eq_refl eq_refl eq_refl
                ltac:(unfold key_in_range, MAXLINEIDX; lia))
      as (t' & Es & _ & _ & _ & Eg & _).
    exists t'. split; assumption.
Defined.

(** ** Containers *)

Lemma Emitted_app_nil_l (r : Emitted) : Emitted_app (emit []) r = r.
Proof. now destruct r. Qed.

Lemma Emitted_app_nil_r (r : Emitted) : Emitted_app r (emit []) = r.
Proof.
  destruct r as [f s]. unfold Emitted_app, emit. cbn [frags stderr].
  now rewrite !app_nil_r.
Qed.

Lemma Emitted_app_assoc (a b c : Emitted) :
  Emitted_app a (Emitted_app b c) = Emitted_app (Emitted_app a b) c.
Proof.
  unfold Emitted_app. cbn [frags stderr]. now rewrite !app_assoc.
Qed.

Lemma children_getFragments_app (rec : Object -> option Emitted)
  (l1 l2 : list Object) :
  children_getFragments rec (l1 ++ l2)
  = (a <- children_getFragments rec l1 ;;
     b <- children_getFragments rec l2 ;;
     Some (Emitted_app a b)).
Proof.
  induction l1 as [|o l1 IH].
  - cbn [app children_getFragments bind].
    destruct (children_getFragments rec l2) as [b|]; [|reflexivity].
    cbn [bind]. now rewrite Emitted_app_nil_l.
  - cbn [app children_getFragments]. rewrite IH.
    destruct (rec o) as [a|]; [|reflexivity]. cbn [bind].
    destruct (children_getFragments rec l1) as [b|]; [|reflexivity].
    cbn [bind].
    destruct (children_getFragments rec l2) as [c|]; [|reflexivity].
    cbn [bind]. now rewrite Emitted_app_assoc.
Qed.

(** X9. An [ObjectContainer] appends what its children append, child after
    child, each under the product of the outer transform and the container's
    own: an empty container appends nothing, a container of one child what
    the child appends, and a container of two lists what the containers of
    each list append, in that order. *)
Theorem ObjectContainer_concatenates :
  forall twod (outerM objM : Mat4),
    getFragments twod outerM (ObjectContainer objM []) = Some (emit [])
    /\ (forall o,
          getFragments twod outerM (ObjectContainer objM [o])
          = getFragments twod (Mat4_mul outerM objM) o)
    /\ (forall l1 l2,
          getFragments twod outerM (ObjectContainer objM (l1 ++ l2))
          = (a <- getFragments twod outerM (ObjectContainer objM l1) ;;
             b <- getFragments twod outerM (ObjectContainer objM l2) ;;
             Some (Emitted_app a b))).
Proof.
  intros twod outerM objM. split; [reflexivity|]. split.
  - intros o. cbn [getFragments children_getFragments].
    destruct (getFragments twod (Mat4_mul outerM objM) o) as [a|];
      [|reflexivity].
    cbn [bind]. now rewrite Emitted_app_nil_r.
  - intros l1 l2. cbn [getFragments]. apply children_getFragments_app.
Qed.

(** ** Kinds and styles of the fragments *)

Lemma carries_style_triangle (sp : option SurfaceProp) (lp : option LineProp)
  (f : Fragment) :
  sp <> None -> stamped FR_TRIANGLE sp None f -> carries_style sp lp f.
Proof.
  intros Hsp H. unfold carries_style. rewrite (proj1 H). split; assumption.
Qed.

Lemma carries_style_lineseg (sp : option SurfaceProp) (lp : option LineProp)
  (f : Fragment) :
  lp <> None -> stamped FR_LINESEG None lp f -> carries_style sp lp f.
Proof.
  intros Hlp H. unfold carries_style. rewrite (proj1 H). split; assumption.
Qed.

Lemma carries_style_well_kinded (sp : option SurfaceProp)
  (lp : option LineProp) (f : Fragment) :
  carries_style sp lp f -> well_kinded f.
Proof.
  unfold carries_style, well_kinded.
  destruct (ftype f); try contradiction; intros (_ & _ & E1 & E2); auto.
Qed.

Lemma Mesh_lines_styled (outerM : Mat4) (m : Mesh) (out : FragmentVector) :
  Mesh_getLineFragments outerM m = Some out ->
  Forall (carries_style (mesh_surfaceprop m) (mesh_lineprop m)) out.
Proof.
  unfold Mesh_getLineFragments.
  destruct (mesh_lineprop m) as [lp|] eqn:Elp; [|intros [= <-]; constructor].
  destruct (getVecIdxs (dirn m)) as [[vidx_h vidx_1] vidx_2].
  match goal with
  | |- bind ?l _ = _ -> _ => destruct l as [[st o]|] eqn:E; [|discriminate]
  end.
  cbn [bind snd]. intros [= <-].
  set (I := fun st : Vec4 * Fragment =>
              stamped FR_LINESEG None (Some lp) (snd st)).
  set (P := carries_style (mesh_surfaceprop m) (Some lp)).
  apply (loopM_Forall I P) in E; [exact (proj2 E)| |repeat split].
  intros stepindex st0 st1 out1 H0 E1.
  apply (loopM_Forall I P) in E1; [exact E1| |exact H0].
  intros [consti vconst] [pt fl] st2 out2 H1 E2.
  unfold Mesh_line_walk in E2.
  apply (loopM_Forall I P) in E2; [exact E2| |exact H1].
  intros [stepi vstep] [pt' fl'] st3 out3 H2 E3.
  unfold Mesh_line_step in E3.
  destruct (vget (heights m) _); [|discriminate]. cbn [bind] in E3.
  injection E3 as <- <-. split; [exact H2|].
  destruct (_ && _); constructor; [|constructor].
  apply carries_style_lineseg; [discriminate|exact H2].
Qed.

Lemma Mesh_surface_styled (outerM : Mat4) (m : Mesh) (out : FragmentVector) :
  Mesh_getSurfaceFragments outerM m = Some out ->
  Forall (carries_style (mesh_surfaceprop m) (mesh_lineprop m)) out.
Proof.
  unfold Mesh_getSurfaceFragments.
  destruct (mesh_surfaceprop m) as [sp|] eqn:Esp;
    [|intros [= <-]; constructor].
  match goal with
  | |- bind ?l _ = _ -> _ => destruct l as [[st o]|] eqn:E; [|discriminate]
  end.
  cbn [bind snd]. intros [= <-].
  set (I := fun st : list Vec4 * Fragment =>
              stamped FR_TRIANGLE (Some sp) None (snd st)).
  set (P := carries_style (Some sp) (mesh_lineprop m)).
  apply (loopM_Forall I P) in E; [exact (proj2 E)| |repeat split].
  intros i1 st0 st1 out1 H0 E1.
  apply (loopM_Forall I P) in E1; [exact E1| |exact H0].
  intros i2 [p fs] st2 out2 Hfs E2.
  unfold Mesh_cell in E2.
  destruct (loopM (Mesh_corner _ _ _ _ _ _) _ _) as [[[p' pproj] o']|];
    [|discriminate].
  cbn [bind fst] in E2.
  destruct (loopM (Mesh_cell_triangle _ _ _ _) _ _) as [[fs' o2]|] eqn:E3;
    [|discriminate].
  cbn [bind fst snd] in E2. injection E2 as <- <-.
  apply (loopM_Forall (stamped FR_TRIANGLE (Some sp) None) P) in E3;
    [exact E3| |exact Hfs].
  intros tri fs0 fs1 o3 Hf0 E4. unfold Mesh_cell_triangle in E4.
  destruct (tidxs _ tri) as [[a b] c].
  destruct (Vec4_isfinite _); injection E4 as <- <-.
  - split; [exact Hf0|]. constructor; [|constructor].
    apply carries_style_triangle; [discriminate|exact Hf0].
  - split; [exact Hf0|constructor].
Qed.

Lemma DataMesh_styled (outerM : Mat4) (dm : DataMesh) (r : Emitted) :
  DataMesh_getFragments outerM dm = Some r ->
  Forall (carries_style (dm_surfaceprop dm) (dm_lineprop dm)) (frags r).
Proof.
  unfold DataMesh_getFragments.
  destruct (negb (check_indices _)); [intros [= <-]; constructor|].
  destruct (negb (check_sizes dm)); [intros [= <-]; constructor|].
  set (ft := mkFragment FR_TRIANGLE Vec3_zero Vec3_zero Vec3_zero
                        (dm_surfaceprop dm) None None 0%float 0).
  set (fl := mkFragment FR_LINESEG Vec3_zero Vec3_zero Vec3_zero
                        None (dm_lineprop dm) None 0%float 0).
  set (P := carries_style (dm_surfaceprop dm) (dm_lineprop dm)).
  assert (G : forall l0 st,
             r0 <- loopM (fun i1 st =>
                      loopM (fun i2 st =>
                               DataMesh_cell outerM dm ft fl
                                 (int_sub (int_of_size (length (edges1 dm))) 1)
                                 (int_sub (int_of_size (length (edges2 dm))) 1)
                                 i1 i2 st) l0 st)
                   (upto (int_sub (int_of_size (length (edges1 dm))) 1)) st ;;
             Some (emit (snd r0)) = Some r ->
             Forall P (frags r)).
  { intros l0 st0.
    match goal with
    | |- bind ?l _ = _ -> _ => destruct l as [[st o]|] eqn:E; [|discriminate]
    end.
    cbn [bind snd]. intros [= <-]. cbn [frags emit].
    apply (loopM_Forall (fun _ => True) P) in E; [exact (proj2 E)| |exact I].
    intros i1 st1 st2 out1 _ E1.
    apply (loopM_Forall (fun _ => True) P) in E1; [exact E1| |exact I].
    intros i2 [corners tracker] st3 out2 _ E2. split; [exact I|].
    unfold DataMesh_cell in E2.
    destruct (vget (vals dm) _) as [v|]; [|discriminate]. cbn [bind] in E2.
    destruct (negb (d_isfinite v)); [injection E2 as _ <-; constructor|].
    destruct (DataMesh_cell_corners _ _ _ _ _ _) as [corners'|];
      [|discriminate].
    cbn [bind] in E2.
    match type of E2 with
    | bind ?l _ = _ => destruct l as [[tracker' lines]|] eqn:El; [|discriminate]
    end.
    cbn [bind fst snd] in E2. injection E2 as _ <-.
    apply Forall_app. split.
    - change (surfaceprop ft) with (dm_surfaceprop dm).
      destruct (dm_surfaceprop dm) as [sp|] eqn:Esp; [|constructor].
      unfold DataMesh_triangles. apply Forall_forall. intros f Hf.
      apply in_map_iff in Hf. destruct Hf as [[[a b] c] [<- _]].
      apply carries_style_triangle; [discriminate|].
      repeat split; try assumption.
    - change (lineprop fl) with (dm_lineprop dm) in El.
      destruct (dm_lineprop dm) as [lp|] eqn:Elp;
        [|injection El as _ <-; constructor].
      apply (loopM_Forall (fun _ => True) P) in El;
        [exact (proj2 El)| |exact I].
      intros i t t' pushed _ E3. split; [exact I|].
      unfold DataMesh_line in E3.
      destruct (nth i (linecells_of (highres dm)) (0, 0, 0))
        as [[xidx yidx] lineidx].
      destruct (nth i (lines_of (highres dm)) (0%nat, 0%nat)) as [a b].
      destruct (isLineSet t _ _ _) as [[|]|]; [| |discriminate];
        cbn [bind] in E3.
      + injection E3 as _ <-. constructor.
      + destruct (setLine t _ _ _); [|discriminate]. cbn [bind] in E3.
        injection E3 as _ <-.
        destruct (Vec3_isfinite _ && Vec3_isfinite _);
          constructor; [|constructor].
        apply carries_style_lineseg; [discriminate|].
        repeat split; try assumption. }
  destruct (dm_lineprop dm), (dm_surfaceprop dm);
    try apply G. intros [= <-]. constructor.
Qed.

(** X10. [Mesh] and [DataMesh] only push triangles and line segments, and
    never one without its style: every triangle carries the surface style of
    the mesh, every line segment its line style, and a mesh without one of
    the styles pushes no fragment of that kind. *)
Theorem meshes_push_styled_fragments :
  forall (outerM : Mat4),
    (forall (m : Mesh) (out : FragmentVector),
       Mesh_getFragments outerM m = Some out ->
       Forall (carries_style (mesh_surfaceprop m) (mesh_lineprop m)) out)
    /\ (forall (dm : DataMesh) (r : Emitted),
          DataMesh_getFragments outerM dm = Some r ->
          Forall (carries_style (dm_surfaceprop dm) (dm_lineprop dm))
                 (frags r)).
Proof.
  intros outerM. split.
  - intros m out E. unfold Mesh_getFragments in E.
    destruct (Mesh_getLineFragments outerM m) as [l|] eqn:El; [|discriminate].
    destruct (Mesh_getSurfaceFragments outerM m) as [s|] eqn:Es;
      [|discriminate].
    cbn [bind] in E. injection E as <-. apply Forall_app. split.
    + exact (Mesh_lines_styled outerM m l El).
    + exact (Mesh_surface_styled outerM m s Es).
  - intros dm r. apply DataMesh_styled.
Qed.

Lemma children_well_kinded twod (M : Mat4) (objects : list Object) :
  Forall (fun o => forall outerM r,
            getFragments twod outerM o = Some r ->
            Forall well_kinded (frags r)) objects ->
  forall r,
    children_getFragments (getFragments twod M) objects = Some r ->
    Forall well_kinded (frags r).
Proof.
  induction 1 as [|o objects Ho _ IH]; intros r E.
  - cbn in E. injection E as <-. constructor.
  - cbn [children_getFragments] in E.
    destruct (getFragments twod M o) as [a|] eqn:Ea; [|discriminate].
    cbn [bind] in E.
    destruct (children_getFragments (getFragments twod M) objects) as [b|];
      [|discriminate].
    cbn [bind] in E. injection E as <-. cbn [Emitted_app frags].
    apply Forall_app. split; [exact (Ho M a Ea)|exact (IH b eq_refl)].
Qed.

(** X11. Whatever the scene, every fragment appended is a triangle, a line
    segment or a path marker: a triangle has no line style, a line segment
    no surface style, and a path marker has the parameter block of its
    object. *)
Theorem fragments_well_kinded :
  forall twod (o : Object) (outerM : Mat4) (r : Emitted),
    getFragments twod outerM o = Some r ->
    Forall well_kinded (frags r).
Proof.
  intros twod o. induction o using Object_tree_ind; intros outerM r E.
  - destruct o; try contradiction; cbn [getFragments] in E.
    + injection E as <-. constructor.
    + injection E as <-. repeat constructor.
    + injection E as <-. cbn [frags emit].
      rewrite PolyLine_getFragments_closed. apply Forall_forall.
      intros f Hf. apply filter_In in Hf. destruct Hf as [Hf _].
      apply in_map_iff in Hf. destruct Hf as [i [<- _]]. reflexivity.
    + unfold lift in E. rewrite LineSegments_getFragments_closed in E.
      destruct (Nat.even _); [|discriminate]. cbn in E. injection E as <-.
      cbn [frags emit]. apply Forall_forall. intros f Hf.
      apply in_map_iff in Hf. destruct Hf as [i [<- _]]. reflexivity.
    + unfold lift in E.
      destruct (Mesh_getFragments outerM m) as [v|] eqn:Em; [|discriminate].
      cbn in E. injection E as <-. cbn [frags emit].
      unfold Mesh_getFragments in Em.
      destruct (Mesh_getLineFragments outerM m) as [l|] eqn:El; [|discriminate].
      destruct (Mesh_getSurfaceFragments outerM m) as [s|] eqn:Es;
        [|discriminate].
      cbn [bind] in Em. injection Em as <-.
      apply Forall_app. split.
      * eapply Forall_impl; [|exact (Mesh_lines_styled outerM m l El)].
        intros f. apply carries_style_well_kinded.
      * eapply Forall_impl; [|exact (Mesh_surface_styled outerM m s Es)].
        intros f. apply carries_style_well_kinded.
    + eapply Forall_impl; [|exact (DataMesh_styled outerM d r E)].
      intros f. apply carries_style_well_kinded.
    + injection E as <-. cbn [frags emit].
      rewrite Points_getFragments_closed. apply Forall_forall.
      intros f Hf. apply filter_In in Hf. destruct Hf as [Hf _].
      apply in_map_iff in Hf. destruct Hf as [i [<- _]]. discriminate.
    + unfold lift in E. rewrite Text_getFragments_closed in E. cbn in E.
      injection E as <-. cbn [frags emit]. apply Forall_forall.
      intros f Hf. apply in_map_iff in Hf. destruct Hf as [i [<- _]].
      discriminate.
    + injection E as <-. cbn [frags emit].
      unfold TriangleFacing_getFragments.
      destruct (facing outerM (Triangle_norm t)); repeat constructor.
    + injection E as <-. cbn [frags emit].
      unfold AxisTickLabels_getFragments.
      destruct (numentries_of a =? 0)%nat; [constructor|].
      apply Forall_forall. intros f Hf.
      apply in_map_iff in Hf. destruct Hf as [[i frac] [<- _]]. discriminate.
  - cbn [getFragments] in E.
    exact (children_well_kinded twod _ objects H r E).
  - cbn [getFragments] in E. destruct (facing outerM norm).
    + exact (children_well_kinded twod _ objects H r E).
    + injection E as <-. constructor.
Qed.

Lemma fragments_well_kinded_witness :
  Forall well_kinded
         (frags (emit (Points_getFragments identityM4
                         (mkPoints [0; 1]%float [0; 1]%float [0; 1]%float []
                                   None (Some 0%nat))))).
Proof.
  exact (fragments_well_kinded TwoD.twodLineIntersect
           (ObjectContainer identityM4
              [PointsObject
                 (mkPoints [0; 1]%float [0; 1]%float [0; 1]%float []
                           None (Some 0%nat))])
           identityM4 _ eq_refl).
Defined.

(** ** AxisTickLabels: the axis the labels are placed on *)

Lemma bestaxis_of_is_a_choice twod (outerM : Mat4) (a : AxisTickLabels) :
  numentries_of a <> 0%nat ->
  (bestaxis_of twod outerM a < numentries_of a)%nat
  /\ (nonoverlapping twod outerM a <> [] ->
      axis_overlaps twod outerM a (bestaxis_of twod outerM a) = false).
Proof.
  intros Hn.
  assert (Hsub : forall c, In c (axchoices_of twod outerM a) ->
                   (c < numentries_of a)%nat
                   /\ (nonoverlapping twod outerM a <> [] ->
                       axis_overlaps twod outerM a c = false)).
  { intros c Hc. unfold axchoices_of in Hc.
    destruct (nonoverlapping twod outerM a) as [|x l] eqn:El.
    - apply in_seq in Hc. split; [lia|]. intros H. now contradiction H.
    - rewrite <- El in Hc. unfold nonoverlapping in Hc.
      apply filter_In in Hc. destruct Hc as [Hc Ho].
      apply in_seq in Hc. split; [lia|]. intros _.
      now apply negb_true_iff in Ho. }
  apply Hsub.
  destruct (best_axis_first_maximum (axis_score_of outerM a)
              (axchoices_of twod outerM a)) as (l1 & l2 & E & _).
  - intros c. rewrite axis_score_of_weight. apply criteria_weight_nonneg.
  - unfold axchoices_of.
    destruct (nonoverlapping twod outerM a); [|discriminate].
    destruct (numentries_of a); [contradiction|discriminate].
  - unfold bestaxis_of. rewrite E at 2. apply in_elt.
Qed.

Lemma AxisTickLabels_getFragments_ticks twod (outerM : Mat4)
  (a : AxisTickLabels) :
  numentries_of a <> 0%nat ->
  AxisTickLabels_getFragments twod outerM a
  = map (tick_fragment outerM
           (nth (bestaxis_of twod outerM a) (starts a) Vec3_zero)
           (Vec3_sub (nth (bestaxis_of twod outerM a) (ends a) Vec3_zero)
                     (nth (bestaxis_of twod outerM a) (starts a) Vec3_zero)))
        (indexed (tickfracs a)).
Proof.
  intros Hn. unfold AxisTickLabels_getFragments.
  destruct (Nat.eqb_spec (numentries_of a) 0); [contradiction|reflexivity].
Qed.

(** X12. Without a candidate axis [AxisTickLabels] appends nothing. With
    candidates, the chosen axis is one of them (so its two ends are read in
    range), it crosses no face of the projected cube whenever some candidate
    does not, and the ticks are placed on it, one path marker per tick
    fraction. *)
Theorem AxisTickLabels_places_on_a_candidate :
  forall twod (outerM : Mat4) (a : AxisTickLabels),
    let best := bestaxis_of twod outerM a in
    (numentries_of a = 0%nat ->
     AxisTickLabels_getFragments twod outerM a = [])
    /\ (numentries_of a <> 0%nat ->
        (best < numentries_of a)%nat
        /\ (nonoverlapping twod outerM a <> [] ->
            axis_overlaps twod outerM a best = false)
        /\ AxisTickLabels_getFragments twod outerM a
           = map (tick_fragment outerM
                    (nth best (starts a) Vec3_zero)
                    (Vec3_sub (nth best (ends a) Vec3_zero)
                              (nth best (starts a) Vec3_zero)))
                 (indexed (tickfracs a))
        /\ length (AxisTickLabels_getFragments twod outerM a)
           = length (tickfracs a)).
Proof.
  intros twod outerM a best. split.
  - intros E. unfold AxisTickLabels_getFragments. now rewrite E.
  - intros Hn.
    destruct (bestaxis_of_is_a_choice twod outerM a Hn) as [Hlt Hov].
    pose proof (AxisTickLabels_getFragments_ticks twod outerM a Hn) as Hfr.
    split; [exact Hlt|]. split; [exact Hov|]. split; [exact Hfr|].
    rewrite Hfr, length_map. apply indexed_length.
Qed.

(** X13. [addAxisChoice] adds one candidate axis, after those already there,
    and keeps the two lists of axis ends of one length; the labels of an
    object whose only candidate it is are placed on it, whether or not it
    crosses the cube. *)
Theorem addAxisChoice_adds_a_candidate :
  forall twod (outerM : Mat4) (a : AxisTickLabels) (s e : Vec3),
    length (starts a) = length (ends a) ->
    let a' := addAxisChoice a s e in
    length (starts a') = length (ends a')
    /\ numentries_of a' = S (numentries_of a)
    /\ firstn (numentries_of a) (starts a') = starts a
    /\ firstn (numentries_of a) (ends a') = ends a
    /\ nth (numentries_of a) (starts a') Vec3_zero = s
    /\ nth (numentries_of a) (ends a') Vec3_zero = e
    /\ (numentries_of a = 0%nat ->
        AxisTickLabels_getFragments twod outerM a'
        = map (tick_fragment outerM s (Vec3_sub e s))
              (indexed (tickfracs a))).
Proof.
  intros twod outerM a s e Hlen a'.
  assert (Hn : numentries_of a = length (starts a))
    by (unfold numentries_of; lia).
  assert (Hn' : numentries_of a' = S (numentries_of a)).
  { subst a'. unfold numentries_of, addAxisChoice. cbn [starts ends].
    rewrite !length_app. cbn [length]. lia. }
  subst a'. unfold addAxisChoice in *. cbn [starts ends tickfracs] in *.
  split; [rewrite !length_app; cbn [length]; lia|].
  split; [exact Hn'|].
  split; [rewrite Hn, firstn_app, Nat.sub_diag, firstn_all; apply app_nil_r|].
  split; [rewrite Hn, Hlen, firstn_app, Nat.sub_diag, firstn_all;
          apply app_nil_r|].
  split; [rewrite Hn, app_nth2, Nat.sub_diag by lia; reflexivity|].
  split; [rewrite Hn, Hlen, app_nth2, Nat.sub_diag by lia; reflexivity|].
  intros H0.
  set (a' := mkAxisTickLabels (box1 a) (box2 a) (tickfracs a)
                              (starts a ++ [s]) (ends a ++ [e])) in *.
  assert (Hne : numentries_of a' <> 0%nat) by lia.
  rewrite (AxisTickLabels_getFragments_ticks twod outerM a' Hne).
  destruct (bestaxis_of_is_a_choice twod outerM a' Hne) as [Hlt _].
  assert (Hb : bestaxis_of twod outerM a' = 0%nat) by lia.
  rewrite Hb. subst a'. cbn [starts ends tickfracs].
  destruct (starts a); [|cbn [length] in Hn; lia].
  destruct (ends a); [|cbn [length] in Hlen; lia].
  reflexivity.
Qed.

Lemma addAxisChoice_adds_a_candidate_witness :
  numentries_of (addAxisChoice axis_through_cube Vec3_zero Vec3_zero)
  = 2%nat.
Proof.
  exact (proj1 (proj2 (addAxisChoice_adds_a_candidate TwoD.twodLineIntersect
                         identityM4 axis_through_cube Vec3_zero Vec3_zero
                         eq_refl))).
Defined.

(** ** Mesh: reads of the heights *)

(** A loop whose rounds stay in range under the invariant [I], keep it
    and push at most [c] fragments each, stays in range and pushes at most
    [c] fragments per round. *)
Lemma loopM_bounded {S A F} (I : S -> Prop)
  (body : A -> S -> option (S * list F)) (c : nat) (l : list A) :
  (forall a st, In a l -> I st ->
     exists st' out,
       body a st = Some (st', out) /\ I st' /\ (length out <= c)%nat) ->
  forall st,
    I st ->
    exists st' out,
      loopM body l st = Some (st', out) /\ I st'
      /\ (length out <= c * length l)%nat.
Proof.
  induction l as [|a l IH]; intros Hbody st HI.
  - exists st, []. split; [reflexivity|]. split; [exact HI|cbn; lia].
  - destruct (Hbody a st (or_introl eq_refl) HI) as (st1 & o1 & E1 & HI1 & H1).
    destruct (IH (fun a' st' Hin => Hbody a' st' (or_intror Hin)) st1 HI1)
      as (st2 & o2 & E2 & HI2 & H2).
    exists st2, (o1 ++ o2). cbn [loopM]. rewrite E1. cbn [bind fst snd].
    rewrite E2. cbn [bind fst snd]. split; [reflexivity|].
    split; [exact HI2|]. rewrite length_app. cbn [length]. lia.
Qed.

Lemma loopM_fails {S A F} (body : A -> S -> option (S * list F)) (l : list A)
  (a : A) :
  In a l -> (forall st, body a st = None) ->
  forall st, loopM body l st = None.
Proof.
  intros Hin Hbody. induction l as [|x l IH]; intros st; [contradiction|].
  cbn [loopM]. destruct Hin as [->|Hin].
  - now rewrite Hbody.
  - destruct (body x st) as [[st1 o1]|]; [|reflexivity].
    cbn [bind fst snd]. now rewrite (IH Hin).
Qed.

Lemma indexed_In {A} (l : list A) (i : Z) (x : A) (d : A) :
  In (i, x) (indexed l)
  <-> 0 <= i < Z.of_nat (length l) /\ x = nth (Z.to_nat i) l d.
Proof.
  rewrite (indexed_map_seq d), in_map_iff. split.
  - intros (j & E & Hj). apply in_seq in Hj. injection E as <- <-.
    rewrite Nat2Z.id. split; [lia|reflexivity].
  - intros [Hi ->]. exists (Z.to_nat i). split.
    + f_equal. lia.
    + apply in_seq. lia.
Qed.

Lemma length_flat_map_le {A B} (f : A -> list B) (c : nat) (l : list A) :
  (forall a, In a l -> (length (f a) <= c)%nat) ->
  (length (flat_map f l) <= c * length l)%nat.
Proof.
  induction l as [|a l IH]; intros H; [cbn; lia|].
  cbn [flat_map length]. rewrite length_app.
  specialize (H a (or_introl eq_refl)) as Ha.
  specialize (IH (fun x Hx => H x (or_intror Hx))). lia.
Qed.

Lemma Mesh_lines_in_range (outerM : Mat4) (m : Mesh) :
  (length (pos1 m) * length (pos2 m) <= length (heights m))%nat ->
  exists out,
    Mesh_getLineFragments outerM m = Some out
    /\ (length out <= (length (pos1 m) - 1) * length (pos2 m)
                      + (length (pos2 m) - 1) * length (pos1 m))%nat.
Proof.
  intros Hh. unfold Mesh_getLineFragments.
  destruct (mesh_lineprop m) as [lp|];
    [|exists []; split; [reflexivity|apply Nat.le_0_l]].
  destruct (getVecIdxs (dirn m)) as [[vidx_h vidx_1] vidx_2].
  set (n1 := length (pos1 m)) in *. set (n2 := length (pos2 m)) in *.
  cbn [loopM]. change (0 =? 0)%nat with true. change (1 =? 0)%nat with false.
  cbv iota.
  set (fl := mkFragment FR_LINESEG Vec3_zero Vec3_zero Vec3_zero None
                        (Some lp) None 0%float 0).
  (* the walks along pos1 *)
  destruct (loopM_bounded (fun _ => True)
              (fun (c : Z * double) (st : Vec4 * Fragment) =>
                 let '(consti, vconst) := c in
                 let '(pt, fl) := st in
                 Mesh_line_walk outerM m vidx_h vidx_1 0 (Z.of_nat n2)
                   consti (pos1 m) (Vec4_set pt vidx_2 vconst, fl))
              (n1 - 1) (indexed (pos2 m))) with (st := (Vec4_origin, fl))
    as (st1 & o1 & E1 & _ & H1); [|exact I|].
  { intros [consti vconst] [pt f] Hin _.
    apply (indexed_In _ _ _ 0%float) in Hin. destruct Hin as [Hc _].
    fold n2 in Hc.
    destruct (Mesh_walk_count outerM m vidx_h vidx_1 0 (Z.of_nat n2) consti
                (pos1 m) (Vec4_set pt vidx_2 vconst) f)
      as (st' & out & pts & E & _ & _ & Hcount).
    - intros stepi Hs. fold n1 in Hs. unfold Mesh_height_index.
      change (0 =? 0)%nat with true. cbv iota. nia.
    - exists st', out. split; [exact E|]. split; [exact I|].
      fold n1 in Hcount. lia. }
  rewrite E1. cbn [bind fst snd].
  (* the walks along pos2 *)
  destruct (loopM_bounded (fun _ => True)
              (fun (c : Z * double) (st : Vec4 * Fragment) =>
                 let '(consti, vconst) := c in
                 let '(pt, fl) := st in
                 Mesh_line_walk outerM m vidx_h vidx_2 1 (Z.of_nat n2)
                   consti (pos2 m) (Vec4_set pt vidx_1 vconst, fl))
              (n2 - 1) (indexed (pos1 m))) with (st := st1)
    as (st2 & o2 & E2 & _ & H2); [|exact I|].
  { intros [consti vconst] [pt f] Hin _.
    apply (indexed_In _ _ _ 0%float) in Hin. destruct Hin as [Hc _].
    fold n1 in Hc.
    destruct (Mesh_walk_count outerM m vidx_h vidx_2 1 (Z.of_nat n2) consti
                (pos2 m) (Vec4_set pt vidx_1 vconst) f)
      as (st' & out & pts & E & _ & _ & Hcount).
    - intros stepi Hs. fold n2 in Hs. unfold Mesh_height_index.
      change (1 =? 0)%nat with false. cbv iota. nia.
    - exists st', out. split; [exact E|]. split; [exact I|].
      fold n2 in Hcount. lia. }
  rewrite E2. cbn [bind fst snd].
  eexists. split; [reflexivity|].
  rewrite app_nil_r, length_app, !indexed_length in *. fold n1 n2 in H1, H2.
  lia.
Qed.

Lemma Mesh_surface_in_range (outerM : Mat4) (m : Mesh) :
  (length (pos1 m) * length (pos2 m) <= length (heights m))%nat ->
  exists out,
    Mesh_getSurfaceFragments outerM m = Some out
    /\ (length out <= 2 * ((length (pos1 m) - 1) * (length (pos2 m) - 1)))%nat.
Proof.
  intros Hh.
  destruct (mesh_surfaceprop m) as [sp|] eqn:Esp.
  - rewrite Mesh_getSurfaceFragments_spec by (try lia; congruence).
    eexists. split; [reflexivity|]. unfold Mesh_surface_triangles.
    pose proof (length_flat_map_le
                  (fun i1 => flat_map (Mesh_cell_triangles outerM m i1)
                               (upto (Z.of_nat (length (pos2 m)) - 1)))
                  (2 * (length (pos2 m) - 1))
                  (upto (Z.of_nat (length (pos1 m)) - 1))) as H.
    rewrite upto_length in H.
    assert (Hcell : forall i1,
               (length (flat_map (Mesh_cell_triangles outerM m i1)
                          (upto (Z.of_nat (length (pos2 m)) - 1)))
                <= 2 * (length (pos2 m) - 1))%nat).
    { intros i1.
      pose proof (length_flat_map_le (Mesh_cell_triangles outerM m i1) 2
                    (upto (Z.of_nat (length (pos2 m)) - 1))) as H'.
      rewrite upto_length in H'.
      assert (forall i2,
                 (length (Mesh_cell_triangles outerM m i1 i2) <= 2)%nat).
      { intros i2. unfold Mesh_cell_triangles. cbn [flat_map].
        rewrite !length_app.
        destruct (Mesh_triangle_test m i1 i2 0),
          (Mesh_triangle_test m i1 i2 1); cbn [length]; lia. }
      specialize (H' (fun a _ => H0 a)). lia. }
    specialize (H (fun a _ => Hcell a)). nia.
  - unfold Mesh_getSurfaceFragments. rewrite Esp.
    exists []. split; [reflexivity|apply Nat.le_0_l].
Qed.

(** X14. With a height for every grid position, [Mesh::getFragments] reads
    [heights] in range only, and pushes at most one segment for each pair of
    neighbouring positions along either direction and two triangles for each
    cell. *)
Theorem Mesh_getFragments_in_range :
  forall (outerM : Mat4) (m : Mesh),
    (length (pos1 m) * length (pos2 m) <= length (heights m))%nat ->
    exists out,
      Mesh_getFragments outerM m = Some out
      /\ (length out
          <= (length (pos1 m) - 1) * length (pos2 m)
             + (length (pos2 m) - 1) * length (pos1 m)
             + 2 * ((length (pos1 m) - 1) * (length (pos2 m) - 1)))%nat.
Proof.
  intros outerM m Hh. unfold Mesh_getFragments.
  destruct (Mesh_lines_in_range outerM m Hh) as (l & El & Hl).
  destruct (Mesh_surface_in_range outerM m Hh) as (s & Es & Hs).
  rewrite El, Es. cbn [bind]. eexists. split; [reflexivity|].
  rewrite length_app. lia.
Qed.

Lemma Mesh_getFragments_in_range_witness :
  exists out,
    Mesh_getFragments identityM4 (small_mesh 1%float) = Some out
    /\ (length out <= 6)%nat.
Proof.
  destruct (Mesh_getFragments_in_range identityM4 (small_mesh 1%float))
    as (out & E & H).
  - cbn. lia.
  - exists out. split; [exact E|]. cbn in H. lia.
Defined.

Lemma vget_past_end {A} (v : list A) (i : Z) :
  Z.of_nat (length v) <= i -> vget v i = None.
Proof.
  intros H. unfold vget. destruct (Z.ltb_spec i 0); [reflexivity|].
  apply nth_error_None. lia.
Qed.

Lemma Mesh_lines_out_of_range (outerM : Mat4) (m : Mesh) :
  mesh_lineprop m <> None ->
  (length (heights m) < length (pos1 m) * length (pos2 m))%nat ->
  Mesh_getLineFragments outerM m = None.
Proof.
  intros Hlp Hh. unfold Mesh_getLineFragments.
  destruct (mesh_lineprop m) as [lp|]; [clear Hlp|contradiction].
  destruct (getVecIdxs (dirn m)) as [[vidx_h vidx_1] vidx_2].
  set (n1 := length (pos1 m)) in *. set (n2 := length (pos2 m)) in *.
  assert (0 < n1 /\ 0 < n2)%nat as [Hn1 Hn2] by nia.
  cbn [loopM]. change (0 =? 0)%nat with true. cbv iota.
  rewrite (loopM_fails _ (indexed (pos2 m))
             (Z.of_nat (n2 - 1), nth (n2 - 1) (pos2 m) 0%float));
    [reflexivity| |].
  - apply (indexed_In _ _ _ 0%float). fold n2. rewrite Nat2Z.id.
    split; [lia|reflexivity].
  - intros [pt fl]. unfold Mesh_line_walk.
    apply (loopM_fails _ (indexed (pos1 m))
             (Z.of_nat (n1 - 1), nth (n1 - 1) (pos1 m) 0%float)).
    + apply (indexed_In _ _ _ 0%float). fold n1. rewrite Nat2Z.id.
      split; [lia|reflexivity].
    + intros [pt' fl']. unfold Mesh_line_step.
      change (0 =? 0)%nat with true. cbv iota.
      now rewrite vget_past_end by nia.
Qed.

Lemma Mesh_surface_out_of_range (outerM : Mat4) (m : Mesh) :
  mesh_surfaceprop m <> None ->
  (2 <= length (pos1 m))%nat -> (2 <= length (pos2 m))%nat ->
  (length (heights m) < length (pos1 m) * length (pos2 m))%nat ->
  Mesh_getSurfaceFragments outerM m = None.
Proof.
  intros Hsp H1 H2 Hh. unfold Mesh_getSurfaceFragments.
  destruct (mesh_surfaceprop m) as [sp|]; [clear Hsp|contradiction].
  set (n1 := length (pos1 m)) in *. set (n2 := length (pos2 m)) in *.
  rewrite (loopM_fails _ (upto (Z.of_nat n1 - 1)) (Z.of_nat n1 - 2));
    [reflexivity|apply upto_In; lia|].
  intros st.
  apply (loopM_fails _ (upto (Z.of_nat n2 - 1)) (Z.of_nat n2 - 2));
    [apply upto_In; lia|].
  intros [p fs]. unfold Mesh_cell.
  rewrite (loopM_fails _ [0; 1; 2; 3]%nat 3%nat);
    [reflexivity|cbn; tauto|].
  intros [p' pproj]. unfold Mesh_corner.
  destruct (getVecIdxs (dirn m)) as [[vidx_h vidx_1] vidx_2].
  change (Z.of_nat (3 mod 2)) with 1. change (Z.of_nat (3 / 2)) with 1.
  now rewrite vget_past_end by nia.
Qed.

(** X15. [Mesh] does not check its sizes: with fewer heights than grid
    positions, [getFragments] reads [heights] past its end as soon as it
    has a line style, or a surface style and a cell (two positions along
    each direction). *)
Theorem Mesh_short_heights_out_of_range :
  forall (outerM : Mat4) (m : Mesh),
    mesh_lineprop m <> None
    \/ (mesh_surfaceprop m <> None
        /\ (2 <= length (pos1 m))%nat /\ (2 <= length (pos2 m))%nat) ->
    (length (heights m) < length (pos1 m) * length (pos2 m))%nat ->
    Mesh_getFragments outerM m = None.
Proof.
  intros outerM m Hstyle Hh. unfold Mesh_getFragments.
  destruct Hstyle as [Hlp|(Hsp & H1 & H2)].
  - now rewrite Mesh_lines_out_of_range.
  - destruct (Mesh_getLineFragments outerM m); [|reflexivity].
    cbn [bind]. now rewrite Mesh_surface_out_of_range.
Qed.

Lemma Mesh_short_heights_out_of_range_witness :
  Mesh_getFragments identityM4
    (mkMesh [0; 1]%float [0; 1]%float [1; 1; 1]%float Z_DIRN (Some 0%nat) None)
  = None.
Proof.
  apply Mesh_short_heights_out_of_range;
    [left; discriminate|cbn [pos1 pos2 heights length]; lia].
Defined.

(** ** DataMesh: degenerate grids and cells without a value *)

Lemma loopM_skip {S A F} (body : A -> S -> option (S * list F)) (l : list A) :
  (forall a st, In a l -> body a st = Some (st, [])) ->
  forall st, loopM body l st = Some (st, []).
Proof.
  induction l as [|a l IH]; intros Hbody st; [reflexivity|].
  cbn [loopM]. rewrite (Hbody a st (or_introl eq_refl)). cbn [bind fst snd].
  now rewrite (IH (fun a' st' Hin => Hbody a' st' (or_intror Hin))).
Qed.

Lemma upto_nonpos (n : Z) : n <= 0 -> upto n = [].
Proof.
  intros H. unfold upto. now replace (Z.to_nat n) with 0%nat by lia.
Qed.

Lemma DataMesh_dim_short (n : nat) :
  (n <= 1)%nat -> int_sub (int_of_size n) 1 <= 0.
Proof.
  intros H. destruct n as [|[|n]]; [vm_compute; discriminate..|lia].
Qed.

(** X16. A [DataMesh] that passes validation and has at most one edge along
    one of its two directions has no cell: it appends nothing and reports
    nothing. *)
Theorem DataMesh_without_cells :
  forall (outerM : Mat4) (dm : DataMesh),
    check_indices [idxval dm; idxedge1 dm; idxedge2 dm] = true ->
    check_sizes dm = true ->
    (length (edges1 dm) <= 1)%nat \/ (length (edges2 dm) <= 1)%nat ->
    DataMesh_getFragments outerM dm = Some (emit []).
Proof.
  intros outerM dm Hidx Hsizes Hshort. unfold DataMesh_getFragments.
  rewrite Hidx, Hsizes. cbn [negb].
  assert (G : forall ft fl st,
             loopM (fun i1 st =>
                      loopM (fun i2 st =>
                               DataMesh_cell outerM dm ft fl (DataMesh_n1 dm)
                                 (DataMesh_n2 dm) i1 i2 st)
                            (upto (DataMesh_n2 dm)) st)
                   (upto (DataMesh_n1 dm)) st
             = Some (st, [])).
  { intros ft fl st. unfold DataMesh_n1, DataMesh_n2.
    destruct Hshort as [H|H].
    - now rewrite (upto_nonpos _ (DataMesh_dim_short _ H)).
    - rewrite (upto_nonpos _ (DataMesh_dim_short _ H)).
      now apply loopM_skip. }
  fold (DataMesh_n1 dm) (DataMesh_n2 dm).
  destruct (dm_lineprop dm), (dm_surfaceprop dm); try reflexivity;
    now rewrite G.
Qed.

Lemma DataMesh_without_cells_witness :
  DataMesh_getFragments identityM4
    (mkDataMesh [0]%float [0; 1; 2]%float [] 2 0 1 true
                (Some 0%nat) (Some 0%nat))
  = Some (emit []).
Proof.
  apply DataMesh_without_cells; [reflexivity|reflexivity|left; cbn; lia].
Defined.

(** X17. A [DataMesh] that passes validation and none of whose cell values
    is finite appends nothing and reports nothing, whatever its styles:
    every cell is skipped. *)
Theorem DataMesh_without_values :
  forall (outerM : Mat4) (dm : DataMesh),
    check_indices [idxval dm; idxedge1 dm; idxedge2 dm] = true ->
    check_sizes dm = true ->
    sizes_fit_int dm ->
    forallb (fun v => negb (d_isfinite v)) (vals dm) = true ->
    DataMesh_getFragments outerM dm = Some (emit []).
Proof.
  intros outerM dm Hidx Hsizes Hint Hvals. unfold DataMesh_getFragments.
  rewrite Hidx, Hsizes. cbn [negb].
  fold (DataMesh_n1 dm) (DataMesh_n2 dm).
  assert (G : forall ft fl st,
             loopM (fun i1 st =>
                      loopM (fun i2 st =>
                               DataMesh_cell outerM dm ft fl (DataMesh_n1 dm)
                                 (DataMesh_n2 dm) i1 i2 st)
                            (upto (DataMesh_n2 dm)) st)
                   (upto (DataMesh_n1 dm)) st
             = Some (st, [])).
  { intros ft fl st. apply loopM_skip. intros i1 st1 H1.
    apply loopM_skip. intros i2 [corners tracker] H2.
    apply upto_In in H1, H2. unfold DataMesh_cell.
    destruct (DataMesh_cell_index dm Hint Hsizes i1 i2 H1 H2) as [Eci Hci].
    rewrite Eci, (vget_nth _ _ 0%float Hci). cbn [bind].
    rewrite forallb_forall in Hvals.
    rewrite (Hvals (nth (Z.to_nat (i1 * DataMesh_n2 dm + i2)) (vals dm)
                        0%float)); [reflexivity|].
    apply nth_In. lia. }
  destruct (dm_lineprop dm), (dm_surfaceprop dm); try reflexivity;
    now rewrite G.
Qed.

Lemma DataMesh_without_values_witness :
  DataMesh_getFragments identityM4
    (mkDataMesh [0; 1]%float [0; 1; 2]%float [nan; infinity]%float 2 0 1 true
                (Some 0%nat) (Some 0%nat))
  = Some (emit []).
Proof.
  apply DataMesh_without_values;
    [reflexivity|reflexivity|unfold sizes_fit_int, INT_MAX; cbn; lia
    |reflexivity].
Defined.

(** ** DataMesh: the surface *)

Lemma DataMesh_cell_triangles_count (outerM : Mat4) (dm : DataMesh)
  (i1 i2 : Z) :
  dm_surfaceprop dm <> None ->
  length (DataMesh_cell_triangles outerM dm i1 i2) = ntris_of (highres dm)
  /\ Forall (fun f => ftype f = FR_TRIANGLE
                      /\ index f = i1 * DataMesh_n2 dm + i2)
            (DataMesh_cell_triangles outerM dm i1 i2).
Proof.
  intros Hsp. unfold DataMesh_cell_triangles.
  destruct (dm_surfaceprop dm) as [sp|]; [|contradiction].
  unfold DataMesh_triangles. split.
  - rewrite length_map.
    destruct (highres dm); [reflexivity|].
    destruct ((i1 + i2) mod 2 =? 0); reflexivity.
  - apply Forall_forall. intros f Hf. apply in_map_iff in Hf.
    destruct Hf as [[[a b] c] [<- _]]. split; reflexivity.
Qed.

Lemma DataMesh_surface_cell (outerM : Mat4) (dm : DataMesh)
  (sp : SurfaceProp) (i1 i2 : Z) (st : list Vec4 * LineCellTracker) :
  check_indices [idxval dm; idxedge1 dm; idxedge2 dm] = true ->
  check_sizes dm = true -> sizes_fit_int dm ->
  dm_lineprop dm = None -> dm_surfaceprop dm = Some sp ->
  0 <= i1 < DataMesh_n1 dm -> 0 <= i2 < DataMesh_n2 dm ->
  corners_ok (fst st) ->
  exists st',
    DataMesh_cell outerM dm
      (mkFragment FR_TRIANGLE Vec3_zero Vec3_zero Vec3_zero
                  (dm_surfaceprop dm) None None 0%float 0)
      (mkFragment FR_LINESEG Vec3_zero Vec3_zero Vec3_zero
                  None (dm_lineprop dm) None 0%float 0)
      (DataMesh_n1 dm) (DataMesh_n2 dm) i1 i2 st
    = Some (st', if d_isfinite (DataMesh_val dm i1 i2)
                 then DataMesh_cell_triangles outerM dm i1 i2 else [])
    /\ corners_ok (fst st').
Proof.
  intros Hidx Hsizes Hint Hlp Hsp H1 H2 Hok.
  destruct st as [corners t]. cbn [fst] in Hok. unfold DataMesh_cell.
  destruct (DataMesh_cell_index dm Hint Hsizes i1 i2 H1 H2) as [Eci Hci].
  rewrite Eci, (vget_nth _ _ 0%float Hci). cbn [bind].
  fold (DataMesh_val dm i1 i2).
  destruct (d_isfinite (DataMesh_val dm i1 i2)); cbn [negb].
  - destruct (DataMesh_cell_corners_run dm Hidx Hint Hsizes i1 i2 corners
                H1 H2 Hok) as (corners' & E1 & E2 & Hok').
    rewrite E1. cbn [bind].
    assert (Ec3 : DataMesh_corners3 outerM dm i1 i2
                  = map (fun c => vec4to3 (Mat4_mul_vec outerM c)) corners')
      by (unfold DataMesh_corners3; now rewrite E2).
    rewrite <- Ec3. cbn [surfaceprop lineprop]. rewrite Hlp, Hsp.
    cbn [bind fst snd]. rewrite app_nil_r.
    exists (corners', t). split; [|exact Hok'].
    unfold DataMesh_cell_triangles. rewrite Hsp. reflexivity.
  - exists (corners, t). split; [reflexivity|exact Hok].
Qed.

(** X18. The surface of a [DataMesh] that passes validation, with sizes in
    the range of the [int] of the size check, and has a
    surface style and no line style: cell by cell, each cell with a finite
    value gives its 8 triangles (2 at low resolution), unfiltered and
    carrying the number of the cell as index, and a cell without a finite
    value gives none. *)
Theorem DataMesh_surface_by_cell :
  forall (outerM : Mat4) (dm : DataMesh) (sp : SurfaceProp),
    check_indices [idxval dm; idxedge1 dm; idxedge2 dm] = true ->
    check_sizes dm = true ->
    sizes_fit_int dm ->
    dm_lineprop dm = None ->
    dm_surfaceprop dm = Some sp ->
    DataMesh_getFragments outerM dm = Some (emit (DataMesh_surface outerM dm))
    /\ (forall i1 i2,
          length (DataMesh_cell_triangles outerM dm i1 i2)
          = ntris_of (highres dm)
          /\ Forall (fun f => ftype f = FR_TRIANGLE
                              /\ index f = i1 * DataMesh_n2 dm + i2)
                    (DataMesh_cell_triangles outerM dm i1 i2)).
Proof.
  intros outerM dm sp Hidx Hsizes Hint Hlp Hsp. split.
  - unfold DataMesh_getFragments. rewrite Hidx, Hsizes. cbn [negb].
    fold (DataMesh_n1 dm) (DataMesh_n2 dm).
    set (ft := mkFragment FR_TRIANGLE Vec3_zero Vec3_zero Vec3_zero
                          (dm_surfaceprop dm) None None 0%float 0).
    set (fl := mkFragment FR_LINESEG Vec3_zero Vec3_zero Vec3_zero
                          None (dm_lineprop dm) None 0%float 0).
    destruct (loopM_map_seq Z.of_nat
                (fun _ (st : list Vec4 * LineCellTracker) =>
                   corners_ok (fst st))
                (fun j => flat_map
                            (fun i2 =>
                               if d_isfinite (DataMesh_val dm (Z.of_nat j) i2)
                               then DataMesh_cell_triangles outerM dm
                                      (Z.of_nat j) i2
                               else [])
                            (upto (DataMesh_n2 dm)))
                (fun i1 st =>
                   loopM (fun i2 st =>
                            DataMesh_cell outerM dm ft fl (DataMesh_n1 dm)
                              (DataMesh_n2 dm) i1 i2 st)
                         (upto (DataMesh_n2 dm)) st)
                (Z.to_nat (DataMesh_n1 dm)) 0%nat
                (repeat Vec4_origin 9,
                 LineCellTracker_new
                   (unsigned_of_size (length (edges1 dm)))
                   (unsigned_of_size (length (edges2 dm)))))
      as [st' [E _]].
    + split; [reflexivity|repeat constructor].
    + intros j st0 Hj Hst0.
      destruct (loopM_map_seq Z.of_nat
                  (fun _ (st : list Vec4 * LineCellTracker) =>
                     corners_ok (fst st))
                  (fun k => if d_isfinite (DataMesh_val dm (Z.of_nat j)
                                                        (Z.of_nat k))
                            then DataMesh_cell_triangles outerM dm
                                   (Z.of_nat j) (Z.of_nat k)
                            else [])
                  (fun i2 st =>
                     DataMesh_cell outerM dm ft fl (DataMesh_n1 dm)
                       (DataMesh_n2 dm) (Z.of_nat j) i2 st)
                  (Z.to_nat (DataMesh_n2 dm)) 0%nat st0 Hst0)
        as [st1 [E1 Hst1]].
      * intros k st2 Hk Hst2.
        apply (DataMesh_surface_cell outerM dm sp); auto; lia.
      * exists st1. split; [|exact Hst1].
        rewrite flat_map_upto. exact E1.
    + change (upto (DataMesh_n1 dm))
        with (map Z.of_nat (seq 0 (Z.to_nat (DataMesh_n1 dm)))).
      rewrite Hlp, Hsp in *. rewrite E. cbn [bind snd].
      unfold DataMesh_surface. now rewrite flat_map_upto.
  - intros i1 i2. apply DataMesh_cell_triangles_count. congruence.
Qed.

Lemma DataMesh_surface_by_cell_witness :
  DataMesh_getFragments identityM4 holed_mesh
  = Some (emit (DataMesh_surface identityM4 holed_mesh))
  /\ length (DataMesh_surface identityM4 holed_mesh) = 2%nat.
Proof.
  split.
  - apply (DataMesh_surface_by_cell identityM4 holed_mesh 0%nat);
      [reflexivity|reflexivity|unfold sizes_fit_int, INT_MAX; cbn; lia
      |reflexivity|reflexivity].
  - vm_compute. reflexivity.
Defined.

(** ** DataMesh: validation keeps every read in range *)

Lemma DataMesh_line_in_range (dm : DataMesh) (corners3 : list Vec3)
  (i1 i2 : Z) (fl : Fragment) (j : nat) (t : LineCellTracker) :
  sizes_fit_int dm -> check_sizes dm = true ->
  Z.of_nat (length (edges1 dm)) * Z.of_nat (length (edges2 dm)) * MAXLINEIDX
  < 2 ^ 32 ->
  0 <= i1 < DataMesh_n1 dm -> 0 <= i2 < DataMesh_n2 dm ->
  (j < nlines_of (highres dm))%nat ->
  (exists P, tracks (Z.of_nat (length (edges1 dm)))
                    (Z.of_nat (length (edges2 dm))) t P) ->
  exists t' out,
    DataMesh_line dm corners3 i1 i2 fl j t = Some (t', out)
    /\ (exists P, tracks (Z.of_nat (length (edges1 dm)))
                         (Z.of_nat (length (edges2 dm))) t' P)
    /\ (length out <= 1)%nat.
Proof.
  intros Hint Hsizes Htrack H1 H2 Hj [P Ht].
  pose proof (DataMesh_dims dm Hint Hsizes) as (E1 & E2 & _ & _ & Hb1 & Hb2).
  pose proof (DataMesh_key_range dm Hint Hsizes i1 i2 j H1 H2 Hj) as Hk.
  pose proof (linecells_bounds (highres dm) j Hj) as Hb.
  unfold DataMesh_line, DataMesh_key in *.
  destruct (nth j (linecells_of (highres dm)) (0, 0, 0))
    as [[xidx yidx] lineidx].
  destruct (nth j (lines_of (highres dm)) (0%nat, 0%nat)) as [a b].
  rewrite !wrap_unsigned_small by lia.
  assert (HN2 : 0 <= Z.of_nat (length (edges2 dm))) by lia.
  destruct (tracks_isLineSet _ _ HN2 Htrack t P _ _ _ Ht Hk)
    as [drawn [Ed _]].
  rewrite Ed. cbn [bind]. destruct drawn.
  - exists t, []. split; [reflexivity|]. split; [now exists P|cbn; lia].
  - destruct (tracks_setLine _ _ HN2 Htrack t P _ _ _ Ht Hk)
      as [t' [Es Ht']].
    rewrite Es. cbn [bind]. eexists _, _. split; [reflexivity|].
    split; [eexists; exact Ht'|].
    destruct (_ && _); cbn [length]; lia.
Qed.

Lemma DataMesh_triangles_length (dm : DataMesh) (corners3 : list Vec3)
  (i1 i2 : Z) (ft : Fragment) :
  length (DataMesh_triangles dm corners3 i1 i2 ft) = ntris_of (highres dm).
Proof.
  unfold DataMesh_triangles. rewrite length_map.
  destruct (highres dm); [reflexivity|].
  destruct ((i1 + i2) mod 2 =? 0); reflexivity.
Qed.

(** X19. A [DataMesh] that passes validation, with sizes in the range of the
    32-bit arithmetic, reads its arrays and its line tracker in range only,
    whatever the values, the styles and the transform; it reports nothing
    and pushes at most 8 triangles and 8 lines per cell (2 and 4 at low
    resolution). *)
Theorem DataMesh_getFragments_in_range :
  forall (outerM : Mat4) (dm : DataMesh),
    check_indices [idxval dm; idxedge1 dm; idxedge2 dm] = true ->
    check_sizes dm = true ->
    sizes_fit_int dm ->
    Z.of_nat (length (edges1 dm)) * Z.of_nat (length (edges2 dm)) * MAXLINEIDX
    < 2 ^ 32 ->
    exists r : Emitted,
      DataMesh_getFragments outerM dm = Some r
      /\ stderr r = []
      /\ (length (frags r)
          <= (ntris_of (highres dm) + nlines_of (highres dm))
             * Z.to_nat (DataMesh_n2 dm) * Z.to_nat (DataMesh_n1 dm))%nat.
Proof.
  intros outerM dm Hidx Hsizes Hint Htrack. unfold DataMesh_getFragments.
  rewrite Hidx, Hsizes. cbn [negb].
  fold (DataMesh_n1 dm) (DataMesh_n2 dm).
  set (ft := mkFragment FR_TRIANGLE Vec3_zero Vec3_zero Vec3_zero
                        (dm_surfaceprop dm) None None 0%float 0).
  set (fl := mkFragment FR_LINESEG Vec3_zero Vec3_zero Vec3_zero
                        None (dm_lineprop dm) None 0%float 0).
  set (N1 := Z.of_nat (length (edges1 dm))) in *.
  set (N2 := Z.of_nat (length (edges2 dm))) in *.
  set (c := (ntris_of (highres dm) + nlines_of (highres dm))%nat).
  set (I := fun st : list Vec4 * LineCellTracker =>
              corners_ok (fst st) /\ exists P, tracks N1 N2 (snd st) P).
  pose proof (DataMesh_dims dm Hint Hsizes) as (E1 & E2 & _ & _ & Hb1 & Hb2).
  fold N1 N2 in E1, E2, Hb1, Hb2.
  assert (Hcell : forall i1 i2 st,
             0 <= i1 < DataMesh_n1 dm -> 0 <= i2 < DataMesh_n2 dm -> I st ->
             exists st' out,
               DataMesh_cell outerM dm ft fl (DataMesh_n1 dm) (DataMesh_n2 dm)
                             i1 i2 st = Some (st', out)
               /\ I st' /\ (length out <= c)%nat).
  { intros i1 i2 [corners t] H1 H2 [Hok Ht]. cbn [fst snd] in Hok, Ht.
    unfold DataMesh_cell.
    destruct (DataMesh_cell_index dm Hint Hsizes i1 i2 H1 H2) as [Eci Hci].
    rewrite Eci, (vget_nth _ _ 0%float Hci). cbn [bind].
    destruct (d_isfinite _); cbn [negb].
    - destruct (DataMesh_cell_corners_run dm Hidx Hint Hsizes i1 i2 corners
                  H1 H2 Hok) as (corners' & Ec & _ & Hok').
      rewrite Ec. cbn [bind].
      set (corners3 := map (fun c => vec4to3 (Mat4_mul_vec outerM c)) corners').
      assert (Hlines : exists t' lines,
                 match lineprop fl with
                 | Some _ =>
                     loopM (DataMesh_line dm corners3 i1 i2
                              (set_index fl (i1 * DataMesh_n2 dm + i2)))
                           (seq 0 (nlines_of (highres dm))) t
                 | None => Some (t, [])
                 end = Some (t', lines)
                 /\ (exists P, tracks N1 N2 t' P)
                 /\ (length lines <= nlines_of (highres dm))%nat).
      { destruct (lineprop fl).
        - destruct (loopM_bounded (fun t => exists P, tracks N1 N2 t P)
                      (DataMesh_line dm corners3 i1 i2
                         (set_index fl (i1 * DataMesh_n2 dm + i2)))
                      1 (seq 0 (nlines_of (highres dm)))) with (st := t)
            as (t' & lines & El & Ht' & Hl); [|exact Ht|].
          + intros j t0 Hj Ht0. apply in_seq in Hj.
            apply DataMesh_line_in_range; auto; lia.
          + exists t', lines. rewrite length_seq in Hl.
            split; [exact El|]. split; [exact Ht'|lia].
        - exists t, []. split; [reflexivity|].
          split; [exact Ht|cbn [length]; lia]. }
      destruct Hlines as (t' & lines & El & Ht' & Hl).
      rewrite El. cbn [bind fst snd].
      eexists _, _. split; [reflexivity|]. split; [split; assumption|].
      rewrite length_app. subst c.
      destruct (surfaceprop ft);
        [rewrite DataMesh_triangles_length|cbn [length]]; lia.
    - exists (corners, t), []. split; [reflexivity|].
      split; [split; assumption|cbn [length]; lia]. }
  assert (Hrun : exists st' out,
             loopM (fun i1 st =>
                      loopM (fun i2 st =>
                               DataMesh_cell outerM dm ft fl (DataMesh_n1 dm)
                                 (DataMesh_n2 dm) i1 i2 st)
                            (upto (DataMesh_n2 dm)) st)
                   (upto (DataMesh_n1 dm))
                   (repeat Vec4_origin 9,
                    LineCellTracker_new
                      (unsigned_of_size (length (edges1 dm)))
                      (unsigned_of_size (length (edges2 dm))))
             = Some (st', out)
             /\ (length out
                 <= c * Z.to_nat (DataMesh_n2 dm)
                    * Z.to_nat (DataMesh_n1 dm))%nat).
  { destruct (loopM_bounded I
                (fun i1 st =>
                   loopM (fun i2 st =>
                            DataMesh_cell outerM dm ft fl (DataMesh_n1 dm)
                              (DataMesh_n2 dm) i1 i2 st)
                         (upto (DataMesh_n2 dm)) st)
                (c * Z.to_nat (DataMesh_n2 dm))
                (upto (DataMesh_n1 dm)))
      with (st := (repeat Vec4_origin 9,
                   LineCellTracker_new
                     (unsigned_of_size (length (edges1 dm)))
                     (unsigned_of_size (length (edges2 dm)))))
      as (st' & out & E & _ & Hl).
    - intros i1 st Hi1 Hst. apply upto_In in Hi1.
      destruct (loopM_bounded I
                  (fun i2 st =>
                     DataMesh_cell outerM dm ft fl (DataMesh_n1 dm)
                       (DataMesh_n2 dm) i1 i2 st)
                  c (upto (DataMesh_n2 dm))) with (st := st)
        as (st1 & o1 & Er & Hst1 & Hl1); [|exact Hst|].
      + intros i2 st0 Hi2 Hst0. apply upto_In in Hi2. now apply Hcell.
      + exists st1, o1. rewrite upto_length in Hl1. auto.
    - split; cbn [fst snd].
      + split; [reflexivity|repeat constructor].
      + exists (fun _ => False). unfold unsigned_of_size.
        rewrite !wrap_unsigned_small by (fold N1 N2; lia).
        apply tracks_new; fold N1 N2; lia.
    - exists st', out. rewrite upto_length in Hl. auto. }
  destruct Hrun as (st' & out & E & Hl).
  destruct (dm_lineprop dm) eqn:Elp, (dm_surfaceprop dm) eqn:Esp;
    try (rewrite E; cbn [bind snd]; eexists; split; [reflexivity|];
         split; [reflexivity|exact Hl]).
  eexists. split; [reflexivity|]. split; [reflexivity|].
  apply Nat.le_0_l.
Qed.

Lemma DataMesh_getFragments_in_range_witness :
  exists r : Emitted,
    DataMesh_getFragments depth_divide flat_cell = Some r /\ stderr r = [].
Proof.
  destruct (DataMesh_getFragments_in_range depth_divide flat_cell)
    as (r & E & Hs & _);
    [reflexivity|reflexivity|unfold sizes_fit_int, INT_MAX; cbn; lia
    |unfold MAXLINEIDX; cbn; lia|].
  exists r. split; assumption.
Defined.

(** ** The averages of the corner heights *)

(** X20. [average4] and [average2] return the sum of their finite
    arguments, added from 0 in the order of the arguments, divided by the
    number of finite arguments; with no finite argument that is 0/0, not
    a number. *)
Theorem averages_over_finite_values :
  (forall a b c d : double,
     average4 a b c d
     = (sum_from_zero (finite_values [a; b; c; d])
        / double_of_nat (length (finite_values [a; b; c; d])))%float)
  /\ (forall a b : double,
        average2 a b
        = (sum_from_zero (finite_values [a; b])
           / double_of_nat (length (finite_values [a; b])))%float)
  /\ map double_of_nat [0; 1; 2; 3; 4]%nat = [0; 1; 2; 3; 4]%float
  /\ (forall a b c d : double,
        finite_values [a; b; c; d] = [] -> average4 a b c d = nan)
  /\ (forall a b : double,
        finite_values [a; b] = [] -> average2 a b = nan).
Proof.
  assert (H4 : forall a b c d : double,
             average4 a b c d
             = (sum_from_zero (finite_values [a; b; c; d])
                / double_of_nat (length (finite_values [a; b; c; d])))%float).
  { intros a b c d. unfold average4, accumulate, finite_values.
    cbn [filter].
    destruct (d_isfinite a), (d_isfinite b), (d_isfinite c), (d_isfinite d);
      reflexivity. }
  assert (H2 : forall a b : double,
             average2 a b
             = (sum_from_zero (finite_values [a; b])
                / double_of_nat (length (finite_values [a; b])))%float).
  { intros a b. unfold average2, accumulate, finite_values. cbn [filter].
    destruct (d_isfinite a), (d_isfinite b); reflexivity. }
  split; [exact H4|]. split; [exact H2|]. split; [reflexivity|]. split.
  - intros a b c d E. rewrite H4, E. reflexivity.
  - intros a b E. rewrite H2, E. reflexivity.
Qed.

(** ** The corners of a cell *)

(** X21. The corner [k] of a cell sits where [corner_offset] says: along the
    first edge axis at [fst (corner_offset k)] half steps from [e1a] to
    [e1b], along the second at [snd (corner_offset k)] from [e2a] to [e2b]. *)
Lemma DataMesh_corner_position (a b c : nat) (corners : list Vec4)
  (neigh : list double) (e1a e1b e2a e2b : double) (k : nat) :
  check_indices [a; b; c] = true -> length corners = 9%nat -> (k < 9)%nat ->
  let p := nth k (DataMesh_corners (a, b, c) corners neigh e1a e1b e2a e2b)
               Vec4_zero in
  Vec4_component p b = half_steps (fst (corner_offset k)) e1a e1b
  /\ Vec4_component p c = half_steps (snd (corner_offset k)) e2a e2b.
Proof.
  intros Hidx Hlen Hk.
  do 9 (destruct corners as [|? corners]; [discriminate Hlen|]).
  destruct corners; [clear Hlen|discriminate Hlen].
  destruct a as [|[|[|a]]], b as [|[|[|b]]], c as [|[|[|c]]];
    try discriminate Hidx;
    do 9 (destruct k as [|k]; [split; reflexivity|]); lia.
Qed.

Lemma DataMesh_corner_position_witness :
  let p := nth 3 (DataMesh_corners (2, 0, 1)%nat (repeat Vec4_origin 9)
                    (repeat 1%float 9) 0%float 1%float 0%float 1%float)
               Vec4_zero in
  Vec4_component p 0 = 1%float /\ Vec4_component p 1 = 0.5%float.
Proof.
  exact (DataMesh_corner_position 2 0 1 (repeat Vec4_origin 9)
           (repeat 1%float 9) 0%float 1%float 0%float 1%float 3
           eq_refl eq_refl ltac:(lia)).
Defined.
